(** * Synapse: reliable UDP core, shallow embedding

  The development follows the C++ sources: fixed-width unsigned integers
  are integers of [Z] with the wrap-around written out, [std::array]s are
  lists read and written by index, and the classes become records whose
  member functions thread the record explicitly. *)

From Stdlib Require Import ZArith Lia Bool List.
From stdpp Require Import base list.

Local Open Scope Z_scope.

(** ** Fixed-width arithmetic *)

Definition wrap8 (x : Z) : Z := x mod 256.
Definition wrap16 (x : Z) : Z := x mod 65536.
Definition wrap32 (x : Z) : Z := x mod 4294967296.
Definition wrap64 (x : Z) : Z := x mod 18446744073709551616.

(** [static_cast<int>] of a 32-bit unsigned value (two's complement). *)
Definition to_int32 (x : Z) : Z :=
let y := wrap32 x in if y <? 2147483648 then y else y - 4294967296.

Definition U32_MAX : Z := 4294967295.

Lemma wrap16_range x : 0 <= wrap16 x < 65536.
Proof. unfold wrap16. apply Z.mod_pos_bound. lia. Qed.

Lemma wrap16_small x : 0 <= x < 65536 -> wrap16 x = x.
Proof. intros. unfold wrap16. apply Z.mod_small. lia. Qed.

Lemma wrap32_range x : 0 <= wrap32 x < 4294967296.
Proof. unfold wrap32. apply Z.mod_pos_bound. lia. Qed.

Lemma wrap32_small x : 0 <= x < 4294967296 -> wrap32 x = x.
Proof. intros. unfold wrap32. apply Z.mod_small. lia. Qed.

(** ** Sequence arithmetic (ReliableBuffer.h) *)

Module Sequence.

(** [SequenceGreaterThan(s1, s2)]: both operands are promoted to [int], so
    the differences are computed without wrap-around. *)
Definition SequenceGreaterThan (s1 s2 : Z) : bool :=
  ((s2 <? s1) && (s1 - s2 <=? 32768)) || ((s1 <? s2) && (32768 <? s2 - s1)).

Definition SequenceLessThan (s1 s2 : Z) : bool := SequenceGreaterThan s2 s1.

Example greater_1_0 : SequenceGreaterThan 1 0 = true.
Proof. reflexivity. Qed.
Example greater_0_65535 : SequenceGreaterThan 0 65535 = true.
Proof. reflexivity. Qed.
Example greater_32768_0 : SequenceGreaterThan 32768 0 = true.
Proof. reflexivity. Qed.
Example greater_32769_0 : SequenceGreaterThan 32769 0 = false.
Proof. reflexivity. Qed.

Lemma SequenceGreaterThan_true s1 s2 :
  SequenceGreaterThan s1 s2 = true <->
  (s2 < s1 /\ s1 - s2 <= 32768) \/ (s1 < s2 /\ 32768 < s2 - s1).
Proof.
  unfold SequenceGreaterThan.
  rewrite orb_true_iff, !andb_true_iff, !Z.ltb_lt, Z.leb_le. tauto.
Qed.

Lemma SequenceGreaterThan_false s1 s2 :
  SequenceGreaterThan s1 s2 = false <->
  ~ ((s2 < s1 /\ s1 - s2 <= 32768) \/ (s1 < s2 /\ 32768 < s2 - s1)).
Proof.
  rewrite <- SequenceGreaterThan_true.
  destruct (SequenceGreaterThan s1 s2); split; congruence.
Qed.

Lemma SequenceGreaterThan_irrefl s : SequenceGreaterThan s s = false.
Proof. apply SequenceGreaterThan_false. lia. Qed.

(** The successor sequence, with wrap, expressed without [mod]. *)
Lemma wrap16_add a d :
  0 <= a < 65536 -> 0 <= d <= 65536 ->
  wrap16 (a + d) = if a + d <? 65536 then a + d else a + d - 65536.
Proof.
  intros Ha Hd. unfold wrap16.
  destruct (Z.ltb_spec (a + d) 65536).
  - apply Z.mod_small. lia.
  - symmetry. apply (Z.mod_unique_pos _ _ 1). lia. lia.
Qed.

Lemma wrap16_sub a d :
  0 <= a < 65536 -> 0 <= d <= 65536 ->
  wrap16 (a - d) = if d <=? a then a - d else a - d + 65536.
Proof.
  intros Ha Hd. unfold wrap16.
  destruct (Z.leb_spec d a).
  - apply Z.mod_small. lia.
  - symmetry. apply (Z.mod_unique_pos _ _ (-1)). lia. lia.
Qed.

(** C6, as stated, fails at the half-range distance once the sum wraps:
    [a = 32768], [d = 32768] gives [SequenceGreaterThan 0 32768], which is
    false because [32768 - 0 > 32768] does not hold. *)
Lemma SequenceGreaterThan_half_range_wrapped :
  0 <= 32768 <= 65535 /\ 1 <= 32768 <= 32768 /\
  SequenceGreaterThan (wrap16 (32768 + 32768)) 32768 = false.
Proof. repeat split; try lia. Qed.

(** C6 (amended): for every [a] in [0, 65535] and [d] in [1, 32768],
    [SequenceGreaterThan ((a + d) mod 65536) a] is true exactly when
    [d <= 32767] or [a <= 32767]; that is, for every distance below the half
    range, and at the half range itself only while [a + d] does not wrap. *)
Theorem SequenceGreaterThan_successor (a d : Z) :
  0 <= a <= 65535 -> 1 <= d <= 32768 ->
  (SequenceGreaterThan (wrap16 (a + d)) a = true <-> (d < 32768 \/ a < 32768)).
Proof.
  intros Ha Hd.
  rewrite SequenceGreaterThan_true, wrap16_add by lia.
  destruct (Z.ltb_spec (a + d) 65536); lia.
Qed.

Lemma SequenceGreaterThan_successor_witness :
  SequenceGreaterThan (wrap16 (65535 + 1)) 65535 = true <->
  (1 < 32768 \/ 65535 < 32768).
Proof. apply (SequenceGreaterThan_successor 65535 1); lia. Defined.

(** *** The order is total on distinct sequence numbers *)

(** Two different 16-bit sequence numbers are always ordered, and one way
    only: [SequenceGreaterThan(s1, s2)] holds exactly when
    [SequenceGreaterThan(s2, s1)], that is [SequenceLessThan(s1, s2)], does
    not.  At the distance of half the range the larger number is the
    greater one. *)
Theorem SequenceGreaterThan_total (s1 s2 : Z) :
  0 <= s1 < 65536 -> 0 <= s2 < 65536 -> s1 <> s2 ->
  SequenceGreaterThan s1 s2 = negb (SequenceLessThan s1 s2).
Proof.
  intros H1 H2 Hne. unfold SequenceLessThan.
  destruct (SequenceGreaterThan s2 s1) eqn:E; cbn [negb].
  - apply SequenceGreaterThan_true in E. apply SequenceGreaterThan_false. lia.
  - apply SequenceGreaterThan_false in E. apply SequenceGreaterThan_true. lia.
Qed.

Lemma SequenceGreaterThan_total_witness :
  SequenceGreaterThan 0 65535 = negb (SequenceLessThan 0 65535).
Proof. apply (SequenceGreaterThan_total 0 65535); lia. Defined.

End Sequence.

(** ** Bit-count helpers (SerialiseBit.hpp) *)

Module SerialiseBit.

Definition bits_per_byte : Z := 8.
Definition bits_per_uint16_t : Z := 16.
Definition bits_per_uint32_t : Z := 32.
Definition bits_per_uint64_t : Z := 64.

(** [std::countl_zero] on a 64-bit unsigned value. *)
Definition countl_zero64 (x : Z) : Z :=
  if x <=? 0 then 64 else 63 - Z.log2 x.

Definition BitsRequired (min max : Z) : Z :=
  if max <=? min then 0
  else bits_per_uint64_t - countl_zero64 (max - min).

Example BitsRequired_0_0 : BitsRequired 0 0 = 0. Proof. reflexivity. Qed.
Example BitsRequired_0_255 : BitsRequired 0 255 = 8. Proof. reflexivity. Qed.
Example BitsRequired_0_256 : BitsRequired 0 256 = 9. Proof. reflexivity. Qed.
Example BitsRequired_100_50 : BitsRequired 100 50 = 0. Proof. reflexivity. Qed.
Example BitsRequired_5_12 : BitsRequired 5 12 = 3. Proof. reflexivity. Qed.

(** [GetRelativeSequenceEncodingBits]: [a] and [b] are 32-bit unsigned. *)
Definition GetRelativeSequenceEncodingBits (first_sequence second_sequence : Z) : Z :=
  let wrap_around := wrap32 (65535 + 1) in
  let a := first_sequence in
  let b := wrap32 (second_sequence +
                   (if second_sequence <=? first_sequence then wrap_around else 0)) in
  let difference := wrap32 (b - a) in
  if difference =? 1 then 1
  else if difference <? 6 then 2 + BitsRequired 2 5
  else if difference <? 22 then 3 + BitsRequired 6 21
  else if difference <? 278 then 4 + BitsRequired 22 277
  else if difference <? 4374 then 5 + BitsRequired 278 4373
  else if difference <? 69910 then 6 + BitsRequired 4374 69909
  else bits_per_uint32_t.

(** The rows of the table that the code does produce. *)
Lemma GetRelativeSequenceEncodingBits_table :
  GetRelativeSequenceEncodingBits 100 101 = 1 /\
  GetRelativeSequenceEncodingBits 100 102 = 2 + BitsRequired 2 5 /\
  GetRelativeSequenceEncodingBits 100 105 = 2 + BitsRequired 2 5 /\
  GetRelativeSequenceEncodingBits 65530 5 = 3 + BitsRequired 6 21 /\
  wrap16 (5 - 65530) = 11 /\
  GetRelativeSequenceEncodingBits 65000 1000 = 5 + BitsRequired 278 4373 /\
  wrap16 (1000 - 65000) = 1536.
Proof. repeat split. Qed.

(** C7: for equal sequences the code adds the wrap-around to the second
    operand, so the difference is 65536 and not 0; that is below 69910, and
    the function answers with the six-flag row, 22 bits, where the claim (and
    the unit test "No difference (equal sequences)") expects the 32-bit
    fallback.  The same happens for (0, 65535) of the fallback test. *)
Theorem GetRelativeSequenceEncodingBits_equal_sequences :
  GetRelativeSequenceEncodingBits 1000 1000 = 6 + BitsRequired 4374 69909 /\
  GetRelativeSequenceEncodingBits 1000 1000 = 22 /\
  GetRelativeSequenceEncodingBits 1000 1000 <> bits_per_uint32_t /\
  GetRelativeSequenceEncodingBits 0 65535 = 22.
Proof. repeat split. intro H. discriminate H. Qed.

(** *** Further facts *)

(** For a range that is not empty [BitsRequired] is the position of the
    highest set bit of [max - min], counted from 1. *)
Lemma BitsRequired_log2 (min max : Z) :
  min < max -> BitsRequired min max = Z.log2 (max - min) + 1.
Proof.
  intros Hlt. unfold BitsRequired, countl_zero64, bits_per_uint64_t.
  destruct (Z.leb_spec max min); [lia|].
  destruct (Z.leb_spec (max - min) 0); lia.
Qed.

(** [BitsRequired(min, max)] is the width of [max - min]: the least number
    of bits that holds every offset of the range [[min, max]]. *)
Theorem BitsRequired_width (min max : Z) :
  0 <= min < max -> max < 2 ^ 64 ->
  1 <= BitsRequired min max <= 64 /\
  2 ^ (BitsRequired min max - 1) <= max - min < 2 ^ BitsRequired min max.
Proof.
  intros Hmin Hmax. rewrite BitsRequired_log2 by lia.
  pose proof (Z.log2_spec (max - min) ltac:(lia)) as Hspec.
  pose proof (Z.log2_nonneg (max - min)) as Hnonneg.
  assert (Hlt : Z.log2 (max - min) < 64) by (apply Z.log2_lt_pow2; lia).
  replace (Z.log2 (max - min) + 1 - 1) with (Z.log2 (max - min)) by lia.
  replace (Z.log2 (max - min) + 1) with (Z.succ (Z.log2 (max - min))) by lia.
  lia.
Qed.

Lemma BitsRequired_width_witness :
  1 <= BitsRequired 6 21 <= 64 /\
  2 ^ (BitsRequired 6 21 - 1) <= 21 - 6 < 2 ^ BitsRequired 6 21.
Proof. apply (BitsRequired_width 6 21); lia. Defined.

(** The 32-bit fallback of [GetRelativeSequenceEncodingBits] is never
    taken: for two 16-bit sequence numbers the difference the function
    computes lies in [[1, 65536]], below the bound 69910 of the last row, so
    the result is one of the six row widths, 22 bits at most. *)
Theorem GetRelativeSequenceEncodingBits_at_most_22 (first_sequence second_sequence : Z) :
  0 <= first_sequence < 65536 -> 0 <= second_sequence < 65536 ->
  In (GetRelativeSequenceEncodingBits first_sequence second_sequence) [1; 4; 7; 12; 17; 22] /\
  GetRelativeSequenceEncodingBits first_sequence second_sequence <> bits_per_uint32_t.
Proof.
  intros Ha Hb.
  assert (Hin : In (GetRelativeSequenceEncodingBits first_sequence second_sequence)
                   [1; 4; 7; 12; 17; 22]).
  { unfold GetRelativeSequenceEncodingBits.
    change (wrap32 (65535 + 1)) with 65536.
    change (2 + BitsRequired 2 5) with 4.
    change (3 + BitsRequired 6 21) with 7.
    change (4 + BitsRequired 22 277) with 12.
    change (5 + BitsRequired 278 4373) with 17.
    change (6 + BitsRequired 4374 69909) with 22.
    cbv zeta.
    assert (Hd : 1 <= wrap32 (wrap32 (second_sequence +
                     (if second_sequence <=? first_sequence then 65536 else 0))
                   - first_sequence) <= 65536).
    { destruct (Z.leb_spec second_sequence first_sequence);
        rewrite (wrap32_small (second_sequence + _)) by lia;
        rewrite wrap32_small by lia; lia. }
    revert Hd. generalize (wrap32 (wrap32 (second_sequence +
                     (if second_sequence <=? first_sequence then 65536 else 0))
                   - first_sequence)). intros d Hd.
    destruct (Z.eqb_spec d 1); [now left|].
    destruct (Z.ltb_spec d 6); [right; now left|].
    destruct (Z.ltb_spec d 22); [do 2 right; now left|].
    destruct (Z.ltb_spec d 278); [do 3 right; now left|].
    destruct (Z.ltb_spec d 4374); [do 4 right; now left|].
    destruct (Z.ltb_spec d 69910); [do 5 right; now left|].
    lia. }
  split; [exact Hin|].
  unfold bits_per_uint32_t. cbn [In] in Hin. lia.
Qed.

Lemma GetRelativeSequenceEncodingBits_at_most_22_witness :
  In (GetRelativeSequenceEncodingBits 0 65535) [1; 4; 7; 12; 17; 22] /\
  GetRelativeSequenceEncodingBits 0 65535 <> bits_per_uint32_t.
Proof. apply (GetRelativeSequenceEncodingBits_at_most_22 0 65535); lia. Defined.

(** *** Zig-zag encoding of 32-bit integers *)

(** [ZigZagEncodeSignedToUnsigned<std::int32_t>(n)]:
    [(static_cast<U>(n) << 1) ^ static_cast<U>(n >> 31)], with the shift of
    the signed value arithmetic and the operations on [U] modulo 2^32. *)
Definition ZigZagEncodeSignedToUnsigned (n : Z) : Z :=
  Z.lxor (wrap32 (Z.shiftl (wrap32 n) 1)) (wrap32 (Z.shiftr n 31)).

(** [ZigZagDecodeUnsignedToSigned<std::uint32_t>(n)]:
    [static_cast<SignedT>(n >> 1U) ^ -static_cast<SignedT>(n & 1U)]. *)
Definition ZigZagDecodeUnsignedToSigned (n : Z) : Z :=
  Z.lxor (to_int32 (Z.shiftr n 1)) (- to_int32 (Z.land n 1)).

Example ZigZag_table :
  map ZigZagEncodeSignedToUnsigned [0; -1; 1; -2; 2; 2147483647; -2147483648]
  = [0; 1; 2; 3; 4; 4294967294; 4294967295].
Proof. vm_compute. reflexivity. Qed.

(** The complement of a 32-bit value, as [xor] with the mask of 32 ones. *)
Lemma lxor_ones32 x : 0 <= x < 4294967296 -> Z.lxor x 4294967295 = 4294967295 - x.
Proof.
  intros Hx.
  assert (Hland : Z.land (Z.lxor x 4294967295) x = 0).
  { apply Z.bits_inj'. intros i Hi.
    rewrite Z.land_spec, Z.lxor_spec, Z.bits_0.
    destruct (Z.ltb_spec i 32).
    - change 4294967295 with (Z.ones 32). rewrite Z.ones_spec_low by lia.
      now destruct (Z.testbit x i).
    - assert (Hbit : Z.testbit x i = false).
      { destruct (Z.eq_dec x 0) as [->|Hne]; [apply Z.bits_0|].
        apply Z.bits_above_log2; [lia|].
        assert (Z.log2 x < 32) by (apply Z.log2_lt_pow2; lia). lia. }
      rewrite Hbit. apply andb_false_r. }
  apply Z.add_nocarry_lxor in Hland.
  rewrite (Z.lxor_comm x 4294967295) in Hland at 2.
  rewrite Z.lxor_assoc, Z.lxor_nilpotent, Z.lxor_0_r in Hland.
  lia.
Qed.

(** The encoded value: non-negative numbers go to the even numbers and
    negative ones to the odd numbers, small magnitudes first. *)
Lemma ZigZagEncodeSignedToUnsigned_value n :
  -2147483648 <= n < 2147483648 ->
  ZigZagEncodeSignedToUnsigned n = if n <? 0 then - 2 * n - 1 else 2 * n.
Proof.
  intros Hn. unfold ZigZagEncodeSignedToUnsigned.
  rewrite Z.shiftl_mul_pow2, Z.shiftr_div_pow2 by lia.
  change (2 ^ 1) with 2. change (2 ^ 31) with 2147483648.
  destruct (Z.ltb_spec n 0).
  - assert (Hw : wrap32 n = n + 4294967296).
    { unfold wrap32. symmetry. apply (Z.mod_unique_pos _ _ (-1)); lia. }
    rewrite Hw.
    assert (Hs : wrap32 ((n + 4294967296) * 2) = 2 * n + 4294967296).
    { unfold wrap32. symmetry. apply (Z.mod_unique_pos _ _ 1); lia. }
    rewrite Hs.
    assert (Hq : n / 2147483648 = -1).
    { symmetry. apply (Z.div_unique_pos _ _ _ (n + 2147483648)); lia. }
    rewrite Hq. change (wrap32 (-1)) with 4294967295.
    rewrite lxor_ones32 by lia. lia.
  - rewrite (wrap32_small n) by lia.
    rewrite (wrap32_small (n * 2)) by lia.
    rewrite Z.div_small by lia. change (wrap32 0) with 0.
    rewrite Z.lxor_0_r. lia.
Qed.

(** Decoding undoes encoding, for every 32-bit signed integer. *)
Theorem ZigZag_roundtrip n :
  -2147483648 <= n < 2147483648 ->
  0 <= ZigZagEncodeSignedToUnsigned n < 4294967296 /\
  ZigZagDecodeUnsignedToSigned (ZigZagEncodeSignedToUnsigned n) = n.
Proof.
  intros Hn. rewrite ZigZagEncodeSignedToUnsigned_value by exact Hn.
  unfold ZigZagDecodeUnsignedToSigned.
  assert (Hodd : forall u, Z.land u 1 = u mod 2).
  { intros u. change 1 with (Z.ones 1). now rewrite Z.land_ones by lia. }
  rewrite Hodd.
  rewrite Z.shiftr_div_pow2 by lia. change (2 ^ 1) with 2.
  assert (Hint : forall m, 0 <= m < 2147483648 -> to_int32 m = m).
  { intros m Hm. unfold to_int32. rewrite wrap32_small by lia.
    destruct (Z.ltb_spec m 2147483648); lia. }
  destruct (Z.ltb_spec n 0).
  - split; [lia|].
    assert (Hq : (- 2 * n - 1) / 2 = - n - 1).
    { symmetry. apply (Z.div_unique_pos _ _ _ 1); lia. }
    assert (Hr : (- 2 * n - 1) mod 2 = 1).
    { symmetry. apply (Z.mod_unique_pos _ _ (- n - 1)); lia. }
    rewrite Hq, Hr, !Hint by lia.
    rewrite Z.lxor_m1_r. unfold Z.lnot. lia.
  - split; [lia|].
    assert (Hq : 2 * n / 2 = n) by (rewrite Z.mul_comm; apply Z.div_mul; lia).
    assert (Hr : (2 * n) mod 2 = 0) by (rewrite Z.mul_comm; apply Z.mod_mul; lia).
    rewrite Hq, Hr, !Hint by lia.
    apply Z.lxor_0_r.
Qed.

Lemma ZigZag_roundtrip_witness :
  0 <= ZigZagEncodeSignedToUnsigned (-2147483648) < 4294967296 /\
  ZigZagDecodeUnsignedToSigned (ZigZagEncodeSignedToUnsigned (-2147483648)) = -2147483648.
Proof. apply (ZigZag_roundtrip (-2147483648)). lia. Defined.

End SerialiseBit.

(** ** Integers in byte buffers (Serialise.hpp) *)

Module Serialise.
Import SerialiseBit.

(** A position in a buffer: the buffer and the offset of [*p] in it. *)
Definition position : Type := list Z * Z.

(** [WriteInteger<T>(p, value)] for an unsigned [T] of [size] bytes.  On a
    little-endian host the bytes of the value are copied as they are, on a
    big-endian host the value is byte-swapped first: in both cases the
    buffer gets the bytes of the value least significant first. *)
Fixpoint write_bytes_le (size : nat) (buffer : list Z) (offset value : Z) : list Z :=
  match size with
  | O => buffer
  | S size' =>
      write_bytes_le size' (<[Z.to_nat offset := value mod 256]> buffer)
        (offset + 1) (value / 256)
  end.

Definition WriteInteger (size : nat) (p : position) (value : Z) : position :=
  (write_bytes_le size (fst p) (snd p) value, snd p + Z.of_nat size).

(** [ReadInteger<T>(p)]: the value and the advanced position. *)
Fixpoint read_bytes_le (size : nat) (buffer : list Z) (offset : Z) : Z :=
  match size with
  | O => 0
  | S size' => buffer !!! Z.to_nat offset + 256 * read_bytes_le size' buffer (offset + 1)
  end.

Definition ReadInteger (size : nat) (p : position) : Z * position :=
  (read_bytes_le size (fst p) (snd p), (fst p, snd p + Z.of_nat size)).

(** [SequenceNumberBytesRequired] *)
Definition SequenceNumberBytesRequired (sequence : Z) : Z :=
  if sequence =? 0 then 1
  else (bits_per_uint64_t - countl_zero64 sequence + 7) / bits_per_byte.

Example WriteInteger_uint16 :
  WriteInteger 2 ([0; 0; 0; 0], 1) 1000 = ([0; 232; 3; 0], 3).
Proof. reflexivity. Qed.

Example SequenceNumberBytesRequired_table :
  map SequenceNumberBytesRequired [0; 1; 255; 256; 65535; 65536; 18446744073709551615]
  = [1; 1; 1; 2; 2; 3; 8].
Proof. vm_compute. reflexivity. Qed.

Lemma length_write_bytes_le size : forall buffer offset value,
  length (write_bytes_le size buffer offset value) = length buffer.
Proof.
  induction size as [|size IH]; intros buffer offset value; cbn [write_bytes_le].
  - reflexivity.
  - now rewrite IH, length_insert.
Qed.

Lemma write_bytes_le_other size : forall buffer offset value k,
  0 <= offset -> ~ (offset <= k < offset + Z.of_nat size) -> 0 <= k ->
  write_bytes_le size buffer offset value !!! Z.to_nat k = buffer !!! Z.to_nat k.
Proof.
  induction size as [|size IH]; intros buffer offset value k Hoff Hk Hk0;
    cbn [write_bytes_le]; [reflexivity|].
  rewrite IH by lia. apply list_lookup_total_insert_ne. lia.
Qed.

Lemma read_write_bytes_le size : forall buffer offset value,
  0 <= offset -> offset + Z.of_nat size <= Z.of_nat (length buffer) ->
  0 <= value < 256 ^ Z.of_nat size ->
  read_bytes_le size (write_bytes_le size buffer offset value) offset = value.
Proof.
  induction size as [|size IH]; intros buffer offset value Hoff Hlen Hvalue.
  - cbn in *. lia.
  - cbn [read_bytes_le write_bytes_le].
    rewrite Nat2Z.inj_succ, Z.pow_succ_r in Hvalue by lia.
    rewrite write_bytes_le_other by lia.
    rewrite list_lookup_total_insert_eq by lia.
    rewrite IH.
    + pose proof (Z.div_mod value 256). lia.
    + lia.
    + rewrite length_insert. lia.
    + split; [apply Z.div_pos; lia | apply Z.div_lt_upper_bound; lia].
Qed.

(** [ReadInteger] returns what [WriteInteger] wrote, for every unsigned
    type of [size] bytes and every value of the type; both advance the
    position by [size], and [WriteInteger] writes these [size] bytes only. *)
Theorem WriteInteger_ReadInteger (size : nat) (buffer : list Z) (offset value : Z) :
  0 <= offset -> offset + Z.of_nat size <= Z.of_nat (length buffer) ->
  0 <= value < 256 ^ Z.of_nat size ->
  let written := WriteInteger size (buffer, offset) value in
  ReadInteger size (fst written, offset) = (value, written) /\
  length (fst written) = length buffer /\
  forall k, 0 <= k -> ~ (offset <= k < offset + Z.of_nat size) ->
    fst written !!! Z.to_nat k = buffer !!! Z.to_nat k.
Proof.
  intros Hoff Hlen Hvalue. cbv zeta. unfold WriteInteger, ReadInteger. cbn [fst snd].
  split; [|split].
  - now rewrite read_write_bytes_le.
  - apply length_write_bytes_le.
  - intros k Hk Hout. now apply write_bytes_le_other.
Qed.

Lemma WriteInteger_ReadInteger_witness :
  ReadInteger 4 (fst (WriteInteger 4 (replicate 8 255, 2) 3735928559), 2)
  = (3735928559, WriteInteger 4 (replicate 8 255, 2) 3735928559).
Proof.
  refine (proj1 (WriteInteger_ReadInteger 4 (replicate 8 255) 2 3735928559 _ _ _)).
  - lia.
  - vm_compute. discriminate.
  - vm_compute. split; [discriminate | reflexivity].
Defined.

(** [SequenceNumberBytesRequired] is the length of the shortest
    little-endian encoding: between 1 and 8 bytes, enough for the value,
    and one byte fewer would not do. *)
Theorem SequenceNumberBytesRequired_least (sequence : Z) :
  0 <= sequence < 2 ^ 64 ->
  1 <= SequenceNumberBytesRequired sequence <= 8 /\
  sequence < 256 ^ SequenceNumberBytesRequired sequence /\
  (1 < SequenceNumberBytesRequired sequence ->
   256 ^ (SequenceNumberBytesRequired sequence - 1) <= sequence).
Proof.
  intros Hs. unfold SequenceNumberBytesRequired, countl_zero64, bits_per_uint64_t,
    bits_per_byte.
  destruct (Z.eqb_spec sequence 0) as [->|Hne].
  { split; [lia|]. split; [reflexivity | lia]. }
  destruct (Z.leb_spec sequence 0); [lia|].
  pose proof (Z.log2_spec sequence ltac:(lia)) as Hspec.
  pose proof (Z.log2_nonneg sequence) as Hnonneg.
  assert (Hlog : Z.log2 sequence < 64) by (apply Z.log2_lt_pow2; lia).
  set (L := Z.log2 sequence) in *.
  replace (64 - (63 - L) + 7) with (L + 1 * 8) by lia.
  rewrite Z.div_add by lia.
  assert (Hq : 0 <= L / 8 <= 7) by (Z.div_mod_to_equations; lia).
  assert (Hpow : forall k, 0 <= k -> 256 ^ k = 2 ^ (8 * k)).
  { intros k Hk. change 256 with (2 ^ 8). now rewrite <- Z.pow_mul_r by lia. }
  split; [lia|]. split.
  - rewrite Hpow by lia.
    assert (2 ^ Z.succ L <= 2 ^ (8 * (L / 8 + 1))).
    { apply Z.pow_le_mono_r; [lia|]. Z.div_mod_to_equations. lia. }
    lia.
  - intros _. replace (L / 8 + 1 - 1) with (L / 8) by lia.
    rewrite Hpow by lia.
    assert (2 ^ (8 * (L / 8)) <= 2 ^ L).
    { apply Z.pow_le_mono_r; [lia|]. Z.div_mod_to_equations. lia. }
    lia.
Qed.

Lemma SequenceNumberBytesRequired_least_witness :
  1 <= SequenceNumberBytesRequired 65536 <= 8 /\
  65536 < 256 ^ SequenceNumberBytesRequired 65536 /\
  (1 < SequenceNumberBytesRequired 65536 ->
   256 ^ (SequenceNumberBytesRequired 65536 - 1) <= 65536).
Proof. apply (SequenceNumberBytesRequired_least 65536). lia. Defined.

(** *** [CopyString]

    A C string is the list of its characters with the terminating 0; the
    loop ends at the end of the list, where C++ would read past the
    array.  Both overloads run the same loop. *)
Fixpoint CopyString_loop (source : list Z) (limit i : Z) (dest : list Z) : list Z * Z :=
  match source with
  | [] => (dest, i)
  | ch :: rest =>
      if (i <? limit) && negb (ch =? 0) then
        CopyString_loop rest limit (i + 1) (<[Z.to_nat i := ch]> dest)
      else (dest, i)
  end.

Definition CopyString (dest source : list Z) (dest_size : Z) : list Z :=
  let '(dest, i) := CopyString_loop source (wrap64 (dest_size - 1)) 0 dest in
  <[Z.to_nat i := 0]> dest.

(** [strlen]: the number of characters before the first 0. *)
Fixpoint strlen (s : list Z) : Z :=
  match s with
  | [] => 0
  | ch :: rest => if ch =? 0 then 0 else 1 + strlen rest
  end.

Example CopyString_truncates :
  CopyString [9; 9; 9; 9; 9; 9] [104; 101; 108; 108; 111; 0] 4 = [104; 101; 108; 0; 9; 9] /\
  CopyString [9; 9; 9; 9; 9; 9] [104; 105; 0] 6 = [104; 105; 0; 9; 9; 9].
Proof. split; reflexivity. Qed.

Lemma strlen_nonneg s : 0 <= strlen s.
Proof. induction s as [|ch rest IH]; cbn [strlen]; [lia|]. destruct (ch =? 0); lia. Qed.

Lemma CopyString_loop_spec limit : forall source i dest,
  0 <= i <= limit -> limit < Z.of_nat (length dest) -> In 0 source ->
  let '(d, j) := CopyString_loop source limit i dest in
  j = Z.min (i + strlen source) limit /\
  length d = length dest /\
  (forall k, i <= k < j -> d !!! Z.to_nat k = source !!! Z.to_nat (k - i)) /\
  (forall k, 0 <= k -> k < i \/ j <= k -> d !!! Z.to_nat k = dest !!! Z.to_nat k).
Proof.
  induction source as [|ch rest IH]; intros i dest Hi Hroom Hzero; [destruct Hzero|].
  cbn [CopyString_loop strlen].
  pose proof (strlen_nonneg rest) as Hlen.
  destruct (Z.ltb_spec i limit) as [Hlt|Hge]; cbn [andb].
  - destruct (Z.eqb_spec ch 0) as [->|Hch]; cbn [negb].
    + split; [lia|]. split; [reflexivity|]. split; [intros k Hk; lia|]. reflexivity.
    + assert (Hrest : In 0 rest) by (destruct Hzero as [H|H]; [congruence | exact H]).
      specialize (IH (i + 1) (<[Z.to_nat i := ch]> dest) ltac:(lia)
                    ltac:(rewrite length_insert; lia) Hrest).
      destruct (CopyString_loop rest limit (i + 1) (<[Z.to_nat i := ch]> dest)) as [d j].
      destruct IH as (Hj & Hd & Hcopied & Hother).
      rewrite length_insert in Hd.
      split; [lia|]. split; [exact Hd|]. split.
      * intros k Hk. destruct (Z.eq_dec k i) as [->|Hne].
        -- rewrite Hother by lia.
           replace (i - i) with 0 by lia. cbn [Z.to_nat].
           apply list_lookup_total_insert_eq. lia.
        -- rewrite Hcopied by lia.
           replace (Z.to_nat (k - i)) with (S (Z.to_nat (k - (i + 1)))) by lia.
           reflexivity.
      * intros k Hk0 Hk. rewrite Hother by lia.
        apply list_lookup_total_insert_ne. lia.
  - destruct (ch =? 0);
      (split; [lia|]; split; [reflexivity|]; split; [intros k Hk; lia|]; reflexivity).
Qed.

(** [CopyString] copies the characters of the source before its
    terminator, at most [dest_size - 1] of them, writes a 0 after them and
    leaves the rest of the destination as it was: the result is a
    terminated string inside the first [dest_size] characters. *)
Theorem CopyString_spec (dest source : list Z) (dest_size : Z) :
  0 < dest_size <= Z.of_nat (length dest) ->
  dest_size <= 18446744073709551616 ->
  In 0 source ->
  let n := Z.min (strlen source) (dest_size - 1) in
  let result := CopyString dest source dest_size in
  length result = length dest /\
  (forall k, 0 <= k < n -> result !!! Z.to_nat k = source !!! Z.to_nat k) /\
  result !!! Z.to_nat n = 0 /\
  (forall k, n < k -> result !!! Z.to_nat k = dest !!! Z.to_nat k).
Proof.
  intros Hsize Hmax Hzero. cbv zeta. unfold CopyString.
  assert (Hlimit : wrap64 (dest_size - 1) = dest_size - 1)
    by (unfold wrap64; apply Z.mod_small; lia).
  rewrite Hlimit.
  pose proof (strlen_nonneg source) as Hlen.
  pose proof (CopyString_loop_spec (dest_size - 1) source 0 dest ltac:(lia) ltac:(lia) Hzero)
    as Hloop.
  destruct (CopyString_loop source (dest_size - 1) 0 dest) as [d j].
  destruct Hloop as (Hj & Hd & Hcopied & Hother).
  rewrite Z.add_0_l in Hj. rewrite <- Hj.
  split; [now rewrite length_insert|]. split; [|split].
  - intros k Hk. rewrite list_lookup_total_insert_ne by lia.
    rewrite Hcopied by lia. now rewrite Z.sub_0_r.
  - apply list_lookup_total_insert_eq. lia.
  - intros k Hk. rewrite list_lookup_total_insert_ne by lia.
    apply Hother; lia.
Qed.

Lemma CopyString_spec_witness :
  let dest := [9; 9; 9; 9; 9; 9] in
  let source := [104; 101; 108; 108; 111; 0] in
  let result := CopyString dest source 4 in
  length result = length dest /\
  (forall k, 0 <= k < 3 -> result !!! Z.to_nat k = source !!! Z.to_nat k) /\
  result !!! Z.to_nat 3 = 0 /\
  (forall k, 3 < k -> result !!! Z.to_nat k = dest !!! Z.to_nat k).
Proof.
  apply (CopyString_spec [9; 9; 9; 9; 9; 9] [104; 101; 108; 108; 111; 0] 4).
  - cbn. lia.
  - lia.
  - cbn. tauto.
Defined.

End Serialise.

(** ** Bit writer and bit reader (BitWriter.cpp, BitReader.cpp) *)

Module Bits.
Import SerialiseBit.

(** The buffer is kept as its bytes.  [HostToNetwork] makes the stored word
    little-endian on every host, so word [i] is bytes [4i .. 4i+3], least
    significant first, and the bulk copies of [WriteBytes] and [ReadBytes]
    are plain byte copies.  An access outside the buffer is undefined in
    C++; here a store outside does nothing and a load outside reads a fixed
    default value. *)
Definition store_word (mem : list Z) (i w : Z) : list Z :=
  <[Z.to_nat (4 * i + 3) := (w / 16777216) mod 256]>
    (<[Z.to_nat (4 * i + 2) := (w / 65536) mod 256]>
      (<[Z.to_nat (4 * i + 1) := (w / 256) mod 256]>
        (<[Z.to_nat (4 * i) := w mod 256]> mem))).

Definition load_word (mem : list Z) (i : Z) : Z :=
  mem !!! Z.to_nat (4 * i)
  + 256 * (mem !!! Z.to_nat (4 * i + 1))
  + 65536 * (mem !!! Z.to_nat (4 * i + 2))
  + 16777216 * (mem !!! Z.to_nat (4 * i + 3)).

(** [std::copy_n(src + src_off, n, dst + dst_off)] *)
Definition copy_n (src : list Z) (src_off n : Z) (dst : list Z) (dst_off : Z) : list Z :=
  fold_left
    (fun m k => <[Z.to_nat (dst_off + k) := src !!! Z.to_nat (src_off + k)]> m)
    (seqZ 0 n) dst.

Record BitWriter := mkBitWriter {
  w_number_of_32_bit_ints : Z;
  w_bits_written : Z;
  w_32_bit_int_index : Z;
  w_scratch_bits : Z;
  w_scratch : Z;
  w_data : list Z
}.

(** [BitWriter::BitWriter(data, bytes)] *)
Definition newBitWriter (data : list Z) (bytes : Z) : BitWriter :=
  mkBitWriter (bytes / 4) 0 0 0 0 data.

(** [BitWriter::WriteBits].  The debug assertions ([1 <= bits <= 32], the
    value fits, room left) are not part of a release build. *)
Definition WriteBits (value bits : Z) (w : BitWriter) : BitWriter :=
  let scratch := wrap64 (Z.lor (w_scratch w) (Z.shiftl value (w_scratch_bits w))) in
  let scratch_bits := w_scratch_bits w + bits in
  if bits_per_uint32_t <=? scratch_bits then
    mkBitWriter (w_number_of_32_bit_ints w)
      (wrap32 (w_bits_written w + bits))
      (w_32_bit_int_index w + 1)
      (scratch_bits - bits_per_uint32_t)
      (Z.shiftr scratch bits_per_uint32_t)
      (store_word (w_data w) (w_32_bit_int_index w) (Z.land scratch U32_MAX))
  else
    mkBitWriter (w_number_of_32_bit_ints w)
      (wrap32 (w_bits_written w + bits))
      (w_32_bit_int_index w)
      scratch_bits
      scratch
      (w_data w).

Definition WriteZeroPaddingToAlignByteBoundary (w : BitWriter) : BitWriter :=
  let remainder_bits := w_bits_written w mod bits_per_byte in
  if remainder_bits =? 0 then w else WriteBits 0 (bits_per_byte - remainder_bits) w.

(** The byte-at-a-time loops of [WriteBytes]:
    [for i < count: WriteBits(data[start + i], 8)]. *)
Definition write_byte_run (data : list Z) (start count : Z) (w : BitWriter) : BitWriter :=
  fold_left (fun w i => WriteBits (data !!! Z.to_nat i) bits_per_byte w)
            (seqZ start count) w.

Definition WriteBytes (data : list Z) (bytes : Z) (w : BitWriter) : BitWriter :=
  let head_bytes0 :=
    (4 - (w_bits_written w mod bits_per_uint32_t) / bits_per_byte) mod 4 in
  let head_bytes := if bytes <? head_bytes0 then bytes else head_bytes0 in
  let w1 := write_byte_run data 0 head_bytes w in
  if head_bytes =? bytes then w1
  else
    let number_of_32_bit_integers := (bytes - head_bytes) / 4 in
    let w2 :=
      if 0 <? number_of_32_bit_integers then
        mkBitWriter (w_number_of_32_bit_ints w1)
          (wrap32 (w_bits_written w1 + number_of_32_bit_integers * bits_per_uint32_t))
          (w_32_bit_int_index w1 + number_of_32_bit_integers)
          (w_scratch_bits w1)
          (w_scratch w1)
          (copy_n data head_bytes (number_of_32_bit_integers * 4)
                  (w_data w1) (4 * w_32_bit_int_index w1))
      else w1 in
    let tail_start := head_bytes + number_of_32_bit_integers * 4 in
    let tail_bytes := bytes - tail_start in
    write_byte_run data tail_start tail_bytes w2.

Definition FlushBits (w : BitWriter) : BitWriter :=
  if w_scratch_bits w =? 0 then w
  else
    mkBitWriter (w_number_of_32_bit_ints w)
      (w_bits_written w)
      (w_32_bit_int_index w + 1)
      0
      (Z.shiftr (w_scratch w) bits_per_uint32_t)
      (store_word (w_data w) (w_32_bit_int_index w) (Z.land (w_scratch w) U32_MAX)).

Definition WriterGetAlignBits (w : BitWriter) : Z :=
  (bits_per_byte - w_bits_written w mod bits_per_byte) mod bits_per_byte.

Definition GetBitsWritten (w : BitWriter) : Z := w_bits_written w.

Definition GetBytesWritten (w : BitWriter) : Z :=
  (w_bits_written w + (bits_per_byte - 1)) / bits_per_byte.

Record BitReader := mkBitReader {
  r_number_of_bytes : Z;
  r_bits_read : Z;
  r_scratch_bits : Z;
  r_32_bit_int_index : Z;
  r_scratch : Z;
  r_bitpacked_data : list Z
}.

(** [BitReader::BitReader(data, bytes)] *)
Definition newBitReader (data : list Z) (bytes : Z) : BitReader :=
  mkBitReader bytes 0 0 0 0 data.

Definition WouldReadPastEnd (bits : Z) (r : BitReader) : bool :=
  r_number_of_bytes r * bits_per_byte <? r_bits_read r + bits.

Definition ReadBits (bits : Z) (r : BitReader) : Z * BitReader :=
  let bits_read := wrap32 (r_bits_read r + bits) in
  let refill := r_scratch_bits r <? bits in
  let scratch :=
    if refill
    then wrap64 (Z.lor (r_scratch r)
                   (Z.shiftl (load_word (r_bitpacked_data r) (r_32_bit_int_index r))
                             (r_scratch_bits r)))
    else r_scratch r in
  let scratch_bits :=
    if refill then r_scratch_bits r + bits_per_uint32_t else r_scratch_bits r in
  let index :=
    if refill then r_32_bit_int_index r + 1 else r_32_bit_int_index r in
  let output := wrap32 (Z.land scratch (Z.shiftl 1 bits - 1)) in
  (output,
   mkBitReader (r_number_of_bytes r) bits_read (scratch_bits - bits) index
     (Z.shiftr scratch bits) (r_bitpacked_data r)).

Definition SkipToByteBoundaryAndVerifyZeroPadding (r : BitReader) : bool * BitReader :=
  let remainder_bits := r_bits_read r mod bits_per_byte in
  if remainder_bits =? 0 then (true, r)
  else
    let '(value, r') := ReadBits (bits_per_byte - remainder_bits) r in
    (value =? 0, r').

(** The byte-at-a-time loops of [ReadBytes]:
    [for i < count: data[start + i] = (uint8_t) ReadBits(8)]. *)
Definition read_byte_run (start count : Z) (st : list Z * BitReader) : list Z * BitReader :=
  fold_left
    (fun (st : list Z * BitReader) i =>
       let '(value, r') := ReadBits bits_per_byte (snd st) in
       (<[Z.to_nat i := wrap8 value]> (fst st), r'))
    (seqZ start count) st.

(** [BitReader::ReadBytes(data, bytes)]; [data] is the destination.  The bulk
    copy takes its source at word [number_of_32_bit_integers], as written in
    the source, not at word [m_32_bit_int_index]. *)
Definition ReadBytes (data : list Z) (bytes : Z) (r : BitReader) : list Z * BitReader :=
  let head_bytes0 :=
    (4 - (r_bits_read r mod bits_per_uint32_t) / bits_per_byte) mod 4 in
  let head_bytes := if bytes <? head_bytes0 then bytes else head_bytes0 in
  let '(data1, r1) := read_byte_run 0 head_bytes (data, r) in
  if head_bytes =? bytes then (data1, r1)
  else
    let number_of_32_bit_integers := (bytes - head_bytes) / 4 in
    let '(data2, r2) :=
      if 0 <? number_of_32_bit_integers then
        (copy_n (r_bitpacked_data r1) (4 * number_of_32_bit_integers)
                (number_of_32_bit_integers * 4) data1 head_bytes,
         mkBitReader (r_number_of_bytes r1)
           (wrap32 (r_bits_read r1 + number_of_32_bit_integers * bits_per_uint32_t))
           (r_scratch_bits r1)
           (r_32_bit_int_index r1 + number_of_32_bit_integers)
           (r_scratch r1)
           (r_bitpacked_data r1))
      else (data1, r1) in
    let tail_start := head_bytes + number_of_32_bit_integers * 4 in
    let tail_bytes := bytes - tail_start in
    read_byte_run tail_start tail_bytes (data2, r2).

Definition ReaderGetAlignBits (r : BitReader) : Z :=
  (bits_per_byte - r_bits_read r mod bits_per_byte) mod bits_per_byte.

(** The round trip of the unit test "BitWriter and BitReader roundtrip
    bytes": a zeroed buffer, align, [WriteBytes], flush; then a reader over
    the same buffer, the alignment skip, [ReadBytes]. *)
Definition bytes_roundtrip (buffer_size_bytes : Z) (input_bytes : list Z) : bool * list Z :=
  let n := Z.of_nat (length input_bytes) in
  let buffer := replicate (Z.to_nat buffer_size_bytes) 0 in
  let writer := newBitWriter buffer buffer_size_bytes in
  let writer := WriteZeroPaddingToAlignByteBoundary writer in
  let writer := WriteBytes input_bytes n writer in
  let writer := FlushBits writer in
  let reader := newBitReader (w_data writer) buffer_size_bytes in
  let '(aligned, reader) := SkipToByteBoundaryAndVerifyZeroPadding reader in
  (aligned, fst (ReadBytes (replicate (Z.to_nat n) 0) n reader)).

(** The bit round trip of the first unit test goes through. *)
Example bits_roundtrip_test :
  let w := newBitWriter (replicate 16 0) 16 in
  let w := WriteBits 11 4 w in
  let w := WriteBits 255 8 w in
  let w := WriteZeroPaddingToAlignByteBoundary w in
  let w := WriteBits 10 4 w in
  let w := WriteBits 1 1 w in
  let w := FlushBits w in
  let r := newBitReader (w_data w) 16 in
  let '(a, r) := ReadBits 4 r in
  let '(b, r) := ReadBits 8 r in
  let '(ok, r) := SkipToByteBoundaryAndVerifyZeroPadding r in
  let '(c, r) := ReadBits 4 r in
  let '(d, r) := ReadBits 1 r in
  (a, b, ok, c, d) = (11, 255, true, 10, 1).
Proof. vm_compute. reflexivity. Qed.

(** Five bytes after two single bits (the stream test): head and tail runs
    only, no bulk copy, and the bytes come back. *)
Example bytes_roundtrip_short :
  bytes_roundtrip 32 [1; 171; 255] = (true, [1; 171; 255]).
Proof. vm_compute. reflexivity. Qed.

(** C3: on the input of the unit test (eleven bytes 0xA0 .. 0xAA written
    at bit 0 of a zeroed 32-byte buffer) the writer stores the first eight
    bytes in words 0 and 1, but the reader's bulk copy starts at word
    [number_of_32_bit_integers = 2]: it returns the three tail bytes and five
    zeros in place of the first eight bytes. *)
Theorem ReadBytes_bulk_copy_wrong_word :
  bytes_roundtrip 32 [160; 161; 162; 163; 164; 165; 166; 167; 168; 169; 170]
  = (true, [168; 169; 170; 0; 0; 0; 0; 0; 168; 169; 170]) /\
  bytes_roundtrip 32 [1; 2; 3; 4] = (true, [0; 0; 0; 0]).
Proof. split; vm_compute; reflexivity. Qed.

(** *** Round trip of [WriteBits] and [ReadBits]

    A run of fields, each a value and its width in bits, written with
    [WriteBits] and flushed, is read back by [ReadBits] with the same
    widths. *)

Definition write_fields (fields : list (Z * Z)) (w : BitWriter) : BitWriter :=
  fold_left (fun w f => WriteBits (fst f) (snd f) w) fields w.

Fixpoint read_fields (widths : list Z) (r : BitReader) : list Z * BitReader :=
  match widths with
  | [] => ([], r)
  | bits :: rest =>
      let '(value, r') := ReadBits bits r in
      let '(values, r'') := read_fields rest r' in
      (value :: values, r'')
  end.

(** The fields as one number, first field lowest, and their total width. *)
Fixpoint pack (fields : list (Z * Z)) : Z :=
  match fields with
  | [] => 0
  | f :: rest => fst f + 2 ^ snd f * pack rest
  end.

Fixpoint total_bits (fields : list (Z * Z)) : Z :=
  match fields with
  | [] => 0
  | f :: rest => snd f + total_bits rest
  end.

(** A field the debug assertions of [WriteBits] accept, with the width 0
    that [BitsRequired] gives for an empty range. *)
Definition field_ok (f : Z * Z) : Prop :=
  0 <= snd f <= 32 /\ 0 <= fst f < 2 ^ snd f.

Lemma pow2_pos n : 0 <= n -> 0 < 2 ^ n.
Proof. intros. apply Z.pow_pos_nonneg; lia. Qed.

Lemma pow2_le m n : 0 <= m <= n -> 2 ^ m <= 2 ^ n.
Proof. intros. apply Z.pow_le_mono_r; lia. Qed.

Lemma total_bits_nonneg fields : Forall field_ok fields -> 0 <= total_bits fields.
Proof.
  induction 1 as [|f rest [Hf _] _ IH]; cbn [total_bits]; lia.
Qed.

(** **** Words in memory *)

Lemma length_store_word mem i w : length (store_word mem i w) = length mem.
Proof. unfold store_word. now rewrite !length_insert. Qed.

Lemma bytes_of_word w :
  0 <= w < 4294967296 ->
  w mod 256 + 256 * ((w / 256) mod 256) + 65536 * ((w / 65536) mod 256)
  + 16777216 * ((w / 16777216) mod 256) = w.
Proof. intros Hw. Z.div_mod_to_equations. lia. Qed.

Lemma load_store_eq mem i w :
  0 <= i -> 4 * i + 3 < Z.of_nat (length mem) -> 0 <= w < 4294967296 ->
  load_word (store_word mem i w) i = w.
Proof.
  intros Hi Hlen Hw. unfold load_word, store_word.
  rewrite list_lookup_total_insert_ne by lia.
  rewrite list_lookup_total_insert_ne by lia.
  rewrite list_lookup_total_insert_ne by lia.
  rewrite list_lookup_total_insert_eq by lia.
  rewrite list_lookup_total_insert_ne by lia.
  rewrite list_lookup_total_insert_ne by lia.
  rewrite list_lookup_total_insert_eq by (rewrite length_insert; lia).
  rewrite list_lookup_total_insert_ne by lia.
  rewrite list_lookup_total_insert_eq by (rewrite !length_insert; lia).
  rewrite list_lookup_total_insert_eq by (rewrite !length_insert; lia).
  now apply bytes_of_word.
Qed.

Lemma load_store_ne mem i j w :
  0 <= i -> 0 <= j -> i <> j ->
  load_word (store_word mem i w) j = load_word mem j.
Proof.
  intros Hi Hj Hne. unfold load_word, store_word.
  now rewrite !list_lookup_total_insert_ne by lia.
Qed.

(** **** Arithmetic of bit fields *)

Lemma lor_shifted a b k :
  0 <= k -> 0 <= a < 2 ^ k -> Z.lor a (Z.shiftl b k) = a + b * 2 ^ k.
Proof.
  intros Hk Ha.
  assert (Hland : Z.land a (Z.shiftl b k) = 0).
  { apply Z.bits_inj'. intros i Hi. rewrite Z.land_spec, Z.bits_0.
    destruct (Z.ltb_spec i k).
    - rewrite Z.shiftl_spec_low by lia. apply andb_false_r.
    - rewrite <- (Z.mod_small a (2 ^ k)) by lia.
      now rewrite Z.mod_pow2_bits_high by lia. }
  pose proof (Z.add_lor_land a (Z.shiftl b k)) as Hadd.
  rewrite Hland in Hadd. rewrite <- (Z.shiftl_mul_pow2 b k) by lia. lia.
Qed.

Lemma mask_low x n : 0 <= n -> Z.land x (Z.shiftl 1 n - 1) = x mod 2 ^ n.
Proof.
  intros Hn. rewrite Z.shiftl_1_l.
  replace (2 ^ n - 1) with (Z.ones n) by (rewrite Z.ones_equiv; lia).
  now apply Z.land_ones.
Qed.

Lemma mod_pow2_low a m n : 0 <= n <= m -> (a mod 2 ^ m) mod 2 ^ n = a mod 2 ^ n.
Proof.
  intros H. replace m with (n + (m - n)) by lia.
  rewrite Z.pow_add_r by lia.
  pose proof (pow2_pos n ltac:(lia)). pose proof (pow2_pos (m - n) ltac:(lia)).
  rewrite Z.rem_mul_r by lia.
  rewrite Z.mul_comm, Z.mod_add by lia.
  apply Z.mod_mod. lia.
Qed.

Lemma mod_pow2_high a m n :
  0 <= n <= m -> (a mod 2 ^ m) / 2 ^ n = (a / 2 ^ n) mod 2 ^ (m - n).
Proof.
  intros H. replace m with (n + (m - n)) at 1 by lia.
  rewrite Z.pow_add_r by lia.
  pose proof (pow2_pos n ltac:(lia)). pose proof (pow2_pos (m - n) ltac:(lia)).
  rewrite Z.rem_mul_r by lia.
  rewrite (Z.mul_comm (2 ^ n)), Z.div_add by lia.
  rewrite Z.div_small by (apply Z.mod_pos_bound; lia). lia.
Qed.

Lemma mod_pow2_join q s :
  0 <= s -> q mod 2 ^ s + (q / 2 ^ s) mod 2 ^ 32 * 2 ^ s = q mod 2 ^ (s + 32).
Proof.
  intros Hs. rewrite Z.pow_add_r by lia.
  pose proof (pow2_pos s Hs).
  rewrite Z.rem_mul_r by lia. lia.
Qed.

Lemma div_pow2_add N t n : 0 <= t -> 0 <= n -> N / 2 ^ t / 2 ^ n = N / 2 ^ (t + n).
Proof.
  intros Ht Hn. rewrite Z.pow_add_r by lia.
  apply Z.div_div; [pose proof (pow2_pos t Ht) | pose proof (pow2_pos n Hn)]; lia.
Qed.

(** A multiple of 2^(32 k) does not reach the words below [k]. *)
Lemma low_word_stable N c j k :
  0 <= j < k ->
  ((N + c * 2 ^ (32 * k)) / 2 ^ (32 * j)) mod 2 ^ 32 = (N / 2 ^ (32 * j)) mod 2 ^ 32.
Proof.
  intros Hj.
  replace (32 * k) with (32 * (k - j - 1) + 32 + 32 * j) by lia.
  rewrite !Z.pow_add_r by lia.
  pose proof (pow2_pos (32 * j) ltac:(lia)).
  rewrite !Z.mul_assoc, Z.div_add by lia.
  apply Z.mod_add. lia.
Qed.

(** **** The writer *)

(** What a writer holds after fields of value [N] and total width [t]: the
    whole words are in memory, the rest in the scratch register. *)
Definition writer_holds (w : BitWriter) (N t : Z) : Prop :=
  0 <= w_32_bit_int_index w /\
  0 <= w_scratch_bits w < 32 /\
  t = 32 * w_32_bit_int_index w + w_scratch_bits w /\
  0 <= N < 2 ^ t /\
  w_scratch w = N / 2 ^ (32 * w_32_bit_int_index w) /\
  (forall j, 0 <= j < w_32_bit_int_index w ->
     load_word (w_data w) j = (N / 2 ^ (32 * j)) mod 2 ^ 32).

Lemma WriteBits_holds w N t value bits words :
  writer_holds w N t ->
  field_ok (value, bits) ->
  Z.of_nat (length (w_data w)) = 4 * words ->
  t + bits <= 32 * words ->
  writer_holds (WriteBits value bits w) (N + value * 2 ^ t) (t + bits) /\
  length (w_data (WriteBits value bits w)) = length (w_data w).
Proof.
  intros (Hidx & Hsb & Ht & HN & Hscratch & Hwords) [Hbits Hvalue] Hlen Hroom.
  cbn [fst snd] in Hbits, Hvalue.
  set (idx := w_32_bit_int_index w) in *.
  set (sb := w_scratch_bits w) in *.
  pose proof (pow2_pos (32 * idx) ltac:(lia)) as Hpidx.
  pose proof (pow2_pos sb ltac:(lia)) as Hpsb.
  pose proof (pow2_pos bits ltac:(lia)) as Hpbits.
  pose proof (pow2_pos t ltac:(lia)) as Hpt.
  assert (Htsplit : 2 ^ t = 2 ^ sb * 2 ^ (32 * idx)).
  { rewrite Ht, Z.add_comm. apply Z.pow_add_r; lia. }
  assert (Hsc : 0 <= w_scratch w < 2 ^ sb).
  { rewrite Hscratch. split; [apply Z.div_pos; lia|].
    apply Z.div_lt_upper_bound; lia. }
  assert (HN' : 0 <= N + value * 2 ^ t < 2 ^ (t + bits)).
  { rewrite Z.pow_add_r by lia. nia. }
  assert (Hsum : Z.lor (w_scratch w) (Z.shiftl value sb)
                 = (N + value * 2 ^ t) / 2 ^ (32 * idx)).
  { rewrite lor_shifted by lia.
    rewrite Htsplit, Z.mul_assoc, Z.div_add by lia. now rewrite Hscratch. }
  assert (Hsmall : 0 <= (N + value * 2 ^ t) / 2 ^ (32 * idx) < 2 ^ (sb + bits)).
  { split; [apply Z.div_pos; lia|].
    apply Z.div_lt_upper_bound; [lia|].
    rewrite <- Z.pow_add_r by lia.
    replace (32 * idx + (sb + bits)) with (t + bits) by lia. lia. }
  assert (Hwrap : wrap64 (Z.lor (w_scratch w) (Z.shiftl value sb))
                  = (N + value * 2 ^ t) / 2 ^ (32 * idx)).
  { rewrite Hsum. unfold wrap64. apply Z.mod_small.
    pose proof (pow2_le (sb + bits) 64 ltac:(lia)) as Hle.
    change (2 ^ 64) with 18446744073709551616 in Hle. lia. }
  unfold WriteBits, bits_per_uint32_t. fold sb idx. rewrite Hwrap.
  destruct (Z.leb_spec 32 (sb + bits)) as [Hfull|Hpart];
    cbn [w_data w_32_bit_int_index w_scratch_bits w_scratch];
    (split; [|try apply length_store_word; reflexivity]).
  - (* a word is complete and goes to memory *)
    unfold writer_holds.
    cbn [w_data w_32_bit_int_index w_scratch_bits w_scratch].
    split; [lia|]. split; [lia|]. split; [lia|]. split; [exact HN'|].
    split.
    + rewrite Z.shiftr_div_pow2 by lia.
      rewrite div_pow2_add by lia. f_equal. f_equal. lia.
    + intros j Hj.
      change U32_MAX with (Z.ones 32). rewrite Z.land_ones by lia.
      destruct (Z.eq_dec j idx) as [->|Hne].
      * apply load_store_eq; [lia | lia |].
        change 4294967296 with (2 ^ 32). apply Z.mod_pos_bound. lia.
      * rewrite load_store_ne by lia.
        rewrite Hwords by lia.
        rewrite Htsplit, Z.mul_assoc. symmetry. apply low_word_stable. lia.
  - (* the bits stay in the scratch register *)
    unfold writer_holds.
    cbn [w_data w_32_bit_int_index w_scratch_bits w_scratch]. fold idx.
    split; [lia|]. split; [lia|]. split; [lia|]. split; [exact HN'|].
    split; [reflexivity|].
    intros j Hj. rewrite Hwords by lia.
    rewrite Htsplit, Z.mul_assoc. symmetry. apply low_word_stable. lia.
Qed.

Lemma pack_range fields :
  Forall field_ok fields -> 0 <= pack fields < 2 ^ total_bits fields.
Proof.
  induction 1 as [|f rest [Hf Hv] Hrest IH]; cbn [pack total_bits].
  - change (2 ^ 0) with 1. lia.
  - pose proof (total_bits_nonneg rest Hrest).
    rewrite Z.pow_add_r by lia.
    pose proof (pow2_pos (snd f) ltac:(lia)). nia.
Qed.

Lemma write_fields_holds fields : forall w N t words,
  writer_holds w N t ->
  Forall field_ok fields ->
  Z.of_nat (length (w_data w)) = 4 * words ->
  t + total_bits fields <= 32 * words ->
  writer_holds (write_fields fields w) (N + pack fields * 2 ^ t) (t + total_bits fields) /\
  length (w_data (write_fields fields w)) = length (w_data w).
Proof.
  induction fields as [|[value bits] rest IH]; intros w N t words Hw Hok Hlen Hroom.
  - cbn [write_fields fold_left pack total_bits].
    rewrite Z.mul_0_l, !Z.add_0_r. now split.
  - inversion Hok as [|? ? Hf Hrest]; subst.
    pose proof (total_bits_nonneg rest Hrest) as Hnonneg.
    cbn [total_bits snd] in Hroom.
    destruct (WriteBits_holds w N t value bits words Hw Hf Hlen ltac:(lia))
      as [Hw1 Hlen1].
    destruct (IH (WriteBits value bits w) _ _ words Hw1 Hrest
                ltac:(rewrite Hlen1; exact Hlen) ltac:(lia)) as [Hw2 Hlen2].
    cbn [write_fields fold_left pack total_bits fst snd].
    split; [|now rewrite <- Hlen1].
    destruct Hw as (Hidx & Hsb & Ht & _). destruct Hf as [Hbits _]. cbn [snd] in Hbits.
    assert (Hnonneg_t : 0 <= t) by lia.
    replace (N + (value + 2 ^ bits * pack rest) * 2 ^ t)
      with (N + value * 2 ^ t + pack rest * 2 ^ (t + bits))
      by (rewrite Z.pow_add_r by lia; ring).
    replace (t + (bits + total_bits rest)) with (t + bits + total_bits rest) by lia.
    exact Hw2.
Qed.

(** After [FlushBits] every word that holds written bits is in memory. *)
Lemma FlushBits_words w N t words :
  writer_holds w N t ->
  Z.of_nat (length (w_data w)) = 4 * words ->
  t <= 32 * words ->
  forall j, 0 <= j -> 32 * j < t ->
    load_word (w_data (FlushBits w)) j = (N / 2 ^ (32 * j)) mod 2 ^ 32.
Proof.
  intros (Hidx & Hsb & Ht & HN & Hscratch & Hwords) Hlen Hroom j Hj Hjt.
  unfold FlushBits, bits_per_uint32_t.
  destruct (Z.eqb_spec (w_scratch_bits w) 0) as [Hzero|Hsome].
  - apply Hwords. lia.
  - cbn [w_data].
    destruct (Z.eq_dec j (w_32_bit_int_index w)) as [->|Hne].
    + change U32_MAX with (Z.ones 32). rewrite Z.land_ones by lia.
      rewrite Hscratch.
      apply load_store_eq; [lia | lia |].
      change 4294967296 with (2 ^ 32). apply Z.mod_pos_bound. lia.
    + rewrite load_store_ne by lia. apply Hwords. lia.
Qed.

(** **** The reader *)

(** What a reader holds after [t] bits of a memory that stores [N]: the
    bits of the loaded words that have not been read yet. *)
Definition reader_holds (data : list Z) (r : BitReader) (N t : Z) : Prop :=
  r_bitpacked_data r = data /\
  0 <= t /\
  0 <= r_scratch_bits r < 32 /\
  32 * r_32_bit_int_index r = t + r_scratch_bits r /\
  r_scratch r = (N / 2 ^ t) mod 2 ^ r_scratch_bits r.

Lemma ReadBits_holds data r N t T bits :
  reader_holds data r N t ->
  (forall j, 0 <= j -> 32 * j < T ->
     load_word data j = (N / 2 ^ (32 * j)) mod 2 ^ 32) ->
  0 <= bits <= 32 -> t + bits <= T ->
  fst (ReadBits bits r) = (N / 2 ^ t) mod 2 ^ bits /\
  reader_holds data (snd (ReadBits bits r)) N (t + bits).
Proof.
  intros (Hdata & Ht & Hsb & Hidx & Hscratch) Hwords Hbits Hroom.
  set (sb := r_scratch_bits r) in *.
  set (q := N / 2 ^ t) in *.
  pose proof (pow2_pos sb ltac:(lia)) as Hpsb.
  pose proof (pow2_pos bits ltac:(lia)) as Hpbits.
  (* the scratch register once it holds at least [bits] bits *)
  set (sb' := if sb <? bits then sb + 32 else sb).
  assert (Hsb' : bits <= sb' < 64) by (subst sb'; destruct (Z.ltb_spec sb bits); lia).
  assert (Hfilled :
    (if sb <? bits
     then wrap64 (Z.lor (r_scratch r)
                    (Z.shiftl (load_word (r_bitpacked_data r) (r_32_bit_int_index r)) sb))
     else r_scratch r) = q mod 2 ^ sb').
  { subst sb'. destruct (Z.ltb_spec sb bits) as [Hrefill|Hkeep]; [|exact Hscratch].
    rewrite Hdata, Hwords by lia.
    rewrite Hscratch.
    rewrite lor_shifted by (try lia; apply Z.mod_pos_bound; lia).
    replace (32 * r_32_bit_int_index r) with (t + sb) by lia.
    rewrite <- div_pow2_add by lia. fold q.
    rewrite mod_pow2_join by lia.
    unfold wrap64. apply Z.mod_small.
    pose proof (Z.mod_pos_bound q (2 ^ (sb + 32)) (pow2_pos (sb + 32) ltac:(lia))) as Hb.
    pose proof (pow2_le (sb + 32) 64 ltac:(lia)) as Hle.
    change (2 ^ 64) with 18446744073709551616 in Hle. lia. }
  unfold ReadBits, bits_per_uint32_t. fold sb. rewrite Hfilled.
  cbn [fst snd]. split.
  - rewrite mask_low by lia. rewrite mod_pow2_low by lia.
    apply wrap32_small.
    pose proof (Z.mod_pos_bound q (2 ^ bits) Hpbits) as Hb.
    pose proof (pow2_le bits 32 ltac:(lia)) as Hle.
    change (2 ^ 32) with 4294967296 in Hle. lia.
  - unfold reader_holds.
    cbn [r_bitpacked_data r_scratch_bits r_32_bit_int_index r_scratch].
    split; [exact Hdata|]. split; [lia|].
    fold sb'.
    replace (if sb <? bits then sb + 32 else sb) with sb' by reflexivity.
    split; [subst sb'; destruct (Z.ltb_spec sb bits); lia|].
    split; [subst sb'; destruct (Z.ltb_spec sb bits); lia|].
    rewrite Z.shiftr_div_pow2 by lia.
    rewrite mod_pow2_high by lia.
    unfold q. now rewrite div_pow2_add by lia.
Qed.

Lemma read_fields_pack data T N fields : forall r t,
  reader_holds data r N t ->
  (forall j, 0 <= j -> 32 * j < T ->
     load_word data j = (N / 2 ^ (32 * j)) mod 2 ^ 32) ->
  Forall field_ok fields ->
  N / 2 ^ t = pack fields ->
  t + total_bits fields <= T ->
  fst (read_fields (map snd fields) r) = map fst fields.
Proof.
  induction fields as [|[value bits] rest IH]; intros r t Hr Hwords Hok Hq Hroom.
  - reflexivity.
  - inversion Hok as [|? ? Hf Hrest]; subst.
    pose proof (total_bits_nonneg rest Hrest) as Hnonneg.
    destruct Hf as [Hbits Hvalue]. cbn [fst snd] in Hbits, Hvalue.
    cbn [total_bits snd] in Hroom. cbn [pack fst snd] in Hq.
    destruct (ReadBits_holds data r N t T bits Hr Hwords Hbits ltac:(lia))
      as [Hout Hr'].
    cbn [map read_fields fst snd].
    destruct (ReadBits bits r) as [out r'] eqn:Eread. cbn [fst snd] in Hout, Hr'.
    assert (Ht : 0 <= t) by (destruct Hr as (_ & ? & _); exact H).
    pose proof (pow2_pos bits ltac:(lia)) as Hpbits.
    specialize (IH r' (t + bits) Hr' Hwords Hrest).
    destruct (read_fields (map snd rest) r') as [values r''].
    cbn [fst] in *. f_equal.
    + rewrite Hout, Hq. rewrite (Z.mul_comm (2 ^ bits)), Z.mod_add by lia.
      apply Z.mod_small. lia.
    + apply IH; [|lia].
      rewrite <- div_pow2_add by lia. rewrite Hq.
      rewrite (Z.mul_comm (2 ^ bits)), Z.div_add by lia.
      rewrite Z.div_small by lia. lia.
Qed.

(** The round trip, from a new writer over any buffer of [words] 32-bit
    words to a new reader over the flushed memory. *)
Lemma fields_roundtrip fields buffer bytes words :
  Forall field_ok fields ->
  Z.of_nat (length buffer) = 4 * words ->
  total_bits fields <= 32 * words ->
  fst (read_fields (map snd fields)
         (newBitReader (w_data (FlushBits (write_fields fields (newBitWriter buffer bytes))))
            bytes))
  = map fst fields.
Proof.
  intros Hok Hlen Hroom.
  pose proof (total_bits_nonneg fields Hok) as Hnonneg.
  assert (Hnew : writer_holds (newBitWriter buffer bytes) 0 0).
  { unfold writer_holds, newBitWriter.
    cbn [w_32_bit_int_index w_scratch_bits w_scratch w_data].
    repeat split; try lia; try reflexivity. }
  destruct (write_fields_holds fields (newBitWriter buffer bytes) 0 0 words Hnew Hok
              Hlen ltac:(lia)) as [Hw Hlenw].
  rewrite Z.add_0_l in Hw. change (2 ^ 0) with 1 in Hw. rewrite Z.mul_1_r in Hw.
  cbn [Z.add] in Hw.
  set (w := write_fields fields (newBitWriter buffer bytes)) in *.
  apply (read_fields_pack (w_data (FlushBits w)) (total_bits fields) (pack fields)
           fields _ 0).
  - unfold reader_holds, newBitReader.
    cbn [r_bitpacked_data r_scratch_bits r_32_bit_int_index r_scratch].
    repeat split; try lia. change (2 ^ 0) with 1. now rewrite Z.mod_1_r.
  - apply (FlushBits_words w (pack fields) (total_bits fields) words Hw);
      [rewrite Hlenw; exact Hlen | exact Hroom].
  - exact Hok.
  - change (2 ^ 0) with 1. apply Z.div_1_r.
  - lia.
Qed.

(** Whatever is written with [WriteBits] and flushed comes back from
    [ReadBits]: for every run of fields that fit their widths (at most 32
    bits each) and every buffer with room for them, reading the flushed
    memory with the same widths returns the values written, in order. *)
Theorem WriteBits_ReadBits_roundtrip (fields : list (Z * Z)) (buffer : list Z)
    (bytes words : Z) :
  Forall field_ok fields ->
  bytes = 4 * words -> Z.of_nat (length buffer) = bytes ->
  total_bits fields <= bytes * bits_per_byte ->
  let writer := FlushBits (write_fields fields (newBitWriter buffer bytes)) in
  fst (read_fields (map snd fields) (newBitReader (w_data writer) bytes)) = map fst fields.
Proof.
  intros Hok Hbytes Hlen Hroom. cbv zeta.
  apply (fields_roundtrip fields buffer bytes words Hok); unfold bits_per_byte in *; lia.
Qed.

Lemma WriteBits_ReadBits_roundtrip_witness :
  let fields := [(11, 4); (255, 8); (0, 0); (4294967295, 32); (1, 1)] in
  let writer := FlushBits (write_fields fields (newBitWriter (replicate 8 0) 8)) in
  fst (read_fields (map snd fields) (newBitReader (w_data writer) 8)) = map fst fields.
Proof.
  apply (WriteBits_ReadBits_roundtrip
           [(11, 4); (255, 8); (0, 0); (4294967295, 32); (1, 1)] (replicate 8 0) 8 2).
  - repeat constructor; cbn; lia.
  - reflexivity.
  - reflexivity.
  - vm_compute. discriminate.
Defined.

(** *** Alignment *)

Lemma wrap32_mod8 x : wrap32 x mod 8 = x mod 8.
Proof.
  unfold wrap32. symmetry. rewrite <- (Z.mod_mod_divide x 4294967296 8) at 1.
  - reflexivity.
  - exists 536870912. reflexivity.
Qed.

Lemma pad_to_byte x : x mod 8 <> 0 -> (x + (8 - x mod 8)) mod 8 = 0.
Proof. intros Hx. Z.div_mod_to_equations. lia. Qed.

(** After [WriteZeroPaddingToAlignByteBoundary] the writer is at a byte
    boundary, and after [SkipToByteBoundaryAndVerifyZeroPadding] so is the
    reader, from every position: the number of bits written or read is a
    multiple of 8 and [GetAlignBits] is 0. *)
Theorem alignment_reaches_byte_boundary (w : BitWriter) (r : BitReader) :
  let w' := WriteZeroPaddingToAlignByteBoundary w in
  let r' := snd (SkipToByteBoundaryAndVerifyZeroPadding r) in
  GetBitsWritten w' mod bits_per_byte = 0 /\ WriterGetAlignBits w' = 0 /\
  r_bits_read r' mod bits_per_byte = 0 /\ ReaderGetAlignBits r' = 0.
Proof.
  cbv zeta.
  assert (Hw : GetBitsWritten (WriteZeroPaddingToAlignByteBoundary w) mod 8 = 0).
  { unfold WriteZeroPaddingToAlignByteBoundary, GetBitsWritten, bits_per_byte.
    destruct (Z.eqb_spec (w_bits_written w mod 8) 0) as [Hzero|Hsome]; [exact Hzero|].
    unfold WriteBits.
    destruct (_ <=? _); cbn [w_bits_written];
      rewrite wrap32_mod8; now apply pad_to_byte. }
  assert (Hr : r_bits_read (snd (SkipToByteBoundaryAndVerifyZeroPadding r)) mod 8 = 0).
  { unfold SkipToByteBoundaryAndVerifyZeroPadding, bits_per_byte.
    destruct (Z.eqb_spec (r_bits_read r mod 8) 0) as [Hzero|Hsome]; [exact Hzero|].
    unfold ReadBits. cbn [snd r_bits_read].
    rewrite wrap32_mod8. now apply pad_to_byte. }
  unfold WriterGetAlignBits, ReaderGetAlignBits, GetBitsWritten, bits_per_byte in *.
  rewrite Hw, Hr. repeat split.
Qed.

(** *** [WriteBytes] against byte-wise writes

    [WriteBytes] writes the bytes before the next word boundary one by one,
    copies the whole words into the buffer, and writes the rest one by one.
    From a writer at a byte boundary this leaves the writer exactly as a
    [WriteBits] of 8 bits for every byte does. *)

(** A writer at a byte boundary, as [WriteBytes] asserts it. *)
Definition byte_aligned (w : BitWriter) : Prop :=
  0 <= w_scratch_bits w < 32 /\
  w_scratch_bits w mod 8 = 0 /\
  0 <= w_scratch w < 2 ^ w_scratch_bits w /\
  0 <= w_bits_written w /\
  w_bits_written w mod 32 = w_scratch_bits w.

Definition is_byte (b : Z) : Prop := 0 <= b < 256.

Lemma lookup_is_byte data i : Forall is_byte data -> is_byte (data !!! i).
Proof.
  intros Hdata. rewrite list_lookup_total_alt.
  destruct (data !! i) as [b|] eqn:Hb; cbn.
  - exact (Forall_lookup_1 _ _ _ _ Hdata Hb).
  - unfold is_byte. cbv. split; [discriminate | reflexivity].
Qed.

Lemma WriteBits_byte_keep w b :
  byte_aligned w -> is_byte b -> w_scratch_bits w < 24 ->
  w_bits_written w + 8 < 4294967296 ->
  WriteBits b 8 w
  = mkBitWriter (w_number_of_32_bit_ints w) (w_bits_written w + 8)
      (w_32_bit_int_index w) (w_scratch_bits w + 8)
      (w_scratch w + b * 2 ^ w_scratch_bits w) (w_data w).
Proof.
  intros (Hsb & Hmod & Hsc & Hbw & _) Hb Hlt Hroom. unfold is_byte in Hb.
  unfold WriteBits, bits_per_uint32_t.
  rewrite lor_shifted by lia.
  assert (Hsb16 : w_scratch_bits w <= 16) by (Z.div_mod_to_equations; lia).
  pose proof (pow2_le (w_scratch_bits w) 16 ltac:(lia)) as Hle.
  change (2 ^ 16) with 65536 in Hle.
  pose proof (pow2_pos (w_scratch_bits w) ltac:(lia)) as Hpos.
  assert (Hsmall : 0 <= w_scratch w + b * 2 ^ w_scratch_bits w < 16777216) by nia.
  destruct (Z.leb_spec 32 (w_scratch_bits w + 8)) as [Hge|_]; [lia|].
  unfold wrap64, wrap32. rewrite !Z.mod_small by lia. reflexivity.
Qed.

Lemma WriteBits_byte_store w b :
  byte_aligned w -> is_byte b -> w_scratch_bits w = 24 ->
  w_bits_written w + 8 < 4294967296 ->
  WriteBits b 8 w
  = mkBitWriter (w_number_of_32_bit_ints w) (w_bits_written w + 8)
      (w_32_bit_int_index w + 1) 0 0
      (store_word (w_data w) (w_32_bit_int_index w) (w_scratch w + b * 16777216)).
Proof.
  intros (Hsb & Hmod & Hsc & Hbw & _) Hb H24 Hroom. unfold is_byte in Hb.
  unfold WriteBits, bits_per_uint32_t.
  rewrite lor_shifted by lia. rewrite H24 in *.
  change (2 ^ 24) with 16777216 in *.
  assert (Hsmall : 0 <= w_scratch w + b * 16777216 < 4294967296) by lia.
  destruct (Z.leb_spec 32 (24 + 8)) as [_|Hlt]; [|lia].
  unfold wrap64, wrap32. rewrite !Z.mod_small by lia.
  change U32_MAX with (Z.ones 32). rewrite Z.land_ones by lia.
  rewrite Z.shiftr_div_pow2 by lia.
  change (2 ^ 32) with 4294967296.
  rewrite Z.mod_small by lia. rewrite Z.div_small by lia. reflexivity.
Qed.

Lemma WriteBits_byte_aligned w b :
  byte_aligned w -> is_byte b -> w_bits_written w + 8 < 4294967296 ->
  byte_aligned (WriteBits b 8 w) /\
  w_bits_written (WriteBits b 8 w) = w_bits_written w + 8.
Proof.
  intros Hw Hb Hroom.
  pose proof Hw as (Hsb & Hmod & Hsc & Hbw & Hbwmod). pose proof Hb as Hb'.
  unfold is_byte in Hb'.
  destruct (Z.lt_ge_cases (w_scratch_bits w) 24) as [Hlt|Hge].
  - rewrite WriteBits_byte_keep by assumption.
    unfold byte_aligned.
    cbn [w_scratch_bits w_scratch w_bits_written].
    pose proof (pow2_pos (w_scratch_bits w) ltac:(lia)) as Hpos.
    split; [|reflexivity].
    split; [lia|]. split; [Z.div_mod_to_equations; lia|].
    split; [rewrite Z.pow_add_r by lia; change (2 ^ 8) with 256; nia|].
    split; [lia|]. Z.div_mod_to_equations. lia.
  - assert (H24 : w_scratch_bits w = 24) by (Z.div_mod_to_equations; lia).
    rewrite WriteBits_byte_store by assumption.
    unfold byte_aligned.
    cbn [w_scratch_bits w_scratch w_bits_written].
    split; [|reflexivity].
    split; [lia|]. split; [reflexivity|].
    split; [change (2 ^ 0) with 1; lia|].
    split; [lia|]. Z.div_mod_to_equations. lia.
Qed.

Lemma write_byte_run_cons data start n w :
  0 < n ->
  write_byte_run data start n w
  = write_byte_run data (start + 1) (n - 1) (WriteBits (data !!! Z.to_nat start) 8 w).
Proof.
  intros Hn. unfold write_byte_run.
  rewrite (seqZ_cons start n) by lia.
  replace (Z.pred n) with (n - 1) by lia.
  replace (Z.succ start) with (start + 1) by lia. reflexivity.
Qed.

Lemma write_byte_run_split data a m n w :
  0 <= m -> 0 <= n ->
  write_byte_run data a (m + n) w
  = write_byte_run data (a + m) n (write_byte_run data a m w).
Proof.
  intros Hm Hn. unfold write_byte_run.
  rewrite seqZ_app by lia. apply fold_left_app.
Qed.

Lemma write_byte_run_aligned data :
  Forall is_byte data ->
  forall (n : nat) start w,
    byte_aligned w -> w_bits_written w + 8 * Z.of_nat n < 4294967296 ->
    byte_aligned (write_byte_run data start (Z.of_nat n) w) /\
    w_bits_written (write_byte_run data start (Z.of_nat n) w)
    = w_bits_written w + 8 * Z.of_nat n.
Proof.
  intros Hdata. induction n as [|n IH]; intros start w Hw Hroom.
  - change (write_byte_run data start (Z.of_nat 0) w) with w.
    split; [exact Hw | lia].
  - rewrite write_byte_run_cons by lia.
    replace (Z.of_nat (S n) - 1) with (Z.of_nat n) by lia.
    destruct (WriteBits_byte_aligned w (data !!! Z.to_nat start) Hw
                (lookup_is_byte data _ Hdata) ltac:(lia)) as [Hw1 Hbw1].
    destruct (IH (start + 1) _ Hw1 ltac:(rewrite Hbw1; lia)) as [Hw2 Hbw2].
    split; [exact Hw2 | rewrite Hbw2, Hbw1; lia].
Qed.

(** One whole word, byte by byte, from a word boundary. *)
Lemma write_byte_run_word data start w :
  Forall is_byte data ->
  byte_aligned w -> w_scratch_bits w = 0 ->
  w_bits_written w + 32 < 4294967296 ->
  write_byte_run data start 4 w
  = mkBitWriter (w_number_of_32_bit_ints w) (w_bits_written w + 32)
      (w_32_bit_int_index w + 1) 0 0
      (copy_n data start 4 (w_data w) (4 * w_32_bit_int_index w)).
Proof.
  intros Hdata Hw Hsb Hroom.
  pose proof (lookup_is_byte data (Z.to_nat start) Hdata) as Hb0.
  pose proof (lookup_is_byte data (Z.to_nat (start + 1)) Hdata) as Hb1.
  pose proof (lookup_is_byte data (Z.to_nat (start + 2)) Hdata) as Hb2.
  pose proof (lookup_is_byte data (Z.to_nat (start + 3)) Hdata) as Hb3.
  set (b0 := data !!! Z.to_nat start) in *.
  set (b1 := data !!! Z.to_nat (start + 1)) in *.
  set (b2 := data !!! Z.to_nat (start + 2)) in *.
  set (b3 := data !!! Z.to_nat (start + 3)) in *.
  assert (Hsc : w_scratch w = 0).
  { destruct Hw as (_ & _ & Hsc & _). rewrite Hsb in Hsc.
    change (2 ^ 0) with 1 in Hsc. lia. }
  rewrite (write_byte_run_cons data start 4) by lia. change (4 - 1) with 3. fold b0.
  destruct (WriteBits_byte_aligned w b0 Hw Hb0 ltac:(lia)) as [Hw1 _].
  rewrite WriteBits_byte_keep in Hw1 |- * by (assumption || lia).
  rewrite Hsb, Hsc in Hw1 |- *.
  rewrite (write_byte_run_cons data _ 3) by lia. change (3 - 1) with 2. fold b1.
  destruct (WriteBits_byte_aligned _ b1 Hw1 Hb1
              ltac:(cbn [w_bits_written]; lia)) as [Hw2 _].
  rewrite WriteBits_byte_keep in Hw2 |- *
    by (assumption || (cbn [w_bits_written w_scratch_bits]; lia)).
  cbn [w_number_of_32_bit_ints w_bits_written w_32_bit_int_index
       w_scratch_bits w_scratch w_data] in Hw2 |- *.
  rewrite (write_byte_run_cons data _ 2) by lia. change (2 - 1) with 1.
  replace (start + 1 + 1) with (start + 2) by lia. fold b2.
  destruct (WriteBits_byte_aligned _ b2 Hw2 Hb2
              ltac:(cbn [w_bits_written]; lia)) as [Hw3 _].
  rewrite WriteBits_byte_keep in Hw3 |- *
    by (assumption || (cbn [w_bits_written w_scratch_bits]; lia)).
  cbn [w_number_of_32_bit_ints w_bits_written w_32_bit_int_index
       w_scratch_bits w_scratch w_data] in Hw3 |- *.
  rewrite (write_byte_run_cons data _ 1) by lia. change (1 - 1) with 0.
  replace (start + 2 + 1) with (start + 3) by lia. fold b3.
  rewrite WriteBits_byte_store
    by (assumption || (cbn [w_bits_written w_scratch_bits]; lia)).
  cbn [w_number_of_32_bit_ints w_bits_written w_32_bit_int_index
       w_scratch_bits w_scratch w_data write_byte_run seqZ].
  unfold write_byte_run.
  change (seqZ (start + 3 + 1) 0) with (@nil Z). cbn [fold_left].
  unfold is_byte in Hb0, Hb1, Hb2, Hb3.
  change (2 ^ 0) with 1. change (2 ^ (0 + 8)) with 256.
  change (2 ^ (0 + 8 + 8)) with 65536.
  set (word := 0 + b0 * 1 + b1 * 256 + b2 * 65536 + b3 * 16777216).
  assert (E0 : word mod 256 = b0) by (subst word; Z.div_mod_to_equations; lia).
  assert (E1 : (word / 256) mod 256 = b1) by (subst word; Z.div_mod_to_equations; lia).
  assert (E2 : (word / 65536) mod 256 = b2) by (subst word; Z.div_mod_to_equations; lia).
  assert (E3 : (word / 16777216) mod 256 = b3) by (subst word; Z.div_mod_to_equations; lia).
  f_equal; [lia|].
  unfold store_word, copy_n. rewrite E0, E1, E2, E3.
  change (seqZ 0 4) with [0; 1; 2; 3]. cbn [fold_left].
  rewrite !Z.add_0_r. reflexivity.
Qed.

Lemma copy_n_shift (src : list Z) dst_off src_off off :
  forall (n : nat) a (dst : list Z),
  fold_left
    (fun m k => <[Z.to_nat (dst_off + k) := src !!! Z.to_nat (src_off + k)]> m)
    (seqZ (a + off) (Z.of_nat n)) dst
  = fold_left
    (fun m k => <[Z.to_nat (dst_off + off + k) := src !!! Z.to_nat (src_off + off + k)]> m)
    (seqZ a (Z.of_nat n)) dst.
Proof.
  induction n as [|n IH]; intros a dst; [reflexivity|].
  rewrite !(seqZ_cons _ (Z.of_nat (S n))) by lia.
  replace (Z.pred (Z.of_nat (S n))) with (Z.of_nat n) by lia.
  cbn [fold_left].
  replace (Z.succ (a + off)) with (Z.succ a + off) by lia.
  rewrite IH.
  replace (dst_off + (a + off)) with (dst_off + off + a) by lia.
  replace (src_off + (a + off)) with (src_off + off + a) by lia.
  reflexivity.
Qed.

Lemma copy_n_split src src_off m n dst dst_off :
  0 <= m -> 0 <= n ->
  copy_n src src_off (m + n) dst dst_off
  = copy_n src (src_off + m) n (copy_n src src_off m dst dst_off) (dst_off + m).
Proof.
  intros Hm Hn. unfold copy_n.
  rewrite seqZ_app by lia. rewrite fold_left_app.
  replace n with (Z.of_nat (Z.to_nat n)) at 1 2 by lia.
  apply (copy_n_shift src dst_off src_off m (Z.to_nat n) 0).
Qed.

(** Whole words, byte by byte, from a word boundary: the bulk copy. *)
Lemma write_byte_run_words data :
  Forall is_byte data ->
  forall (k : nat) start w,
    byte_aligned w -> w_scratch_bits w = 0 ->
    w_bits_written w + 32 * Z.of_nat k < 4294967296 ->
    write_byte_run data start (4 * Z.of_nat k) w
    = mkBitWriter (w_number_of_32_bit_ints w) (w_bits_written w + 32 * Z.of_nat k)
        (w_32_bit_int_index w + Z.of_nat k) (w_scratch_bits w) (w_scratch w)
        (copy_n data start (4 * Z.of_nat k) (w_data w) (4 * w_32_bit_int_index w)).
Proof.
  intros Hdata. induction k as [|k IH]; intros start w Hw Hsb Hroom.
  - cbn. rewrite !Z.add_0_r. now destruct w.
  - assert (Hsc : w_scratch w = 0).
    { destruct Hw as (_ & _ & Hsc & _). rewrite Hsb in Hsc.
      change (2 ^ 0) with 1 in Hsc. lia. }
    replace (4 * Z.of_nat (S k)) with (4 + 4 * Z.of_nat k) by lia.
    rewrite write_byte_run_split by lia.
    destruct (write_byte_run_aligned data Hdata 4 start w Hw ltac:(lia)) as [Hw1 _].
    change (Z.of_nat 4) with 4 in Hw1.
    rewrite write_byte_run_word in Hw1 |- * by (assumption || lia).
    rewrite IH by (assumption || reflexivity || (cbn [w_bits_written]; lia)).
    cbn [w_number_of_32_bit_ints w_bits_written w_32_bit_int_index
         w_scratch_bits w_scratch w_data].
    rewrite Hsb, Hsc. rewrite copy_n_split by lia.
    f_equal; [lia | lia |]. f_equal. lia.
Qed.

Lemma WriteBytes_byte_run (data : list Z) (bytes : Z) (w : BitWriter) :
  Forall is_byte data ->
  byte_aligned w ->
  0 <= bytes ->
  w_bits_written w + 8 * bytes < 4294967296 ->
  WriteBytes data bytes w = write_byte_run data 0 bytes w.
Proof.
  intros Hdata Hw Hbytes Hroom.
  pose proof Hw as (Hsb & Hmod & Hsc & Hbw & Hbwmod).
  unfold WriteBytes, bits_per_uint32_t, bits_per_byte.
  rewrite Hbwmod.
  set (head0 := (4 - w_scratch_bits w / 8) mod 4).
  assert (Hhead0 : 0 <= head0 < 4) by (apply Z.mod_pos_bound; lia).
  destruct (Z.ltb_spec bytes head0) as [Hshort|Hlong].
  { now rewrite Z.eqb_refl. }
  destruct (Z.eqb_spec head0 bytes) as [->|Hne]; [reflexivity|].
  set (w1 := write_byte_run data 0 head0 w).
  destruct (write_byte_run_aligned data Hdata (Z.to_nat head0) 0 w Hw ltac:(lia))
    as [Hw1 Hbw1].
  rewrite Z2Nat.id in Hw1, Hbw1 by lia. fold w1 in Hw1, Hbw1.
  assert (Hsb1 : w_scratch_bits w1 = 0).
  { destruct Hw1 as (_ & _ & _ & _ & <-). rewrite Hbw1.
    subst head0. Z.div_mod_to_equations. lia. }
  set (k := (bytes - head0) / 4).
  assert (Hk : 0 <= k) by (subst k; Z.div_mod_to_equations; lia).
  assert (Hk4 : head0 + 4 * k <= bytes) by (subst k; Z.div_mod_to_equations; lia).
  assert (Hsplit : write_byte_run data 0 bytes w
          = write_byte_run data (head0 + k * 4) (bytes - (head0 + k * 4))
              (write_byte_run data head0 (4 * k) w1)).
  { replace bytes with (head0 + (bytes - head0)) at 1 by lia.
    rewrite write_byte_run_split by lia. fold w1.
    replace (bytes - head0) with (4 * k + (bytes - (head0 + k * 4))) at 1 by lia.
    rewrite write_byte_run_split by lia.
    f_equal; lia. }
  rewrite Hsplit. f_equal.
  destruct (Z.ltb_spec 0 k) as [Hpos|Hzero].
  - replace k with (Z.of_nat (Z.to_nat k)) at 4 by lia.
    rewrite write_byte_run_words by (assumption || (rewrite Z2Nat.id by lia; lia)).
    rewrite Z2Nat.id by lia.
    unfold wrap32. rewrite Z.mod_small by lia.
    f_equal; [lia|]. f_equal. lia.
  - replace k with 0 by lia. reflexivity.
Qed.

(** From a writer at a byte boundary, with bytes as data and without
    overflow of the bit counter, [WriteBytes] leaves the writer, and the
    buffer with it, exactly as one [WriteBits] of 8 bits per byte does. *)
Theorem WriteBytes_as_single_bytes (data : list Z) (bytes : Z) (w : BitWriter) :
  Forall is_byte data ->
  byte_aligned w ->
  0 <= bytes ->
  w_bits_written w + 8 * bytes < 4294967296 ->
  WriteBytes data bytes w = write_byte_run data 0 bytes w.
Proof. intros Hdata Hw Hbytes Hroom. now apply WriteBytes_byte_run. Qed.

Lemma WriteBytes_as_single_bytes_witness :
  WriteBytes [160; 161; 162; 163; 164; 165; 166; 167; 168; 169; 170] 11
    (WriteBits 255 8 (newBitWriter (replicate 32 0) 32))
  = write_byte_run [160; 161; 162; 163; 164; 165; 166; 167; 168; 169; 170] 0 11
      (WriteBits 255 8 (newBitWriter (replicate 32 0) 32)).
Proof.
  apply (WriteBytes_as_single_bytes
           [160; 161; 162; 163; 164; 165; 166; 167; 168; 169; 170] 11
           (WriteBits 255 8 (newBitWriter (replicate 32 0) 32))).
  - repeat constructor; cbv; discriminate.
  - unfold byte_aligned. vm_compute. repeat split; discriminate.
  - lia.
  - vm_compute. reflexivity.
Defined.

(** The byte-wise writes are a run of 8-bit fields. *)
Lemma write_byte_run_fields data : forall (n s : nat) w,
  (s + n <= length data)%nat ->
  write_byte_run data (Z.of_nat s) (Z.of_nat n) w
  = write_fields (map (fun b => (b, 8)) (take n (drop s data))) w.
Proof.
  induction n as [|n IH]; intros s w Hlen.
  - reflexivity.
  - rewrite write_byte_run_cons by lia.
    replace (Z.of_nat (S n) - 1) with (Z.of_nat n) by lia.
    replace (Z.of_nat s + 1) with (Z.of_nat (S s)) by lia.
    rewrite IH by lia. rewrite Nat2Z.id.
    destruct (lookup_lt_is_Some_2 data s ltac:(lia)) as [b Hb].
    rewrite (drop_S data b s Hb).
    rewrite (list_lookup_total_correct data s b Hb).
    reflexivity.
Qed.

(** Bytes written with [WriteBytes] into a new writer and flushed are
    read back, byte by byte, by [ReadBits]. *)
Theorem WriteBytes_read_back (data buffer : list Z) (n : nat) (bytes words : Z) :
  Forall is_byte data ->
  (n <= length data)%nat ->
  bytes = 4 * words -> Z.of_nat (length buffer) = bytes ->
  Z.of_nat n <= bytes -> bytes < 536870912 ->
  let writer := FlushBits (WriteBytes data (Z.of_nat n) (newBitWriter buffer bytes)) in
  fst (read_fields (replicate n 8) (newBitReader (w_data writer) bytes)) = take n data.
Proof.
  intros Hdata Hn Hbytes Hlen Hroom Hmax. cbv zeta.
  rewrite WriteBytes_byte_run; try assumption; try lia.
  - rewrite (write_byte_run_fields data n 0) by lia. rewrite drop_0.
    set (fields := map (fun b => (b, 8)) (take n data)).
    assert (Hsnd : map snd fields = replicate n 8).
    { subst fields. rewrite map_map. cbn [snd].
      rewrite <- (length_take_le data n) at 2 by lia.
      induction (take n data) as [|b l IH]; [reflexivity|]. cbn. now rewrite IH. }
    assert (Hfst : map fst fields = take n data).
    { subst fields. rewrite map_map. cbn [fst]. apply map_id. }
    rewrite <- Hsnd, <- Hfst.
    apply (fields_roundtrip fields buffer bytes words).
    + subst fields. apply Forall_map. apply Forall_take.
      apply (Forall_impl _ _ _ Hdata). intros b Hb.
      unfold field_ok, is_byte in *. cbn [fst snd]. change (2 ^ 8) with 256. lia.
    + lia.
    + assert (Htotal : forall l : list Z, total_bits (map (fun b => (b, 8)) l)
                                    = 8 * Z.of_nat (length l)).
      { induction l as [|b l IH]; [reflexivity|].
        cbn [map total_bits snd length]. rewrite IH. lia. }
      subst fields. rewrite Htotal, length_take_le by lia. lia.
  - unfold byte_aligned, newBitWriter.
    cbn [w_scratch_bits w_scratch w_bits_written].
    repeat split; try lia; reflexivity.
  - unfold newBitWriter. cbn [w_bits_written]. lia.
Qed.

Lemma WriteBytes_read_back_witness :
  let data := [160; 161; 162; 163; 164; 165; 166; 167; 168; 169; 170] in
  let writer := FlushBits (WriteBytes data 11 (newBitWriter (replicate 32 0) 32)) in
  fst (read_fields (replicate 11 8) (newBitReader (w_data writer) 32)) = take 11 data.
Proof.
  apply (WriteBytes_read_back
           [160; 161; 162; 163; 164; 165; 166; 167; 168; 169; 170]
           (replicate 32 0) 11 32 8).
  - repeat constructor; cbv; discriminate.
  - cbn. lia.
  - reflexivity.
  - reflexivity.
  - lia.
  - lia.
Defined.

End Bits.

(** ** Packet header (SerialiseReliable.cpp) *)

Module Header.

Definition MIN_RUDP_HEADER_BYTES : Z := 4.
Definition MAX_RUDP_HEADER_BYTES : Z := 9.

(** A write cursor: the buffer and the offset of [p] from [packet_data]. *)
Definition cursor : Type := list Z * Z.

(** Modelled from the spec: [CoreSerialise::WriteUint8], [WriteUint16],
    [ReadUint8] and [ReadUint16] are not among the sources.  The spec gives
    the 16-bit fields as little-endian ("sequence (u16 LE)"), which is also
    what [Synapse::Serialise::WriteInteger] and [ReadInteger] do; each call
    advances [p] by the size of the value. *)
Definition WriteUint8 (c : cursor) (value : Z) : cursor :=
  (<[Z.to_nat (snd c) := value]> (fst c), snd c + 1).

Definition WriteUint16 (c : cursor) (value : Z) : cursor :=
  (<[Z.to_nat (snd c + 1) := (value / 256) mod 256]>
     (<[Z.to_nat (snd c) := value mod 256]> (fst c)),
   snd c + 2).

Definition ReadUint8 (c : cursor) : Z * cursor :=
  (fst c !!! Z.to_nat (snd c), (fst c, snd c + 1)).

Definition ReadUint16 (c : cursor) : Z * cursor :=
  (fst c !!! Z.to_nat (snd c) + 256 * (fst c !!! Z.to_nat (snd c + 1)),
   (fst c, snd c + 2)).

(** [if (cond) prefix_byte |= (1 << k)] on a [uint8_t]. *)
Definition set_flag (cond : bool) (k : Z) (prefix_byte : Z) : Z :=
  if cond then wrap8 (Z.lor prefix_byte (Z.shiftl 1 k)) else prefix_byte.

Definition when (cond : bool) (f : cursor -> cursor) (c : cursor) : cursor :=
  if cond then f c else c.

(** [WritePacketHeader]: the buffer after the call and the returned length. *)
Definition WritePacketHeader (packet_data : list Z) (sequence ack ack_bits : Z) : list Z * Z :=
  let m0 := negb (Z.land ack_bits 255 =? 255) in
  let m1 := negb (Z.land ack_bits 65280 =? 65280) in
  let m2 := negb (Z.land ack_bits 16711680 =? 16711680) in
  let m3 := negb (Z.land ack_bits 4278190080 =? 4278190080) in
  let prefix_byte := set_flag m3 4 (set_flag m2 3 (set_flag m1 2 (set_flag m0 1 0))) in
  let sequence_difference0 := sequence - ack in
  let sequence_difference :=
    if sequence_difference0 <? 0 then sequence_difference0 + 65536
    else sequence_difference0 in
  let prefix_byte := set_flag (sequence_difference <=? 255) 5 prefix_byte in
  let p := WriteUint8 (packet_data, 0) prefix_byte in
  let p := WriteUint16 p sequence in
  let p :=
    if sequence_difference <=? 255
    then WriteUint8 p (wrap8 sequence_difference)
    else WriteUint16 p ack in
  let p := when m0 (fun p => WriteUint8 p (wrap8 (Z.land ack_bits 255))) p in
  let p := when m1 (fun p => WriteUint8 p (wrap8 (Z.shiftr (Z.land ack_bits 65280) 8))) p in
  let p := when m2 (fun p => WriteUint8 p (wrap8 (Z.shiftr (Z.land ack_bits 16711680) 16))) p in
  let p := when m3 (fun p => WriteUint8 p (wrap8 (Z.shiftr (Z.land ack_bits 4278190080) 24))) p in
  p.

(** [prefix_byte & (1 << k)] used as a condition. *)
Definition flag (prefix_byte k : Z) : bool :=
  negb (Z.land prefix_byte (Z.shiftl 1 k) =? 0).

(** One of the four optional bitmap bytes of [ReadPacketHeader]:
    [ack_bits &= mask; ack_bits |= (uint32_t) ReadUint8(&p) << shift]. *)
Definition read_ack_byte (present : bool) (mask shift : Z) (st : Z * cursor) : Z * cursor :=
  if present then
    let '(b, p) := ReadUint8 (snd st) in
    (wrap32 (Z.lor (Z.land (fst st) mask) (wrap32 (Z.shiftl b shift))), p)
  else st.

(** The out-parameters of [ReadPacketHeader]. *)
Record header := mkHeader { h_sequence : Z; h_ack : Z; h_ack_bits : Z }.

(** [ReadPacketHeader]: the return value and the out-parameters, which keep
    the caller's values [out] on the paths that do not assign them. *)
Definition ReadPacketHeader (packet_data : list Z) (packet_bytes : Z) (out : header) : Z * header :=
  if packet_bytes <? MIN_RUDP_HEADER_BYTES then (-1, out)
  else
    let '(prefix_byte, p) := ReadUint8 (packet_data, 0) in
    if negb (Z.land prefix_byte 1 =? 0) then (-1, out)
    else
      let '(sequence, p) := ReadUint16 p in
      let short_ack := flag prefix_byte 5 in
      if negb short_ack && (packet_bytes <? 3 + 2)
      then (-1, mkHeader sequence (h_ack out) (h_ack_bits out))
      else
        let '(ack, p) :=
          if short_ack then
            let '(sequence_difference, p) := ReadUint8 p in
            (wrap16 (sequence - sequence_difference), p)
          else ReadUint16 p in
        let expected_bytes :=
          (if flag prefix_byte 1 then 1 else 0) + (if flag prefix_byte 2 then 1 else 0)
          + (if flag prefix_byte 3 then 1 else 0) + (if flag prefix_byte 4 then 1 else 0) in
        if packet_bytes <? snd p + expected_bytes
        then (-1, mkHeader sequence ack (h_ack_bits out))
        else
          let st := (4294967295, p) in
          let st := read_ack_byte (flag prefix_byte 1) 4294967040 0 st in
          let st := read_ack_byte (flag prefix_byte 2) 4294902015 8 st in
          let st := read_ack_byte (flag prefix_byte 3) 4278255615 16 st in
          let st := read_ack_byte (flag prefix_byte 4) 16777215 24 st in
          (snd (snd st), mkHeader sequence ack (fst st)).

Example header_all_acked :
  WritePacketHeader (replicate 9 0) 7 6 4294967295 = ([32; 7; 0; 1; 0; 0; 0; 0; 0], 4).
Proof. vm_compute. reflexivity. Qed.

Example header_full :
  WritePacketHeader (replicate 9 0) 1000 500 0 = ([30; 232; 3; 244; 1; 0; 0; 0; 0], 9).
Proof. vm_compute. reflexivity. Qed.

Example header_read_back :
  ReadPacketHeader [30; 232; 3; 244; 1; 0; 0; 0; 0] 9 (mkHeader 0 0 0)
  = (9, mkHeader 1000 500 0).
Proof. vm_compute. reflexivity. Qed.

(** *** Round trip of the header *)

(** Byte [k] of a 32-bit value, and a 32-bit value from four bytes. *)
Definition ack_byte (x k : Z) : Z := Z.land (Z.shiftr x (8 * k)) 255.
Definition pack4 (a b c d : Z) : Z :=
  Z.lor (Z.land a 255)
    (Z.lor (Z.shiftl (Z.land b 255) 8)
       (Z.lor (Z.shiftl (Z.land c 255) 16) (Z.shiftl (Z.land d 255) 24))).

Lemma testbit_above x n i : 0 <= x < 2 ^ n -> 0 <= n <= i -> Z.testbit x i = false.
Proof.
  intros Hx Hi. rewrite <- (Z.mod_small x (2 ^ n)) by lia.
  apply Z.mod_pow2_bits_high. lia.
Qed.

Ltac bit_cases :=
  repeat match goal with
         | |- context [?a <? ?b] => destruct (Z.ltb_spec a b)
         | |- context [?a <=? ?b] => destruct (Z.leb_spec a b)
         end;
  try lia;
  repeat (rewrite ?Z.shiftr_spec, ?Z.shiftl_spec by lia);
  rewrite ?(Z.testbit_neg_r _ _) by lia;
  rewrite ?andb_false_r, ?andb_true_r, ?orb_false_r, ?orb_true_r; simpl;
  rewrite ?andb_false_r, ?andb_true_r, ?orb_false_r, ?orb_true_r, ?orb_false_l;
  try reflexivity;
  try (f_equal; lia).

Ltac bitwise :=
  apply Z.bits_inj'; intros i Hi;
  unfold wrap32, wrap8, pack4, ack_byte;
  change 4294967296 with (2 ^ 32); change 256 with (2 ^ 8);
  change 255 with (Z.ones 8);
  change 4294967040 with (Z.shiftl (Z.ones 24) 8);
  change 4294902015 with (Z.lor (Z.ones 8) (Z.shiftl (Z.ones 16) 16));
  change 4278255615 with (Z.lor (Z.ones 16) (Z.shiftl (Z.ones 8) 24));
  change 16777215 with (Z.ones 24);
  change 65280 with (Z.shiftl (Z.ones 8) 8);
  change 16711680 with (Z.shiftl (Z.ones 8) 16);
  change 4278190080 with (Z.shiftl (Z.ones 8) 24);
  repeat (rewrite ?Z.testbit_mod_pow2, ?Z.lor_spec, ?Z.land_spec, ?Z.shiftl_spec,
            ?Z.shiftr_spec, ?Z.testbit_ones by lia);
  bit_cases.

Lemma pack4_unpack x : 0 <= x < 4294967296 ->
  pack4 (ack_byte x 0) (ack_byte x 1) (ack_byte x 2) (ack_byte x 3) = x.
Proof.
  intros Hx. bitwise.
  symmetry. apply (testbit_above x 32); lia.
Qed.

Lemma land_mask0 x : Z.land x 255 = ack_byte x 0.
Proof. bitwise. Qed.
Lemma land_mask1 x : Z.land x 65280 = Z.shiftl (ack_byte x 1) 8.
Proof. bitwise. Qed.
Lemma land_mask2 x : Z.land x 16711680 = Z.shiftl (ack_byte x 2) 16.
Proof. bitwise. Qed.
Lemma land_mask3 x : Z.land x 4278190080 = Z.shiftl (ack_byte x 3) 24.
Proof. bitwise. Qed.

Lemma ack_byte_range x k : 0 <= ack_byte x k < 256.
Proof.
  unfold ack_byte. change 255 with (Z.ones 8). rewrite Z.land_ones by lia.
  apply Z.mod_pos_bound. lia.
Qed.

Lemma byte_land b : 0 <= b < 256 -> Z.land b 255 = b.
Proof.
  intros. change 255 with (Z.ones 8). rewrite Z.land_ones by lia.
  apply Z.mod_small. lia.
Qed.

Lemma set_byte0 a b c d x : 0 <= x < 256 ->
  wrap32 (Z.lor (Z.land (pack4 a b c d) 4294967040) (wrap32 (Z.shiftl x 0)))
  = pack4 x b c d.
Proof. intros Hx. rewrite <- (byte_land x Hx) at 1. bitwise. Qed.
Lemma set_byte1 a b c d x : 0 <= x < 256 ->
  wrap32 (Z.lor (Z.land (pack4 a b c d) 4294902015) (wrap32 (Z.shiftl x 8)))
  = pack4 a x c d.
Proof. intros Hx. rewrite <- (byte_land x Hx) at 1. bitwise. Qed.
Lemma set_byte2 a b c d x : 0 <= x < 256 ->
  wrap32 (Z.lor (Z.land (pack4 a b c d) 4278255615) (wrap32 (Z.shiftl x 16)))
  = pack4 a b x d.
Proof. intros Hx. rewrite <- (byte_land x Hx) at 1. bitwise. Qed.
Lemma set_byte3 a b c d x : 0 <= x < 256 ->
  wrap32 (Z.lor (Z.land (pack4 a b c d) 16777215) (wrap32 (Z.shiftl x 24)))
  = pack4 a b c x.
Proof. intros Hx. rewrite <- (byte_land x Hx) at 1. bitwise. Qed.

(** The four conditions and the four bytes of the writer, by byte. *)
Lemma writer_cond0 x : (Z.land x 255 =? 255) = (ack_byte x 0 =? 255).
Proof. now rewrite land_mask0. Qed.
Lemma writer_cond1 x : (Z.land x 65280 =? 65280) = (ack_byte x 1 =? 255).
Proof.
  rewrite land_mask1, Z.shiftl_mul_pow2 by lia.
  pose proof (ack_byte_range x 1).
  destruct (Z.eqb_spec (ack_byte x 1) 255), (Z.eqb_spec (ack_byte x 1 * 2 ^ 8) 65280); lia.
Qed.
Lemma writer_cond2 x : (Z.land x 16711680 =? 16711680) = (ack_byte x 2 =? 255).
Proof.
  rewrite land_mask2, Z.shiftl_mul_pow2 by lia.
  pose proof (ack_byte_range x 2).
  destruct (Z.eqb_spec (ack_byte x 2) 255), (Z.eqb_spec (ack_byte x 2 * 2 ^ 16) 16711680); lia.
Qed.
Lemma writer_cond3 x : (Z.land x 4278190080 =? 4278190080) = (ack_byte x 3 =? 255).
Proof.
  rewrite land_mask3, Z.shiftl_mul_pow2 by lia.
  pose proof (ack_byte_range x 3).
  destruct (Z.eqb_spec (ack_byte x 3) 255), (Z.eqb_spec (ack_byte x 3 * 2 ^ 24) 4278190080); lia.
Qed.

Lemma writer_byte0 x : wrap8 (Z.land x 255) = ack_byte x 0.
Proof. rewrite land_mask0. apply Z.mod_small, ack_byte_range. Qed.
Lemma writer_byte1 x : wrap8 (Z.shiftr (Z.land x 65280) 8) = ack_byte x 1.
Proof.
  rewrite land_mask1, Z.shiftr_shiftl_l, Z.sub_diag, Z.shiftl_0_r by lia.
  apply Z.mod_small, ack_byte_range.
Qed.
Lemma writer_byte2 x : wrap8 (Z.shiftr (Z.land x 16711680) 16) = ack_byte x 2.
Proof.
  rewrite land_mask2, Z.shiftr_shiftl_l, Z.sub_diag, Z.shiftl_0_r by lia.
  apply Z.mod_small, ack_byte_range.
Qed.
Lemma writer_byte3 x : wrap8 (Z.shiftr (Z.land x 4278190080) 24) = ack_byte x 3.
Proof.
  rewrite land_mask3, Z.shiftr_shiftl_l, Z.sub_diag, Z.shiftl_0_r by lia.
  apply Z.mod_small, ack_byte_range.
Qed.


(** The writer, once the bitmap is given by its four bytes. *)
Definition write_header_bytes (packet_data : list Z) (sequence ack b0 b1 b2 b3 : Z) : list Z * Z :=
  let m0 := negb (b0 =? 255) in
  let m1 := negb (b1 =? 255) in
  let m2 := negb (b2 =? 255) in
  let m3 := negb (b3 =? 255) in
  let prefix_byte := set_flag m3 4 (set_flag m2 3 (set_flag m1 2 (set_flag m0 1 0))) in
  let sequence_difference := wrap16 (sequence - ack) in
  let prefix_byte := set_flag (sequence_difference <=? 255) 5 prefix_byte in
  let p := WriteUint8 (packet_data, 0) prefix_byte in
  let p := WriteUint16 p sequence in
  let p :=
    if sequence_difference <=? 255
    then WriteUint8 p sequence_difference
    else WriteUint16 p ack in
  let p := when m0 (fun p => WriteUint8 p b0) p in
  let p := when m1 (fun p => WriteUint8 p b1) p in
  let p := when m2 (fun p => WriteUint8 p b2) p in
  let p := when m3 (fun p => WriteUint8 p b3) p in
  p.

Lemma WritePacketHeader_bytes packet_data sequence ack ack_bits :
  0 <= sequence < 65536 -> 0 <= ack < 65536 ->
  WritePacketHeader packet_data sequence ack ack_bits =
  write_header_bytes packet_data sequence ack
    (ack_byte ack_bits 0) (ack_byte ack_bits 1) (ack_byte ack_bits 2) (ack_byte ack_bits 3).
Proof.
  intros Hs Ha. unfold WritePacketHeader, write_header_bytes.
  rewrite writer_cond0, writer_cond1, writer_cond2, writer_cond3.
  rewrite writer_byte0, writer_byte1, writer_byte2, writer_byte3.
  assert (E : (if sequence - ack <? 0 then sequence - ack + 65536 else sequence - ack)
              = wrap16 (sequence - ack)).
  { rewrite Sequence.wrap16_sub by lia.
    destruct (Z.ltb_spec (sequence - ack) 0), (Z.leb_spec ack sequence); lia. }
  rewrite E.
  destruct (Z.leb_spec (wrap16 (sequence - ack)) 255) as [Hd|Hd]; [|reflexivity].
  unfold wrap8. rewrite (Z.mod_small (wrap16 (sequence - ack)) 256); [reflexivity|].
  pose proof (wrap16_range (sequence - ack)). lia.
Qed.


(** What the round trip of one header establishes, with the bitmap given by
    its bytes [b0 .. b3]. *)
Lemma read_back packet_data sequence ack b0 b1 b2 b3 out :
  0 <= sequence < 65536 -> 0 <= ack < 65536 ->
  0 <= b0 < 256 -> 0 <= b1 < 256 -> 0 <= b2 < 256 -> 0 <= b3 < 256 ->
  MAX_RUDP_HEADER_BYTES <= Z.of_nat (length packet_data) ->
  let buf := fst (write_header_bytes packet_data sequence ack b0 b1 b2 b3) in
  let n := snd (write_header_bytes packet_data sequence ack b0 b1 b2 b3) in
  let short := wrap16 (sequence - ack) <=? 255 in
  4 <= n <= 9 /\
  ReadPacketHeader buf n out = (n, mkHeader sequence ack (pack4 b0 b1 b2 b3)) /\
  flag (buf !!! 0%nat) 0 = false /\
  flag (buf !!! 0%nat) 5 = short /\
  flag (buf !!! 0%nat) 1 = negb (b0 =? 255) /\
  flag (buf !!! 0%nat) 2 = negb (b1 =? 255) /\
  flag (buf !!! 0%nat) 3 = negb (b2 =? 255) /\
  flag (buf !!! 0%nat) 4 = negb (b3 =? 255) /\
  take (Z.to_nat n) buf =
    [buf !!! 0%nat; sequence mod 256; (sequence / 256) mod 256]
    ++ (if short then [wrap16 (sequence - ack)]
        else [ack mod 256; (ack / 256) mod 256])
    ++ List.filter (fun b => negb (b =? 255)) [b0; b1; b2; b3].
Proof.
  intros Hs Ha R0 R1 R2 R3 Hlen.
  do 9 (destruct packet_data as [|? packet_data];
        [simpl in Hlen; unfold MAX_RUDP_HEADER_BYTES in Hlen; lia|]).
  clear Hlen.
  unfold write_header_bytes.
  pose proof (wrap16_range (sequence - ack)) as Hd.
  assert (Hd' : wrap16 (sequence - wrap16 (sequence - ack)) = ack).
  { rewrite (Sequence.wrap16_sub sequence ack) by lia.
    destruct (Z.leb_spec ack sequence); rewrite Sequence.wrap16_sub by lia.
    - destruct (Z.leb_spec (sequence - ack) sequence); lia.
    - destruct (Z.leb_spec (sequence - ack + 65536) sequence); lia. }
  generalize dependent (wrap16 (sequence - ack)). intros d Hd Hd'.
  assert (Hseq : sequence mod 256 + 256 * ((sequence / 256) mod 256) = sequence).
  { rewrite (Z.mod_small (sequence / 256) 256).
    - pose proof (Z.div_mod sequence 256). lia.
    - split. apply Z.div_pos; lia. apply Z.div_lt_upper_bound; lia. }
  assert (Hack : ack mod 256 + 256 * ((ack / 256) mod 256) = ack).
  { rewrite (Z.mod_small (ack / 256) 256).
    - pose proof (Z.div_mod ack 256). lia.
    - split. apply Z.div_pos; lia. apply Z.div_lt_upper_bound; lia. }
  unfold WriteUint16, WriteUint8.
  generalize dependent (sequence mod 256). intros s0.
  generalize dependent ((sequence / 256) mod 256). intros s1 Hseq.
  generalize dependent (ack mod 256). intros a0.
  generalize dependent ((ack / 256) mod 256). intros a1 Hack.
  simpl List.filter.
  destruct (Z.leb_spec d 255) as [Hshort|Hlong];
  destruct (Z.eqb_spec b0 255) as [E0|E0];
  destruct (Z.eqb_spec b1 255) as [E1|E1];
  destruct (Z.eqb_spec b2 255) as [E2|E2];
  destruct (Z.eqb_spec b3 255) as [E3|E3]; simpl.
  all: unfold ReadPacketHeader, ReadUint8, ReadUint16, flag, read_ack_byte,
         MIN_RUDP_HEADER_BYTES; simpl.
  all: change 4294967295 with (pack4 255 255 255 255).
  all: repeat first [rewrite set_byte0 by lia | rewrite set_byte1 by lia
                    | rewrite set_byte2 by lia | rewrite set_byte3 by lia].
  all: rewrite ?Hseq, ?Hack, ?Hd'; subst.
  all: split; [lia|]; repeat split; reflexivity.
Qed.

(** C8: the header written for any sequence, ack and bitmap is 4 to 9 bytes
    long and reads back to the same three values.  The layout is as the
    claim gives it: a prefix byte whose bit 0 is clear, whose bit 5 says
    that the ack is the one-byte difference [(sequence - ack) mod 65536 <=
    255] and whose bits 1..4 say which bitmap bytes are not all-ones; then
    the sequence in two bytes, the ack in one byte or two, and the bitmap
    bytes that are present, least significant first. *)
Theorem WritePacketHeader_ReadPacketHeader packet_data sequence ack ack_bits out :
  0 <= sequence < 65536 -> 0 <= ack < 65536 -> 0 <= ack_bits < 4294967296 ->
  MAX_RUDP_HEADER_BYTES <= Z.of_nat (length packet_data) ->
  let buf := fst (WritePacketHeader packet_data sequence ack ack_bits) in
  let n := snd (WritePacketHeader packet_data sequence ack ack_bits) in
  let short := wrap16 (sequence - ack) <=? 255 in
  4 <= n <= 9 /\
  ReadPacketHeader buf n out = (n, mkHeader sequence ack ack_bits) /\
  flag (buf !!! 0%nat) 0 = false /\
  flag (buf !!! 0%nat) 5 = short /\
  flag (buf !!! 0%nat) 1 = negb (ack_byte ack_bits 0 =? 255) /\
  flag (buf !!! 0%nat) 2 = negb (ack_byte ack_bits 1 =? 255) /\
  flag (buf !!! 0%nat) 3 = negb (ack_byte ack_bits 2 =? 255) /\
  flag (buf !!! 0%nat) 4 = negb (ack_byte ack_bits 3 =? 255) /\
  take (Z.to_nat n) buf =
    [buf !!! 0%nat; sequence mod 256; (sequence / 256) mod 256]
    ++ (if short then [wrap16 (sequence - ack)]
        else [ack mod 256; (ack / 256) mod 256])
    ++ List.filter (fun b => negb (b =? 255))
         [ack_byte ack_bits 0; ack_byte ack_bits 1; ack_byte ack_bits 2;
          ack_byte ack_bits 3].
Proof.
  intros Hs Ha Hb Hlen.
  rewrite WritePacketHeader_bytes by assumption.
  pose proof (read_back packet_data sequence ack
                (ack_byte ack_bits 0) (ack_byte ack_bits 1)
                (ack_byte ack_bits 2) (ack_byte ack_bits 3) out
                Hs Ha (ack_byte_range _ _) (ack_byte_range _ _)
                (ack_byte_range _ _) (ack_byte_range _ _) Hlen) as H.
  rewrite (pack4_unpack ack_bits Hb) in H. exact H.
Qed.

Lemma WritePacketHeader_ReadPacketHeader_witness :
  ReadPacketHeader (fst (WritePacketHeader (replicate 9 0) 1000 500 0))
                   (snd (WritePacketHeader (replicate 9 0) 1000 500 0))
                   (mkHeader 0 0 0)
  = (snd (WritePacketHeader (replicate 9 0) 1000 500 0), mkHeader 1000 500 0).
Proof.
  refine (proj1 (proj2 (WritePacketHeader_ReadPacketHeader
                          (replicate 9 0) 1000 500 0 (mkHeader 0 0 0) _ _ _ _)));
    try lia.
  unfold MAX_RUDP_HEADER_BYTES. simpl. lia.
Defined.

(** *** Sizes *)

(** The header [WritePacketHeader] writes is between
    [MIN_RUDP_HEADER_BYTES] and [MAX_RUDP_HEADER_BYTES] long, for every
    sequence, ack and bitmap: the prefix byte, two bytes of sequence, one or
    two bytes of ack and one byte for each byte of the bitmap that is not
    0xFF. *)
Theorem WritePacketHeader_length (packet_data : list Z) (sequence ack ack_bits : Z) :
  MIN_RUDP_HEADER_BYTES <= snd (WritePacketHeader packet_data sequence ack ack_bits)
  <= MAX_RUDP_HEADER_BYTES.
Proof.
  unfold WritePacketHeader, MIN_RUDP_HEADER_BYTES, MAX_RUDP_HEADER_BYTES, when.
  cbv zeta.
  destruct (negb (Z.land ack_bits 255 =? 255)),
           (negb (Z.land ack_bits 65280 =? 65280)),
           (negb (Z.land ack_bits 16711680 =? 16711680)),
           (negb (Z.land ack_bits 4278190080 =? 4278190080)),
           ((if sequence - ack <? 0 then sequence - ack + 65536 else sequence - ack)
            <=? 255);
    cbn [WriteUint8 WriteUint16 snd fst]; lia.
Qed.

(** [ReadPacketHeader] returns -1 or the number of bytes it has read, and
    that number is within the packet: at least [MIN_RUDP_HEADER_BYTES], at
    most [MAX_RUDP_HEADER_BYTES] and never more than [packet_bytes].  A
    packet shorter than the minimum, or one whose prefix byte has bit 0 set
    (a fragment packet), is refused with the out-parameters untouched. *)
Theorem ReadPacketHeader_within_packet (packet_data : list Z) (packet_bytes : Z)
    (out : header) :
  let result := ReadPacketHeader packet_data packet_bytes out in
  (fst result = -1 \/
   (MIN_RUDP_HEADER_BYTES <= fst result <= MAX_RUDP_HEADER_BYTES /\
    fst result <= packet_bytes)) /\
  (packet_bytes < MIN_RUDP_HEADER_BYTES -> result = (-1, out)) /\
  (Z.odd (packet_data !!! 0%nat) = true -> result = (-1, out)).
Proof.
  cbv zeta. unfold ReadPacketHeader, MIN_RUDP_HEADER_BYTES, MAX_RUDP_HEADER_BYTES.
  destruct (Z.ltb_spec packet_bytes 4) as [Hshort|Hlong].
  { split; [now left|]. split; reflexivity. }
  cbn [ReadUint8 ReadUint16 fst snd].
  change (Z.to_nat 0) with 0%nat.
  assert (Hodd : forall u, Z.land u 1 = u mod 2).
  { intros u. change 1 with (Z.ones 1). now rewrite Z.land_ones by lia. }
  rewrite Hodd, Zmod_odd.
  destruct (Z.odd (packet_data !!! 0%nat)).
  { split; [now left|]. split; [lia | reflexivity]. }
  cbn [Z.eqb negb]. split; [|split; [lia | discriminate]].
  destruct (flag (packet_data !!! 0%nat) 5); cbn [negb andb].
  - cbn [ReadUint8 fst snd].
    destruct (flag (packet_data !!! 0%nat) 1), (flag (packet_data !!! 0%nat) 2),
             (flag (packet_data !!! 0%nat) 3), (flag (packet_data !!! 0%nat) 4);
      cbn [Z.add Pos.add Pos.succ];
      match goal with |- context [packet_bytes <? ?k] => destruct (Z.ltb_spec packet_bytes k) end;
      cbn [fst]; try (now left);
      right; unfold read_ack_byte; cbn [ReadUint8 fst snd]; lia.
  - destruct (Z.ltb_spec packet_bytes (3 + 2)); [cbn [fst]; now left|].
    cbn [ReadUint16 fst snd].
    destruct (flag (packet_data !!! 0%nat) 1), (flag (packet_data !!! 0%nat) 2),
             (flag (packet_data !!! 0%nat) 3), (flag (packet_data !!! 0%nat) 4);
      cbn [Z.add Pos.add Pos.succ];
      match goal with |- context [packet_bytes <? ?k] => destruct (Z.ltb_spec packet_bytes k) end;
      cbn [fst]; try (now left);
      right; unfold read_ack_byte; cbn [ReadUint8 fst snd]; lia.
Qed.

(** *** Fragment packets (SerialiseReliable.h) *)

Definition FRAGMENT_HEADER_BYTES : Z := 5.

(** A call on a pointer into the buffer: the function gets the buffer from
    [offset] on, and what lies before stays as it is. *)
Definition at_offset (offset : Z) (f : list Z -> list Z * Z) (buffer : list Z) : list Z * Z :=
  (take (Z.to_nat offset) buffer ++ fst (f (drop (Z.to_nat offset) buffer)),
   snd (f (drop (Z.to_nat offset) buffer))).

(** [WriteFaragmentHeader<fragment_size>]: [source], [q] and [end_] are the
    payload, the read position [*q] in it and its end; the result is the
    packet buffer, the advanced [*q] and the returned length. *)
Definition WriteFaragmentHeader (fragment_size : Z) (packet_data source : list Z)
    (q end_ number_of_fragments faragment_id sequence ack ack_bits : Z)
  : list Z * Z * Z :=
  let p := WriteUint8 (packet_data, 0) 1 in
  let p := WriteUint16 p sequence in
  let p := WriteUint8 p (wrap8 faragment_id) in
  let p := WriteUint8 p (wrap8 (number_of_fragments - 1)) in
  let p :=
    if faragment_id =? 0 then
      let written :=
        at_offset (snd p) (fun tail => WritePacketHeader tail sequence ack ack_bits)
          (fst p) in
      (fst written, snd p + snd written)
    else p in
  let bytes_to_copy := if end_ <? q + fragment_size then end_ - q else fragment_size in
  (Bits.copy_n source q bytes_to_copy (fst p) (snd p), q + bytes_to_copy,
   snd p + bytes_to_copy).

(** The out-parameters of [ReadFragmentHeader]. *)
Record fragment_header := mkFragment {
  f_fragment_id : Z;
  f_num_fragments : Z;
  f_fragment_bytes : Z;
  f_sequence : Z;
  f_ack : Z;
  f_ack_bits : Z
}.

(** The end of [ReadFragmentHeader], from the assignment of [ack] and
    [ack_bits] on; [p] is still behind the five bytes of the fragment
    header, whether a packet header follows them or not. *)
Definition check_fragment_size (fragment_size : Z) (p : cursor) (out : fragment_header)
  : Z * fragment_header :=
  if fragment_size <? f_fragment_bytes out then (-1, out)
  else if negb (f_fragment_id out =? f_num_fragments out - 1)
          && negb (f_fragment_bytes out =? fragment_size)
  then (-1, out)
  else (snd p, out).

(** [ReadFragmentHeader<max_number_of_fragments, fragment_size>]: the
    return value and the out-parameters, which keep the caller's values
    [out] on the paths that do not assign them. *)
Definition ReadFragmentHeader (max_number_of_fragments fragment_size : Z)
    (packet_data : list Z) (packet_bytes : Z) (out : fragment_header)
  : Z * fragment_header :=
  if packet_bytes <? FRAGMENT_HEADER_BYTES then (-1, out)
  else
    let '(prefix_byte, p) := ReadUint8 (packet_data, 0) in
    if negb (prefix_byte =? 1) then (-1, out)
    else
      let '(sequence, p) := ReadUint16 p in
      let '(fragment_id, p) := ReadUint8 p in
      let '(last_fragment, p) := ReadUint8 p in
      let num_fragments := last_fragment + 1 in
      let out :=
        mkFragment fragment_id num_fragments (f_fragment_bytes out) sequence
          (f_ack out) (f_ack_bits out) in
      if max_number_of_fragments <? num_fragments then (-1, out)
      else if num_fragments <=? fragment_id then (-1, out)
      else
        let out :=
          mkFragment fragment_id num_fragments (packet_bytes - FRAGMENT_HEADER_BYTES)
            sequence (f_ack out) (f_ack_bits out) in
        if fragment_id =? 0 then
          let '(packet_header_bytes, packet_header) :=
            ReadPacketHeader (drop (Z.to_nat FRAGMENT_HEADER_BYTES) packet_data)
              packet_bytes (mkHeader 0 0 0) in
          if packet_header_bytes <? 0 then (-1, out)
          else if negb (h_sequence packet_header =? sequence) then (-1, out)
          else
            check_fragment_size fragment_size p
              (mkFragment fragment_id num_fragments
                 (packet_bytes - packet_header_bytes - FRAGMENT_HEADER_BYTES)
                 sequence (h_ack packet_header) (h_ack_bits packet_header))
        else
          check_fragment_size fragment_size p
            (mkFragment fragment_id num_fragments (packet_bytes - FRAGMENT_HEADER_BYTES)
               sequence 0 0).

Example fragment_1_of_3 :
  WriteFaragmentHeader 4 (replicate 18 0) [10; 11; 12; 13; 14; 15; 16; 17; 18] 4 9 3 1
    1000 500 0
  = ([1; 232; 3; 1; 2; 14; 15; 16; 17; 0; 0; 0; 0; 0; 0; 0; 0; 0], 8, 9).
Proof. vm_compute. reflexivity. Qed.

Example fragment_0_of_3 :
  WriteFaragmentHeader 4 (replicate 18 0) [10; 11; 12; 13; 14; 15; 16; 17; 18] 0 9 3 0
    1000 500 0
  = ([1; 232; 3; 0; 2; 30; 232; 3; 244; 1; 0; 0; 0; 0; 10; 11; 12; 13], 4, 18).
Proof. vm_compute. reflexivity. Qed.

(** **** What the payload copy leaves alone *)

Lemma length_copy_n source q n dst offset :
  length (Bits.copy_n source q n dst offset) = length dst.
Proof.
  unfold Bits.copy_n. generalize (seqZ 0 n). intros l. revert dst.
  induction l as [|k l IH]; intros dst; cbn [fold_left]; [reflexivity|].
  now rewrite IH, length_insert.
Qed.

Lemma copy_n_below source q n dst offset k :
  0 <= offset -> (k < Z.to_nat offset)%nat ->
  Bits.copy_n source q n dst offset !!! k = dst !!! k.
Proof.
  intros Hoff Hk. unfold Bits.copy_n.
  assert (Hl : Forall (fun i => 0 <= i) (seqZ 0 n)).
  { apply Forall_forall. intros i Hi%elem_of_seqZ. lia. }
  revert Hl. generalize (seqZ 0 n). intros l Hl. revert dst.
  induction Hl as [|i l Hi _ IH]; intros dst; cbn [fold_left]; [reflexivity|].
  rewrite IH. apply list_lookup_total_insert_ne. lia.
Qed.

(** **** [ReadPacketHeader] reads the header bytes only *)

Lemma ReadPacketHeader_prefix buf buf' n packet_bytes out h :
  ReadPacketHeader buf n out = (n, h) -> 0 <= n ->
  (forall k, (k < Z.to_nat n)%nat -> buf' !!! k = buf !!! k) ->
  n <= packet_bytes ->
  ReadPacketHeader buf' packet_bytes out = (n, h).
Proof.
  intros Hread Hnonneg Hsame Hbytes. revert Hread.
  unfold ReadPacketHeader, MIN_RUDP_HEADER_BYTES.
  destruct (Z.ltb_spec n 4) as [Hshort|Hlong]; [intros [= Hn _]; lia|].
  destruct (Z.ltb_spec packet_bytes 4); [lia|].
  cbn [ReadUint8 ReadUint16 fst snd].
  change (Z.to_nat 0) with 0%nat. change (Z.to_nat (0 + 1)) with 1%nat.
  change (Z.to_nat (0 + 1 + 1)) with 2%nat.
  rewrite (Hsame 0%nat), (Hsame 1%nat), (Hsame 2%nat) by lia.
  destruct (negb (Z.land (buf !!! 0%nat) 1 =? 0)); [intros [= Hn _]; lia|].
  destruct (flag (buf !!! 0%nat) 5); cbn [negb andb].
  - cbn [ReadUint8 fst snd]. change (Z.to_nat (0 + 1 + 2)) with 3%nat.
    rewrite (Hsame 3%nat) by lia.
    destruct (flag (buf !!! 0%nat) 1), (flag (buf !!! 0%nat) 2),
             (flag (buf !!! 0%nat) 3), (flag (buf !!! 0%nat) 4);
      cbn [Z.add Pos.add Pos.succ];
      match goal with
      | |- context [n <? ?k] => destruct (Z.ltb_spec n k); [intros [= Hn _]; lia|]
      end;
      unfold read_ack_byte; cbn [ReadUint8 fst snd Z.add Pos.add Pos.succ Z.to_nat
                                   Pos.to_nat Pos.iter_op Init.Nat.add];
      intros [= Hn <-]; subst n;
      match goal with
      | |- context [packet_bytes <? ?k] => destruct (Z.ltb_spec packet_bytes k); [lia|]
      end;
      rewrite ?Hsame by lia; reflexivity.
  - destruct (Z.ltb_spec n (3 + 2)); [intros [= Hn _]; lia|].
    destruct (Z.ltb_spec packet_bytes (3 + 2)); [lia|].
    cbn [ReadUint16 fst snd]. change (Z.to_nat (0 + 1 + 2)) with 3%nat.
    change (Z.to_nat (0 + 1 + 2 + 1)) with 4%nat.
    rewrite (Hsame 3%nat), (Hsame 4%nat) by lia.
    destruct (flag (buf !!! 0%nat) 1), (flag (buf !!! 0%nat) 2),
             (flag (buf !!! 0%nat) 3), (flag (buf !!! 0%nat) 4);
      cbn [Z.add Pos.add Pos.succ];
      match goal with
      | |- context [n <? ?k] => destruct (Z.ltb_spec n k); [intros [= Hn _]; lia|]
      end;
      unfold read_ack_byte; cbn [ReadUint8 fst snd Z.add Pos.add Pos.succ Z.to_nat
                                   Pos.to_nat Pos.iter_op Init.Nat.add];
      intros [= Hn <-]; subst n;
      match goal with
      | |- context [packet_bytes <? ?k] => destruct (Z.ltb_spec packet_bytes k); [lia|]
      end;
      rewrite ?Hsame by lia; reflexivity.
Qed.

(** A packet header read back from the buffer it was written to, when the
    reader is given more bytes than the header has. *)
Lemma WritePacketHeader_read_back packet_data sequence ack ack_bits :
  0 <= sequence < 65536 -> 0 <= ack < 65536 -> 0 <= ack_bits < 4294967296 ->
  MAX_RUDP_HEADER_BYTES <= Z.of_nat (length packet_data) ->
  4 <= snd (WritePacketHeader packet_data sequence ack ack_bits) <= 9 /\
  ReadPacketHeader (fst (WritePacketHeader packet_data sequence ack ack_bits))
    (snd (WritePacketHeader packet_data sequence ack ack_bits)) (mkHeader 0 0 0)
  = (snd (WritePacketHeader packet_data sequence ack ack_bits),
     mkHeader sequence ack ack_bits).
Proof.
  intros Hs Ha Hb Hlen.
  rewrite WritePacketHeader_bytes by assumption.
  pose proof (read_back packet_data sequence ack
                (ack_byte ack_bits 0) (ack_byte ack_bits 1)
                (ack_byte ack_bits 2) (ack_byte ack_bits 3) (mkHeader 0 0 0)
                Hs Ha (ack_byte_range _ _) (ack_byte_range _ _)
                (ack_byte_range _ _) (ack_byte_range _ _) Hlen) as H.
  cbv zeta in H. rewrite (pack4_unpack ack_bits Hb) in H.
  destruct H as (Hn & Hread & _). split; assumption.
Qed.

(** One fragment packet, read back. *)
Lemma fragment_reads_back
    (fragment_size max_number_of_fragments : Z) (packet_data source : list Z)
    (q end_ number_of_fragments fragment_id sequence ack ack_bits : Z)
    (out : fragment_header) :
  0 <= sequence < 65536 -> 0 <= ack < 65536 -> 0 <= ack_bits < 4294967296 ->
  0 <= fragment_id < number_of_fragments ->
  number_of_fragments <= max_number_of_fragments -> number_of_fragments <= 256 ->
  0 <= q <= end_ -> 0 <= fragment_size ->
  (fragment_id <> number_of_fragments - 1 -> q + fragment_size <= end_) ->
  FRAGMENT_HEADER_BYTES + MAX_RUDP_HEADER_BYTES <= Z.of_nat (length packet_data) ->
  let written :=
    WriteFaragmentHeader fragment_size packet_data source q end_ number_of_fragments
      fragment_id sequence ack ack_bits in
  let buffer := fst (fst written) in
  let payload_bytes := snd (fst written) - q in
  let packet_bytes := snd written in
  ReadFragmentHeader max_number_of_fragments fragment_size buffer packet_bytes out
  = (FRAGMENT_HEADER_BYTES,
     mkFragment fragment_id number_of_fragments payload_bytes sequence
       (if fragment_id =? 0 then ack else 0)
       (if fragment_id =? 0 then ack_bits else 0)) /\
  packet_bytes
  = FRAGMENT_HEADER_BYTES
    + (if fragment_id =? 0
       then snd (WritePacketHeader (drop 5 packet_data) sequence ack ack_bits) else 0)
    + payload_bytes.
Proof.
  intros Hs Ha Hb Hid Hmax H256 Hq Hsize Hfull Hlen. cbv zeta.
  unfold FRAGMENT_HEADER_BYTES, MAX_RUDP_HEADER_BYTES in *.
  do 5 (destruct packet_data as [|? packet_data]; [cbn [length] in Hlen; lia|]).
  cbn [length] in Hlen. cbn [drop]. rewrite drop_0.
  assert (Hp : WriteUint8
                 (WriteUint8
                    (WriteUint16 (WriteUint8 (z :: z0 :: z1 :: z2 :: z3 :: packet_data, 0) 1)
                       sequence)
                    (wrap8 fragment_id))
                 (wrap8 (number_of_fragments - 1))
               = (1 :: sequence mod 256 :: (sequence / 256) mod 256 :: wrap8 fragment_id
                    :: wrap8 (number_of_fragments - 1) :: packet_data, 5))
    by reflexivity.
  unfold WriteFaragmentHeader. cbv zeta. rewrite Hp. clear Hp. cbn [fst snd].
  change (Z.to_nat 5) with 5%nat.
  set (n := if end_ <? q + fragment_size then end_ - q else fragment_size).
  assert (Hn : 0 <= n <= fragment_size /\
               (fragment_id <> number_of_fragments - 1 -> n = fragment_size)).
  { subst n. destruct (Z.ltb_spec end_ (q + fragment_size)); lia. }
  destruct Hn as [Hn Hnfull].
  assert (Hseq : sequence mod 256 + 256 * ((sequence / 256) mod 256) = sequence).
  { Z.div_mod_to_equations. lia. }
  assert (Hidb : wrap8 fragment_id = fragment_id) by (apply Z.mod_small; lia).
  assert (Hnfb : wrap8 (number_of_fragments - 1) = number_of_fragments - 1)
    by (apply Z.mod_small; lia).
  rewrite Hidb, Hnfb.
  (* the five bytes of the fragment header, as the reader finds them *)
  assert (Hheader : forall tail (offset : Z), 5 <= offset ->
            let buffer :=
              Bits.copy_n source q n
                (1 :: sequence mod 256 :: (sequence / 256) mod 256 :: fragment_id
                   :: number_of_fragments - 1 :: tail) offset in
            buffer !!! Z.to_nat 0 = 1 /\
            buffer !!! Z.to_nat (0 + 1) = sequence mod 256 /\
            buffer !!! Z.to_nat (0 + 1 + 1) = (sequence / 256) mod 256 /\
            buffer !!! Z.to_nat (0 + 1 + 2) = fragment_id /\
            buffer !!! Z.to_nat (0 + 1 + 2 + 1) = number_of_fragments - 1).
  { intros tail offset Hoffset. cbv zeta.
    repeat split; rewrite copy_n_below by lia; reflexivity. }
  unfold ReadFragmentHeader, FRAGMENT_HEADER_BYTES.
  destruct (Z.eqb_spec fragment_id 0) as [Hfirst|Hlater].
  - (* fragment 0: the packet header follows *)
    subst fragment_id.
    destruct (WritePacketHeader_read_back packet_data sequence ack ack_bits Hs Ha Hb
                ltac:(unfold MAX_RUDP_HEADER_BYTES; lia)) as [Hlen' Hread].
    unfold at_offset. change (Z.to_nat 5) with 5%nat. cbn [fst snd].
    change (drop 5 (1 :: sequence mod 256 :: (sequence / 256) mod 256 :: 0
                      :: number_of_fragments - 1 :: packet_data)) with packet_data.
    change (take 5 (1 :: sequence mod 256 :: (sequence / 256) mod 256 :: 0
                      :: number_of_fragments - 1 :: packet_data))
      with [1; sequence mod 256; (sequence / 256) mod 256; 0; number_of_fragments - 1].
    cbn [app].
    set (header := WritePacketHeader packet_data sequence ack ack_bits) in *.
    split; [|lia].
    destruct (Z.ltb_spec (5 + snd header + n) 5); [lia|].
    destruct (Hheader (fst header) (5 + snd header) ltac:(lia)) as (E0 & E1 & E2 & E3 & E4).
    cbn [ReadUint8 ReadUint16 fst snd Z.add Z.to_nat Pos.to_nat Pos.iter_op Init.Nat.add
           Pos.add Pos.succ].
    rewrite E0, E1, E2, E3, E4. cbn [Z.eqb Pos.eqb negb].
    rewrite Hseq.
    replace (number_of_fragments - 1 + 1) with number_of_fragments by lia.
    destruct (Z.ltb_spec max_number_of_fragments number_of_fragments); [lia|].
    destruct (Z.leb_spec number_of_fragments 0); [lia|].
    rewrite (ReadPacketHeader_prefix (fst header) _ (snd header) (5 + snd header + n)
               (mkHeader 0 0 0) (mkHeader sequence ack ack_bits) Hread);
      [|lia| |lia].
    + cbn [h_sequence h_ack h_ack_bits].
      destruct (Z.ltb_spec (snd header) 0); [lia|].
      rewrite Z.eqb_refl. cbn [negb].
      unfold check_fragment_size.
      cbn [f_fragment_bytes f_fragment_id f_num_fragments snd].
      replace (5 + snd header + n - snd header - 5) with n by lia.
      replace (q + n - q) with n by lia.
      destruct (Z.ltb_spec fragment_size n); [lia|].
      destruct (Z.eqb_spec 0 (number_of_fragments - 1)) as [Hlast|Hnot]; cbn [negb andb].
      * reflexivity.
      * rewrite Hnfull by lia. now rewrite Z.eqb_refl.
    + intros k Hk. rewrite lookup_total_drop.
      rewrite copy_n_below by lia.
      do 5 (cbn [Init.Nat.add]; try reflexivity).
  - (* a later fragment: the payload follows at once *)
    cbn [fst snd]. split; [|lia].
    destruct (Z.ltb_spec (5 + n) 5); [lia|].
    destruct (Hheader packet_data 5 ltac:(lia)) as (E0 & E1 & E2 & E3 & E4).
    cbn [ReadUint8 ReadUint16 fst snd Z.add Z.to_nat Pos.to_nat Pos.iter_op Init.Nat.add
           Pos.add Pos.succ].
    rewrite E0, E1, E2, E3, E4. cbn [Z.eqb Pos.eqb negb].
    rewrite Hseq.
    replace (number_of_fragments - 1 + 1) with number_of_fragments by lia.
    destruct (Z.ltb_spec max_number_of_fragments number_of_fragments); [lia|].
    destruct (Z.leb_spec number_of_fragments fragment_id); [lia|].
    destruct (Z.eqb_spec fragment_id 0); [lia|].
    unfold check_fragment_size.
    cbn [f_fragment_bytes f_fragment_id f_num_fragments snd].
    replace (5 + n - 5) with n by lia.
    replace (q + n - q) with n by lia.
    destruct (Z.ltb_spec fragment_size n); [lia|].
    destruct (Z.eqb_spec fragment_id (number_of_fragments - 1)) as [Hlast|Hnot];
      cbn [negb andb].
    + reflexivity.
    + rewrite Hnfull by lia. now rewrite Z.eqb_refl.
Qed.



Lemma ReadPacketHeader_within_packet_witness :
  ReadPacketHeader [1; 0; 0; 0] 4 (mkHeader 0 0 0) = (-1, mkHeader 0 0 0).
Proof.
  exact (proj2 (proj2 (ReadPacketHeader_within_packet [1; 0; 0; 0] 4 (mkHeader 0 0 0)))
           eq_refl).
Defined.

(** **** All the fragments of a packet *)

(** The fragment loop of [SerialiseTo_rUDPPacket]: every fragment is
    written into the same buffer and handed to [Send_rUDPPacket] with its
    length; [q] runs through the packet. *)
Fixpoint send_fragments (fragment_size : Z) (buffer source : list Z)
    (q end_ number_of_fragments sequence ack ack_bits : Z) (fragment_ids : list Z)
  : list (list Z * Z) :=
  match fragment_ids with
  | [] => []
  | fragment_id :: rest =>
      let written :=
        WriteFaragmentHeader fragment_size buffer source q end_ number_of_fragments
          fragment_id sequence ack ack_bits in
      (fst (fst written), snd written)
      :: send_fragments fragment_size (fst (fst written)) source (snd (fst written)) end_
           number_of_fragments sequence ack ack_bits rest
  end.

(** [(packet_bytes / fragment_size) + ((packet_bytes % fragment_size) != 0 ? 1 : 0)] *)
Definition fragments_needed (packet_bytes fragment_size : Z) : Z :=
  packet_bytes / fragment_size + (if packet_bytes mod fragment_size =? 0 then 0 else 1).

Lemma length_WritePacketHeader packet_data sequence ack ack_bits :
  length (fst (WritePacketHeader packet_data sequence ack ack_bits)) = length packet_data.
Proof.
  unfold WritePacketHeader, when. cbv zeta.
  destruct (negb (Z.land ack_bits 255 =? 255)),
           (negb (Z.land ack_bits 65280 =? 65280)),
           (negb (Z.land ack_bits 16711680 =? 16711680)),
           (negb (Z.land ack_bits 4278190080 =? 4278190080)),
           ((if sequence - ack <? 0 then sequence - ack + 65536 else sequence - ack)
            <=? 255);
    cbn [WriteUint8 WriteUint16 fst snd]; now rewrite !length_insert.
Qed.

Lemma length_WriteFaragmentHeader fragment_size packet_data source q end_
    number_of_fragments fragment_id sequence ack ack_bits :
  length (fst (fst (WriteFaragmentHeader fragment_size packet_data source q end_
                      number_of_fragments fragment_id sequence ack ack_bits)))
  = length packet_data.
Proof.
  unfold WriteFaragmentHeader. cbv zeta. cbn [fst snd]. rewrite length_copy_n.
  destruct (fragment_id =? 0); cbn [fst snd WriteUint8 WriteUint16].
  - unfold at_offset. cbn [fst].
    rewrite length_app, length_WritePacketHeader, <- length_app, take_drop.
    now rewrite !length_insert.
  - now rewrite !length_insert.
Qed.

Lemma send_fragments_read_back fragment_size max_number_of_fragments source
    packet_bytes sequence ack ack_bits out (m : nat) : forall buffer first,
  0 <= sequence < 65536 -> 0 <= ack < 65536 -> 0 <= ack_bits < 4294967296 ->
  0 < fragment_size -> 0 < packet_bytes ->
  let n := fragments_needed packet_bytes fragment_size in
  n <= max_number_of_fragments -> n <= 256 ->
  FRAGMENT_HEADER_BYTES + MAX_RUDP_HEADER_BYTES <= Z.of_nat (length buffer) ->
  0 <= first -> first + Z.of_nat m = n ->
  map (fun sent =>
         ReadFragmentHeader max_number_of_fragments fragment_size (fst sent) (snd sent) out)
      (send_fragments fragment_size buffer source (first * fragment_size) packet_bytes n
         sequence ack ack_bits (seqZ first (Z.of_nat m)))
  = map (fun fragment_id =>
           (FRAGMENT_HEADER_BYTES,
            mkFragment fragment_id n
              (Z.min fragment_size (packet_bytes - fragment_id * fragment_size)) sequence
              (if fragment_id =? 0 then ack else 0)
              (if fragment_id =? 0 then ack_bits else 0)))
        (seqZ first (Z.of_nat m)).
Proof.
  induction m as [|m IH]; intros buffer first Hs Ha Hb Hsize Hbytes n Hmax H256 Hlen
    Hfirst Hcount; [reflexivity|].
  rewrite seqZ_cons by lia.
  replace (Z.pred (Z.of_nat (S m))) with (Z.of_nat m) by lia.
  cbn [send_fragments map fst snd].
  assert (Hn : (n - 1) * fragment_size < packet_bytes <= n * fragment_size).
  { subst n. unfold fragments_needed.
    destruct (Z.eqb_spec (packet_bytes mod fragment_size) 0);
      Z.div_mod_to_equations; nia. }
  assert (Hq : first * fragment_size <= (n - 1) * fragment_size) by nia.
  destruct (fragment_reads_back fragment_size max_number_of_fragments buffer source
              (first * fragment_size) packet_bytes n first sequence ack ack_bits out
              Hs Ha Hb ltac:(lia) Hmax H256 ltac:(nia) ltac:(lia)
              ltac:(intros; nia) Hlen) as [Hread Hlength].
  cbv zeta in Hread.
  set (written := WriteFaragmentHeader fragment_size buffer source (first * fragment_size)
                    packet_bytes n first sequence ack ack_bits) in *.
  assert (Hnext : snd (fst written) = Z.succ first * fragment_size
                  \/ Z.of_nat m = 0).
  { subst written. unfold WriteFaragmentHeader. cbv zeta. cbn [fst snd].
    destruct (Z.ltb_spec packet_bytes (first * fragment_size + fragment_size)).
    - right. nia.
    - left. lia. }
  f_equal.
  - rewrite Hread. f_equal. f_equal.
    subst written. unfold WriteFaragmentHeader. cbv zeta. cbn [fst snd].
    destruct (Z.ltb_spec packet_bytes (first * fragment_size + fragment_size)); lia.
  - destruct Hnext as [Hnext|Hlast].
    + rewrite Hnext. apply IH; try assumption; try lia.
      subst written. now rewrite length_WriteFaragmentHeader.
    + rewrite Hlast. reflexivity.
Qed.



End Header.

(** ** Arrays

    A [std::array] is a list read and written at an index of [Z].  An index
    outside the array is undefined behaviour in C++ (the classes guard the
    connection index with [ASSERT_CRASH]); here a read outside yields the
    default element and a write outside does nothing. *)

Definition aget {A} `{Inhabited A} (a : list A) (i : Z) : A :=
  if i <? 0 then inhabitant else a !!! Z.to_nat i.

Definition aset {A} (a : list A) (i : Z) (v : A) : list A :=
  if i <? 0 then a else <[Z.to_nat i := v]> a.

(** [std::fill(&a[first], &a[last], v)] *)
Definition afill {A} (a : list A) (first last : Z) (v : A) : list A :=
  fold_left (fun m k => aset m k v) (seqZ first (last - first)) a.

Lemma length_aset {A} (a : list A) i v : length (aset a i v) = length a.
Proof. unfold aset. destruct (i <? 0); [reflexivity | apply length_insert]. Qed.

Lemma aget_aset_eq {A} `{Inhabited A} (a : list A) i v :
  0 <= i < Z.of_nat (length a) -> aget (aset a i v) i = v.
Proof.
  intros Hi. unfold aget, aset.
  destruct (Z.ltb_spec i 0); [lia|].
  apply list_lookup_total_insert_eq. lia.
Qed.

Lemma aget_aset_ne {A} `{Inhabited A} (a : list A) i j v :
  i <> j -> aget (aset a i v) j = aget a j.
Proof.
  intros Hij. unfold aget, aset.
  destruct (Z.ltb_spec j 0); [reflexivity|].
  destruct (Z.ltb_spec i 0); [reflexivity|].
  apply list_lookup_total_insert_ne. lia.
Qed.

Lemma length_fold_aset {A} (f : Z -> Z) (v : A) ks (a : list A) :
  length (fold_left (fun m k => aset m (f k) v) ks a) = length a.
Proof.
  revert a. induction ks as [|k ks IH]; intros a; simpl; [reflexivity|].
  rewrite IH. apply length_aset.
Qed.

Lemma fold_aset_miss {A} `{Inhabited A} (f : Z -> Z) (v : A) ks (a : list A) j :
  (forall k, In k ks -> f k <> j) ->
  aget (fold_left (fun m k => aset m (f k) v) ks a) j = aget a j.
Proof.
  revert a. induction ks as [|k ks IH]; intros a Hks; simpl; [reflexivity|].
  rewrite IH by (intros k' Hk'; apply Hks; now right).
  apply aget_aset_ne. apply Hks. now left.
Qed.

Lemma classic_in_tail (ks : list Z) (f : Z -> Z) (j : Z) :
  (exists k, In k ks /\ f k = j) \/ (forall k, In k ks -> f k <> j).
Proof.
  induction ks as [|k ks [[k' [Hin Hk']]|IH]].
  - right. intros k [].
  - left. exists k'. split; [now right | exact Hk'].
  - destruct (Z.eq_dec (f k) j) as [E|E].
    + left. exists k. split; [now left | exact E].
    + right. intros k' [<-|Hin]; [exact E | now apply IH].
Qed.

Lemma fold_aset_hit {A} `{Inhabited A} (f : Z -> Z) (v : A) ks (a : list A) j :
  (exists k, In k ks /\ f k = j) -> 0 <= j < Z.of_nat (length a) ->
  aget (fold_left (fun m k => aset m (f k) v) ks a) j = v.
Proof.
  revert a. induction ks as [|k ks IH]; intros a [k0 [Hin Hk0]] Hj; simpl.
  - destruct Hin.
  - destruct (classic_in_tail ks f j) as [Hlater|Hnot].
    + apply IH; [exact Hlater | now rewrite length_aset].
    + rewrite fold_aset_miss by exact Hnot.
      destruct Hin as [->|Hin]; [|exfalso; eapply Hnot; eauto].
      subst j. now apply aget_aset_eq.
Qed.

(** ** Sliding sequence buffer (ReliableBuffer.h) *)

Module ReliableBuffer.
Import Sequence.

Section Buffer.

(** The template parameters [T], [max_element_number], [connection_count];
    [T_default] is the value-initialised [T()]. *)
Context {T : Type}.
Variable T_default : T.
Variable max_element_number : Z.
Variable connection_count : Z.

Record t := mk {
  m_sequence : list Z;
  m_entry_sequence : list Z;
  m_entry_data : list T
}.

(** The arrays have the sizes of their declarations and [m_sequence] holds
    16-bit values. *)
Definition wf (b : t) : Prop :=
  Z.of_nat (length (m_sequence b)) = connection_count /\
  Z.of_nat (length (m_entry_sequence b)) = max_element_number * connection_count /\
  Z.of_nat (length (m_entry_data b)) = max_element_number * connection_count /\
  Forall (fun s => 0 <= s < 65536) (m_sequence b).

Definition ResetAll : t :=
  mk (replicate (Z.to_nat connection_count) 0)
     (replicate (Z.to_nat (max_element_number * connection_count)) U32_MAX)
     (replicate (Z.to_nat (max_element_number * connection_count)) T_default).

Definition Reset (connection_index : Z) (b : t) : t :=
  mk (aset (m_sequence b) connection_index 0)
     (afill (m_entry_sequence b) (connection_index * max_element_number)
            ((connection_index + 1) * max_element_number) U32_MAX)
     (afill (m_entry_data b) (connection_index * max_element_number)
            ((connection_index + 1) * max_element_number) T_default).

Definition GetSequence (connection_index : Z) (b : t) : Z :=
  aget (m_sequence b) connection_index.

Definition GetIndex (sequence : Z) : Z := sequence mod max_element_number.

Definition GetSize : Z := max_element_number.

(** [connection_index * max_element_number + sequence % max_element_number] *)
Definition slot (connection_index sequence : Z) : Z :=
  connection_index * max_element_number + sequence mod max_element_number.

Definition TestInsert (connection_index sequence : Z) (b : t) : bool :=
  if SequenceLessThan sequence
       (wrap16 (aget (m_sequence b) connection_index - wrap16 max_element_number))
  then false else true.

(** [RemoveEntries]: [start_sequence] and [finish_sequence] are [int]s. *)
Definition RemoveEntries (connection_index start_sequence finish_sequence : Z) (b : t) : t :=
  let finish_sequence :=
    if finish_sequence <? start_sequence then finish_sequence + 65536
    else finish_sequence in
  if finish_sequence - start_sequence <? max_element_number then
    mk (m_sequence b)
       (fold_left
          (fun m sequence => aset m (slot connection_index sequence) U32_MAX)
          (seqZ start_sequence (finish_sequence - start_sequence + 1))
          (m_entry_sequence b))
       (m_entry_data b)
  else
    mk (m_sequence b)
       (afill (m_entry_sequence b) (connection_index * max_element_number)
              ((connection_index + 1) * max_element_number) U32_MAX)
       (m_entry_data b).

(** [Insert]: the buffer after the call and the returned pointer, given as
    the index of the entry in [m_entry_data] ([None] for [nullptr]). *)
Definition Insert (connection_index sequence : Z) (b : t) : t * option Z :=
  let current := aget (m_sequence b) connection_index in
  let index := slot connection_index sequence in
  if SequenceGreaterThan (wrap16 (sequence + 1)) current then
    let b1 := RemoveEntries connection_index current sequence b in
    (mk (aset (m_sequence b1) connection_index (wrap16 (sequence + 1)))
        (aset (m_entry_sequence b1) index sequence)
        (m_entry_data b1),
     Some index)
  else if SequenceLessThan sequence (wrap16 (current - wrap16 max_element_number)) then
    (b, None)
  else
    (mk (m_sequence b) (aset (m_entry_sequence b) index sequence) (m_entry_data b),
     Some index).

Definition Remove (connection_index sequence : Z) (b : t) : t :=
  mk (m_sequence b)
     (aset (m_entry_sequence b) (slot connection_index sequence) U32_MAX)
     (m_entry_data b).

Definition AdvanceSequence (connection_index sequence : Z) (b : t) : t :=
  let current := aget (m_sequence b) connection_index in
  if SequenceGreaterThan (wrap16 (sequence + 1)) current then
    let b1 := RemoveEntries connection_index current sequence b in
    mk (aset (m_sequence b1) connection_index (wrap16 (sequence + 1)))
       (m_entry_sequence b1) (m_entry_data b1)
  else b.

Definition Available (connection_index sequence : Z) (b : t) : bool :=
  aget (m_entry_sequence b) (slot connection_index sequence) =? U32_MAX.

Definition Exists (connection_index sequence : Z) (b : t) : bool :=
  aget (m_entry_sequence b) (slot connection_index sequence) =? sequence.

Definition Find (connection_index sequence : Z) (b : t) : option Z :=
  let index := slot connection_index sequence in
  if aget (m_entry_sequence b) index =? sequence then Some index else None.

Definition GetAtIndex (connection_index index : Z) (b : t) : option Z :=
  if aget (m_entry_sequence b) (connection_index * max_element_number + index) =? U32_MAX
  then None else Some (connection_index * max_element_number + index).

(** The loop of [GenerateAcknowledgementBits], from iteration [i] on, for
    [n] more iterations. *)
Fixpoint ack_loop (connection_index ack : Z) (b : t) (n : nat) (i ack_bits mask : Z) : Z :=
  match n with
  | O => ack_bits
  | S n' =>
      let sequence := wrap16 (ack - wrap16 i) in
      let ack_bits :=
        if Exists connection_index sequence b then Z.lor ack_bits mask else ack_bits in
      ack_loop connection_index ack b n' (i + 1) ack_bits (wrap32 (Z.shiftl mask 1))
  end.

(** [GenerateAcknowledgementBits]: the out-parameters [ack] and [ack_bits]. *)
Definition GenerateAcknowledgementBits (connection_index : Z) (b : t) : Z * Z :=
  let ack := wrap16 (aget (m_sequence b) connection_index - 1) in
  (ack, ack_loop connection_index ack b 32 0 0 1).

(** *** Facts.  The capacity divides 65536 (the [static_assert]s of the
    channel; section 4.2 of the specification) and fits the 16-bit cast that
    [Insert] and [TestInsert] apply to it. *)

Hypothesis capacity_pos : 0 < max_element_number.
Hypothesis capacity_divides : (max_element_number | 65536).
Hypothesis capacity_16bit : max_element_number < 65536.

Lemma slot_wrap16 c x : slot c (wrap16 x) = slot c x.
Proof.
  unfold slot, wrap16. f_equal.
  apply Z.mod_mod_divide. exact capacity_divides.
Qed.

Lemma slot_range c s b :
  0 <= c < connection_count -> wf b ->
  0 <= slot c s < Z.of_nat (length (m_entry_sequence b)).
Proof.
  intros Hc (_ & Hlen & _). rewrite Hlen. unfold slot.
  pose proof (Z.mod_pos_bound s max_element_number capacity_pos). nia.
Qed.

Lemma slot_bounds c s :
  c * max_element_number <= slot c s < (c + 1) * max_element_number.
Proof.
  unfold slot.
  pose proof (Z.mod_pos_bound s max_element_number capacity_pos). nia.
Qed.

Lemma afill_hit {A} `{Inhabited A} (a : list A) first last v j :
  first <= j < last -> 0 <= j < Z.of_nat (length a) ->
  aget (afill a first last v) j = v.
Proof.
  intros Hj Hlen. unfold afill.
  apply (fold_aset_hit (fun k => k)); [|exact Hlen].
  exists j. split; [|reflexivity].
  apply list_elem_of_In, elem_of_seqZ. lia.
Qed.

Lemma afill_miss {A} `{Inhabited A} (a : list A) first last v j :
  ~ (first <= j < last) -> aget (afill a first last v) j = aget a j.
Proof.
  intros Hj. unfold afill.
  apply (fold_aset_miss (fun k => k)).
  intros k Hk%list_elem_of_In%elem_of_seqZ. lia.
Qed.

Lemma length_afill {A} (a : list A) first last v :
  length (afill a first last v) = length a.
Proof. unfold afill. apply (length_fold_aset (fun k => k)). Qed.

Lemma RemoveEntries_sequence c start finish b :
  m_sequence (RemoveEntries c start finish b) = m_sequence b.
Proof. unfold RemoveEntries. now destruct (_ <? max_element_number). Qed.

Lemma RemoveEntries_data c start finish b :
  m_entry_data (RemoveEntries c start finish b) = m_entry_data b.
Proof. unfold RemoveEntries. now destruct (_ <? max_element_number). Qed.

Lemma RemoveEntries_length c start finish b :
  length (m_entry_sequence (RemoveEntries c start finish b))
  = length (m_entry_sequence b).
Proof.
  unfold RemoveEntries. destruct (_ <? max_element_number); simpl.
  - apply (length_fold_aset (slot c)).
  - apply length_afill.
Qed.

Lemma RemoveEntries_wf c start finish b : wf b -> wf (RemoveEntries c start finish b).
Proof.
  intros (H1 & H2 & H3 & H4). unfold wf.
  now rewrite RemoveEntries_sequence, RemoveEntries_data, RemoveEntries_length.
Qed.

(** The sweep: every sequence from [start] up to [finish], wrap included,
    has its entry marked empty. *)
Lemma RemoveEntries_clears c start finish b k :
  0 <= c < connection_count -> wf b ->
  0 <= start < 65536 -> 0 <= finish < 65536 ->
  0 <= k <= wrap16 (finish - start) ->
  aget (m_entry_sequence (RemoveEntries c start finish b)) (slot c (start + k)) = U32_MAX.
Proof.
  intros Hc Hwf Hs Hf Hk.
  rewrite wrap16_sub in Hk by lia.
  pose proof (slot_range c (start + k) b Hc Hwf) as Hslot.
  unfold RemoveEntries.
  destruct (Z.ltb_spec finish start), (Z.leb_spec start finish); try lia.
  - destruct (Z.ltb_spec (finish + 65536 - start) max_element_number); simpl.
    + apply (fold_aset_hit (slot c)); [|exact Hslot].
      exists (start + k). split; [|reflexivity].
      apply list_elem_of_In, elem_of_seqZ. lia.
    + apply afill_hit; [apply slot_bounds | exact Hslot].
  - destruct (Z.ltb_spec (finish - start) max_element_number); simpl.
    + apply (fold_aset_hit (slot c)); [|exact Hslot].
      exists (start + k). split; [|reflexivity].
      apply list_elem_of_In, elem_of_seqZ. lia.
    + apply afill_hit; [apply slot_bounds | exact Hslot].
Qed.

Lemma GetSequence_range c b :
  0 <= c < connection_count -> wf b -> 0 <= GetSequence c b < 65536.
Proof.
  intros Hc (Hlen & _ & _ & Hall). unfold GetSequence, aget.
  destruct (Z.ltb_spec c 0); [lia|].
  rewrite Forall_forall in Hall. apply Hall.
  apply list_elem_of_lookup_total_2. lia.
Qed.

Lemma length_m_entry_sequence_Insert c s b :
  length (m_entry_sequence (fst (Insert c s b))) = length (m_entry_sequence b).
Proof.
  unfold Insert.
  destruct (SequenceGreaterThan _ _); simpl.
  - now rewrite length_aset, RemoveEntries_length.
  - destruct (SequenceLessThan _ _); simpl; [reflexivity | apply length_aset].
Qed.

(** Whatever branch it takes, a successful [Insert] returns the entry of
    [sequence] and leaves [sequence] stored there. *)
Lemma Insert_Some c s b p :
  0 <= c < connection_count -> wf b ->
  snd (Insert c s b) = Some p ->
  p = slot c s /\ aget (m_entry_sequence (fst (Insert c s b))) p = s.
Proof.
  intros Hc Hwf. unfold Insert.
  destruct (SequenceGreaterThan _ _); simpl.
  - intros [= <-]. split; [reflexivity|].
    apply aget_aset_eq. rewrite RemoveEntries_length. now apply slot_range.
  - destruct (SequenceLessThan _ _); simpl; [discriminate|].
    intros [= <-]. split; [reflexivity|].
    apply aget_aset_eq. now apply slot_range.
Qed.


(** The loop sets bit [j] of [ack_bits] for the iterations [i <= j < i + n]
    it runs, and leaves the lower bits as they are. *)
Lemma ack_loop_bits c ack b n i ack_bits :
  0 <= i -> i + Z.of_nat n <= 32 -> 0 <= ack_bits < 2 ^ i ->
  let r := ack_loop c ack b n i ack_bits (wrap32 (2 ^ i)) in
  0 <= r < 2 ^ (i + Z.of_nat n) /\
  forall j, 0 <= j ->
    Z.testbit r j =
      if j <? i then Z.testbit ack_bits j
      else if j <? i + Z.of_nat n then Exists c (wrap16 (ack - j)) b
      else false.
Proof.
  revert i ack_bits. induction n as [|n IH]; intros i ack_bits Hi Hn Hbits; simpl.
  - rewrite Z.add_0_r. split; [exact Hbits|].
    intros j Hj. destruct (Z.ltb_spec j i) as [Hlt|Hge]; [reflexivity|].
    apply (Header.testbit_above ack_bits i); lia.
  - assert (Hmask : wrap32 (2 ^ i) = 2 ^ i).
    { apply wrap32_small. split; [lia|].
      change 4294967296 with (2 ^ 32). apply Z.pow_lt_mono_r; lia. }
    assert (Hnext : wrap32 (Z.shiftl (wrap32 (2 ^ i)) 1) = wrap32 (2 ^ (i + 1))).
    { rewrite Hmask, Z.shiftl_mul_pow2, Z.pow_add_r by lia. reflexivity. }
    assert (Hi16 : wrap16 i = i) by (apply wrap16_small; lia).
    rewrite Hnext, Hmask, Hi16.
    set (bits' := if Exists c (wrap16 (ack - i)) b
                  then Z.lor ack_bits (2 ^ i) else ack_bits).
    assert (Hbits' : 0 <= bits' < 2 ^ (i + 1) /\
              forall j, 0 <= j ->
                Z.testbit bits' j =
                  if j <? i then Z.testbit ack_bits j
                  else if j =? i then Exists c (wrap16 (ack - i)) b else false).
    { subst bits'. destruct (Exists c (wrap16 (ack - i)) b).
      - assert (Hlor : Z.lor ack_bits (2 ^ i) = ack_bits + 2 ^ i).
        { rewrite <- Z.add_lor_land.
          replace (Z.land ack_bits (2 ^ i)) with 0; [lia|].
          symmetry. apply Z.bits_inj'. intros j Hj.
          rewrite Z.land_spec, Z.bits_0, Z.pow2_bits_eqb by lia.
          destruct (Z.eqb_spec i j) as [<-|]; [|apply andb_false_r].
          rewrite (Header.testbit_above ack_bits i) by lia. reflexivity. }
        split.
        + rewrite Hlor, Z.pow_add_r by lia. lia.
        + intros j Hj. rewrite Z.lor_spec, Z.pow2_bits_eqb by lia.
          destruct (Z.ltb_spec j i), (Z.eqb_spec j i), (Z.eqb_spec i j); try lia.
          all: rewrite ?orb_false_r; try reflexivity.
          all: rewrite (Header.testbit_above ack_bits i j) by lia; reflexivity.
      - split.
        + rewrite Z.pow_add_r by lia. lia.
        + intros j Hj.
          destruct (Z.ltb_spec j i), (Z.eqb_spec j i); try lia; try reflexivity.
          all: apply (Header.testbit_above ack_bits i j); lia. }
    destruct Hbits' as [Hrange' Htest'].
    destruct (IH (i + 1) bits') as [Hr Ht]; [lia | lia | exact Hrange' |].
    split.
    + replace (i + Z.of_nat (S n)) with (i + 1 + Z.of_nat n) by lia. exact Hr.
    + intros j Hj. rewrite Ht by exact Hj. rewrite Htest' by exact Hj.
      replace (i + Z.of_nat (S n)) with (i + 1 + Z.of_nat n) by lia.
      destruct (Z.ltb_spec j (i + 1)), (Z.ltb_spec j i), (Z.eqb_spec j i);
        try lia; try reflexivity.
      all: subst; destruct (Z.ltb_spec i (i + 1 + Z.of_nat n)); [reflexivity | lia].
Qed.

(** C5 (amended): [ack] is [received_next_seq - 1]; bit [i] of [ack_bits],
    for [i] in 0..31, is set exactly when sequence [ack - i] exists in the
    buffer, and no higher bit is set.  With [received_next_seq = 101] and the
    sequences 100, 98, 97 and 95 the only ones present among the last 32, the
    result is [ack = 100] and [ack_bits = 0b101101]: bits 0, 2 and 3, and
    bit 5 for sequence 95. *)
Theorem GenerateAcknowledgementBits_spec c b :
  let ack := fst (GenerateAcknowledgementBits c b) in
  let ack_bits := snd (GenerateAcknowledgementBits c b) in
  ack = wrap16 (GetSequence c b - 1) /\
  0 <= ack_bits < 4294967296 /\
  (forall i, 0 <= i < 32 -> Z.testbit ack_bits i = Exists c (wrap16 (ack - i)) b) /\
  (GetSequence c b = 101 ->
   (forall i, 0 <= i < 32 ->
      Exists c (100 - i) b = ((i =? 0) || (i =? 2) || (i =? 3) || (i =? 5))) ->
   ack = 100 /\ ack_bits = 45).
Proof.
  intros ack ack_bits.
  assert (Hack : ack = wrap16 (GetSequence c b - 1)) by reflexivity.
  assert (Hloop : ack_bits = ack_loop c ack b 32 0 0 (wrap32 (2 ^ 0))) by reflexivity.
  destruct (ack_loop_bits c ack b 32 0 0) as [Hr Ht].
  { lia. } { change (Z.of_nat 32) with 32. lia. } { change (2 ^ 0) with 1. lia. }
  rewrite <- Hloop in Hr, Ht.
  change (0 + Z.of_nat 32) with 32 in Hr, Ht.
  change (2 ^ 32) with 4294967296 in Hr.
  clearbody ack ack_bits.
  assert (Hbit : forall i, 0 <= i < 32 ->
            Z.testbit ack_bits i = Exists c (wrap16 (ack - i)) b).
  { intros i Hi. rewrite Ht by lia.
    destruct (Z.ltb_spec i 0); [lia|].
    destruct (Z.ltb_spec i 32); [reflexivity | lia]. }
  split; [exact Hack|]. split; [exact Hr|]. split; [exact Hbit|].
  intros Hnext Hex.
  assert (Hack100 : ack = 100) by (rewrite Hack, Hnext; reflexivity).
  split; [exact Hack100|].
  apply Z.bits_inj'. intros j Hj.
  destruct (Z.ltb_spec j 32) as [Hlt|Hge].
  - rewrite Hbit, Hack100 by lia.
    rewrite wrap16_small by lia. rewrite Hex by lia.
    assert (Hcases : j = 0 \/ j = 1 \/ j = 2 \/ j = 3 \/ j = 4 \/ j = 5 \/ 6 <= j) by lia.
    destruct Hcases as [->|[->|[->|[->|[->|[->|Hbig]]]]]]; try reflexivity.
    rewrite (Header.testbit_above 45 6) by lia.
    destruct (Z.eqb_spec j 0), (Z.eqb_spec j 2), (Z.eqb_spec j 3), (Z.eqb_spec j 5);
      try lia; reflexivity.
  - rewrite (Header.testbit_above ack_bits 32) by lia.
    rewrite (Header.testbit_above 45 32) by lia. reflexivity.
Qed.

(** *** The shape of the buffer is kept *)

Lemma Forall_aset {A} (P : A -> Prop) (a : list A) i v :
  Forall P a -> P v -> Forall P (aset a i v).
Proof.
  intros Ha Hv. unfold aset. destruct (i <? 0); [exact Ha|].
  now apply Forall_insert.
Qed.

(** Every operation that changes the buffer keeps the arrays at the sizes
    of their declarations and the next sequence numbers within 16 bits;
    [ResetAll] establishes this. *)
Theorem operations_keep_wf c s b :
  0 <= connection_count -> wf b ->
  wf ResetAll /\
  wf (Reset c b) /\
  wf (fst (Insert c s b)) /\
  wf (Remove c s b) /\
  wf (AdvanceSequence c s b).
Proof.
  intros Hcount Hwf.
  assert (Hwrap : 0 <= wrap16 (s + 1) < 65536) by apply wrap16_range.
  assert (Hswept : wf (RemoveEntries c (aget (m_sequence b) c) s b))
    by now apply RemoveEntries_wf.
  destruct Hwf as (H1 & H2 & H3 & H4).
  destruct Hswept as (S1 & S2 & S3 & S4).
  split; [|split; [|split; [|split]]].
  - unfold wf, ResetAll. cbn [m_sequence m_entry_sequence m_entry_data].
    rewrite !length_replicate.
    repeat split; try nia. apply Forall_replicate. lia.
  - unfold wf, Reset. cbn [m_sequence m_entry_sequence m_entry_data].
    rewrite length_aset, !length_afill.
    repeat split; try assumption. apply Forall_aset; [assumption | lia].
  - unfold Insert.
    destruct (SequenceGreaterThan _ _); [|destruct (SequenceLessThan _ _)];
      unfold wf; cbn [fst m_sequence m_entry_sequence m_entry_data];
      rewrite ?length_aset; repeat split; try assumption.
    apply Forall_aset; assumption.
  - unfold wf, Remove. cbn [m_sequence m_entry_sequence m_entry_data].
    rewrite length_aset. repeat split; assumption.
  - unfold AdvanceSequence.
    destruct (SequenceGreaterThan _ _); unfold wf;
      cbn [m_sequence m_entry_sequence m_entry_data];
      rewrite ?length_aset; repeat split; try assumption.
    apply Forall_aset; assumption.
Qed.

(** *** Connections do not share entries *)

Lemma slot_other c c' s j :
  c' <> c -> c' * max_element_number <= j < (c' + 1) * max_element_number ->
  slot c s <> j.
Proof. intros Hne Hj. pose proof (slot_bounds c s). nia. Qed.

Lemma RemoveEntries_other c start finish b j :
  ~ (c * max_element_number <= j < (c + 1) * max_element_number) ->
  aget (m_entry_sequence (RemoveEntries c start finish b)) j = aget (m_entry_sequence b) j.
Proof.
  intros Hj. unfold RemoveEntries.
  destruct (_ <? max_element_number); cbn [m_entry_sequence].
  - apply (fold_aset_miss (slot c)). intros k _ Heq.
    pose proof (slot_bounds c k). lia.
  - now apply afill_miss.
Qed.

(** [Insert], [Remove], [AdvanceSequence] and [Reset] on connection [c]
    leave every other connection as it was: its next sequence number and
    what [Find] and [Exists] answer for it. *)
Theorem other_connection_untouched c c' s s' b :
  c <> c' ->
  let same b' :=
    GetSequence c' b' = GetSequence c' b /\
    Find c' s' b' = Find c' s' b /\
    Exists c' s' b' = Exists c' s' b in
  same (fst (Insert c s b)) /\ same (Remove c s b) /\
  same (AdvanceSequence c s b) /\ same (Reset c b).
Proof.
  intros Hne. cbv zeta.
  pose proof (slot_bounds c' s') as Hslot'.
  assert (Hother : ~ (c * max_element_number <= slot c' s' < (c + 1) * max_element_number))
    by nia.
  assert (Hset : forall (a : list Z) v, aget (aset a (slot c s) v) (slot c' s') = aget a (slot c' s')).
  { intros a v. apply aget_aset_ne. apply (slot_other c c' s); [congruence | exact Hslot']. }
  assert (Hseq : forall (a : list Z) v, aget (aset a c v) c' = aget a c').
  { intros a v. now apply aget_aset_ne. }
  unfold Insert, Remove, AdvanceSequence, Reset, GetSequence, Find, Exists.
  destruct (SequenceGreaterThan (wrap16 (s + 1)) (aget (m_sequence b) c));
    [|destruct (SequenceLessThan s _)];
    cbn [fst m_sequence m_entry_sequence m_entry_data];
    rewrite ?Hset, ?Hseq, ?RemoveEntries_sequence, ?RemoveEntries_other,
      ?afill_miss by assumption;
    repeat split; reflexivity.
Qed.

(** *** Removing and resetting *)

(** After [Remove(c, s)] the sequence [s] is not found and its entry is
    available; a sequence with another entry is found as before. *)
Theorem Remove_Find c s s' b :
  0 <= c < connection_count -> wf b -> 0 <= s < 65536 ->
  Find c s (Remove c s b) = None /\
  Exists c s (Remove c s b) = false /\
  Available c s (Remove c s b) = true /\
  (slot c s' <> slot c s -> Find c s' (Remove c s b) = Find c s' b).
Proof.
  intros Hc Hwf Hs.
  pose proof (slot_range c s b Hc Hwf) as Hslot.
  unfold Find, Exists, Available, Remove. cbn [m_entry_sequence].
  rewrite aget_aset_eq by exact Hslot.
  unfold U32_MAX.
  destruct (Z.eqb_spec 4294967295 s); [lia|].
  repeat split. intros Hother. rewrite aget_aset_ne by congruence. reflexivity.
Qed.

Lemma aget_replicate {A} `{Inhabited A} n (v : A) i :
  0 <= i < Z.of_nat n -> aget (replicate n v) i = v.
Proof.
  intros Hi. unfold aget. destruct (Z.ltb_spec i 0); [lia|].
  apply lookup_total_replicate_2. lia.
Qed.

(** Without an entry that exists, the acknowledgement loop sets no bit. *)
Lemma ack_loop_empty c ack b n : forall i mask,
  (forall s, 0 <= s < 65536 -> Exists c s b = false) ->
  ack_loop c ack b n i 0 mask = 0.
Proof.
  induction n as [|n IH]; intros i mask Hnone; cbn [ack_loop]; [reflexivity|].
  rewrite Hnone by apply wrap16_range. now apply IH.
Qed.

(** A connection that has been reset is empty: its next sequence number
    is 0, no 16-bit sequence number is found in it and the acknowledgement
    it generates is [ack = 65535] with no bit set.  The same holds for every
    connection after [ResetAll]. *)
Theorem Reset_empties c s b :
  0 <= c < connection_count -> wf b -> 0 <= s < 65536 ->
  let empty b' :=
    GetSequence c b' = 0 /\ Find c s b' = None /\
    GenerateAcknowledgementBits c b' = (65535, 0) in
  empty (Reset c b) /\ empty ResetAll.
Proof.
  intros Hc Hwf Hs. cbv zeta.
  destruct Hwf as (H1 & H2 & H3 & H4).
  assert (Hslots : forall s', 0 <= slot c s' < max_element_number * connection_count).
  { intros s'. pose proof (slot_bounds c s'). nia. }
  assert (Hreset : forall s', aget (m_entry_sequence (Reset c b)) (slot c s') = U32_MAX).
  { intros s'. unfold Reset. cbn [m_entry_sequence].
    apply afill_hit; [apply slot_bounds | rewrite H2; apply Hslots]. }
  assert (Hall : forall s', aget (m_entry_sequence ResetAll) (slot c s') = U32_MAX).
  { intros s'. unfold ResetAll. cbn [m_entry_sequence].
    apply aget_replicate. specialize (Hslots s'). lia. }
  assert (Hnone : forall b', (forall s', aget (m_entry_sequence b') (slot c s') = U32_MAX) ->
            forall s', 0 <= s' < 65536 -> Exists c s' b' = false).
  { intros b' Hb' s' Hs'. unfold Exists. rewrite Hb'. unfold U32_MAX.
    destruct (Z.eqb_spec 4294967295 s'); [lia | reflexivity]. }
  assert (Hempty : forall b', GetSequence c b' = 0 ->
            (forall s', aget (m_entry_sequence b') (slot c s') = U32_MAX) ->
            GetSequence c b' = 0 /\ Find c s b' = None /\
            GenerateAcknowledgementBits c b' = (65535, 0)).
  { intros b' Hseq Hb'. split; [exact Hseq|]. split.
    - pose proof (Hnone b' Hb' s Hs) as Hex. unfold Exists in Hex. unfold Find.
      now rewrite Hex.
    - unfold GenerateAcknowledgementBits. unfold GetSequence in Hseq. rewrite Hseq.
      change (wrap16 (0 - 1)) with 65535. f_equal.
      apply ack_loop_empty. now apply Hnone. }
  split; apply Hempty.
  - unfold GetSequence, Reset. cbn [m_sequence]. apply aget_aset_eq. lia.
  - exact Hreset.
  - unfold GetSequence, ResetAll. cbn [m_sequence]. apply aget_replicate. lia.
  - exact Hall.
Qed.

(** The entries of a connection after [Reset]. *)
Lemma Reset_entry_sequence c s b :
  0 <= c < connection_count ->
  Z.of_nat (length (m_entry_sequence b)) = max_element_number * connection_count ->
  aget (m_entry_sequence (Reset c b)) (slot c s) = U32_MAX.
Proof.
  intros Hc Hlen. unfold Reset. cbn [m_entry_sequence].
  pose proof (slot_bounds c s).
  apply afill_hit; [assumption | nia].
Qed.

(** *** What [Remove] does to [Find] *)

Lemma Remove_wf c s b : wf b -> wf (Remove c s b).
Proof.
  intros (Hseq & Hes & Hed & Hall). unfold wf, Remove.
  cbn [m_sequence m_entry_sequence m_entry_data]. rewrite length_aset.
  repeat split; assumption.
Qed.

Lemma Remove_unfound c s b :
  0 <= c < connection_count -> wf b -> 0 <= s < 65536 ->
  Find c s (Remove c s b) = None.
Proof.
  intros Hc Hwf Hs.
  pose proof (slot_range c s b Hc Hwf) as Hslot.
  unfold Find, Remove. cbn [m_entry_sequence].
  rewrite aget_aset_eq by exact Hslot.
  unfold U32_MAX. destruct (Z.eqb_spec 4294967295 s); [lia | reflexivity].
Qed.

Lemma Remove_keeps_unfound c s s' b :
  0 <= c < connection_count -> wf b -> 0 <= s < 65536 ->
  Find c s b = None -> Find c s (Remove c s' b) = None.
Proof.
  intros Hc Hwf Hs Hnone.
  pose proof (slot_range c s' b Hc Hwf) as Hslot.
  unfold Find, Remove in *. cbn [m_entry_sequence].
  destruct (Z.eq_dec (slot c s') (slot c s)) as [Heq|Hne].
  - rewrite <- Heq. rewrite aget_aset_eq by exact Hslot.
    unfold U32_MAX. destruct (Z.eqb_spec 4294967295 s); [lia | reflexivity].
  - rewrite aget_aset_ne by exact Hne. exact Hnone.
Qed.

End Buffer.

(** A received-packet buffer of 256 entries for one connection, after the
    packets 95, 97, 98 and 100 have arrived. *)
Definition received_example : t (T := unit) :=
  let b := ResetAll tt 256 1 in
  let b := fst (Insert 256 0 95 b) in
  let b := fst (Insert 256 0 97 b) in
  let b := fst (Insert 256 0 98 b) in
  fst (Insert 256 0 100 b).

Example received_example_contents :
  GetSequence 0 received_example = 101 /\
  map (fun s => Exists 256 0 s received_example) [100; 99; 98; 97; 96; 95; 94]
  = [true; false; true; true; false; true; false].
Proof. vm_compute. split; reflexivity. Qed.

(** C5, as stated, fails on its own example: sequence 95 is [ack - 5], so
    bit 5 is set too and [ack_bits] is 45, not 0b1101 = 13. *)
Lemma GenerateAcknowledgementBits_example_bit5 :
  GenerateAcknowledgementBits 256 0 received_example = (100, 45) /\
  snd (GenerateAcknowledgementBits 256 0 received_example) <> 13.
Proof. split; [vm_compute; reflexivity | vm_compute; discriminate]. Qed.

Lemma received_example_exists i :
  0 <= i < 32 ->
  Exists 256 0 (100 - i) received_example
  = ((i =? 0) || (i =? 2) || (i =? 3) || (i =? 5)).
Proof.
  intros Hi.
  assert (H : Forall (fun i => Exists 256 0 (100 - i) received_example
                               = ((i =? 0) || (i =? 2) || (i =? 3) || (i =? 5)))
                     (seqZ 0 32)).
  { vm_compute. repeat constructor. }
  rewrite Forall_forall in H. apply H, elem_of_seqZ. lia.
Qed.

Lemma GenerateAcknowledgementBits_spec_witness :
  fst (GenerateAcknowledgementBits 256 0 received_example) = 100 /\
  snd (GenerateAcknowledgementBits 256 0 received_example) = 45.
Proof.
  apply (GenerateAcknowledgementBits_spec 256 0 received_example).
  - vm_compute. reflexivity.
  - apply received_example_exists.
Defined.


(** Two connections with four entries each; connection 0 has received the
    sequences 0 and 2, connection 1 the sequence 5. *)
Definition two_connection_example : t (T := unit) :=
  let b := ResetAll tt 4 2 in
  let b := fst (Insert 4 0 0 b) in
  let b := fst (Insert 4 0 2 b) in
  fst (Insert 4 1 5 b).

Lemma two_connection_example_wf : wf 4 2 two_connection_example.
Proof.
  repeat split; try (vm_compute; reflexivity).
  repeat constructor; vm_compute; discriminate.
Qed.

Lemma operations_keep_wf_witness : wf 4 2 (fst (Insert 4 0 3 two_connection_example)).
Proof.
  refine (proj1 (proj2 (proj2
    (operations_keep_wf tt 4 2 _ _ 0 3 two_connection_example _
       two_connection_example_wf)))); lia.
Defined.

Lemma other_connection_untouched_witness :
  Find 4 1 5 (fst (Insert 4 0 9 two_connection_example)) = Find 4 1 5 two_connection_example.
Proof.
  refine (proj1 (proj2 (proj1
    (other_connection_untouched tt 4 _ _ 0 1 9 5 two_connection_example _)))); lia.
Defined.

Lemma Remove_Find_witness :
  Find 4 0 2 (Remove 4 0 2 two_connection_example) = None.
Proof.
  refine (proj1 (Remove_Find 4 2 _ _ 0 2 0 two_connection_example _
                   two_connection_example_wf _)); lia.
Defined.

Lemma Reset_empties_witness :
  GenerateAcknowledgementBits 4 0 (Reset tt 4 0 two_connection_example) = (65535, 0).
Proof.
  refine (proj2 (proj2 (proj1
    (Reset_empties tt 4 2 _ _ 0 2 two_connection_example _
       two_connection_example_wf _)))); lia.
Defined.

End ReliableBuffer.

(** ** Assertions

    [ASSERT_CRASH(e)] (Macro.h, not among the sources) stops the program when
    [e] is false.  A member function that can reach one returns an
    [outcome]: the result of the call, or [Crash]. *)

Inductive outcome (A : Type) : Type :=
| Done (a : A)
| Crash.
Arguments Done {A} a.
Arguments Crash {A}.

Definition bind {A B} (m : outcome A) (f : A -> outcome B) : outcome B :=
  match m with
  | Done a => f a
  | Crash => Crash
  end.

Definition ASSERT_CRASH (e : bool) : outcome unit :=
  if e then Done tt else Crash.

Notation "'let*' x ':=' m 'in' k" := (bind m (fun x => k))
  (at level 10, x name, m at level 100, k at level 200).
Notation "'crash_unless' e 'in' k" := (bind (ASSERT_CRASH e) (fun _ => k))
  (at level 10, e at level 100, k at level 200).

(** ** What the channels share (ChannelShared.h, Errors.hpp) *)

Module Channel.

Inductive ErrorLevel : Type :=
| ERROR_NONE
| CHANNEL_ERROR_DESYNC
| CHANNEL_ERROR_SEND_QUEUE_FULL
| CHANNEL_ERROR_FAILED_TO_SERIALISE
| CHANNEL_ERROR_OUT_OF_MEMORY.

Definition ErrorLevel_eqb (a b : ErrorLevel) : bool :=
  match a, b with
  | ERROR_NONE, ERROR_NONE
  | CHANNEL_ERROR_DESYNC, CHANNEL_ERROR_DESYNC
  | CHANNEL_ERROR_SEND_QUEUE_FULL, CHANNEL_ERROR_SEND_QUEUE_FULL
  | CHANNEL_ERROR_FAILED_TO_SERIALISE, CHANNEL_ERROR_FAILED_TO_SERIALISE
  | CHANNEL_ERROR_OUT_OF_MEMORY, CHANNEL_ERROR_OUT_OF_MEMORY => true
  | _, _ => false
  end.

Lemma ErrorLevel_eqb_spec a b : reflect (a = b) (ErrorLevel_eqb a b).
Proof. destruct a, b; constructor; congruence. Qed.

#[global] Instance ErrorLevel_inhabited : Inhabited ErrorLevel := populate ERROR_NONE.

(** A pointer is an address; 0 is [nullptr]. *)
Definition nullptr : Z := 0.

Record ChannelMessage := mkMessage {
  message_protocol : Z;
  message_id : Z;
  is_block : bool;
  block_offset : Z;
  block_size : Z;
  message_data : Z
}.

(** The default member initialisers, and [ChannelMessage::Reset]. *)
Definition ChannelMessage_default : ChannelMessage :=
  mkMessage 0 0 false 0 0 nullptr.

#[global] Instance ChannelMessage_inhabited : Inhabited ChannelMessage :=
  populate ChannelMessage_default.

Definition CHANNEL_COUNTER_MESSAGES_SENT : Z := 0.
Definition CHANNEL_COUNTER_MESSAGES_RECEIVED : Z := 1.
Definition CHANNEL_COUNTER_NUMBER_OF_COUNTERS : Z := 2.

End Channel.

(** ** Unreliable unordered channel (UnreliableUnorderedChannel.h) *)

Module UnreliableUnordered.
Import Channel.

Section Channel.

(** The template parameters. *)
Variable max_connection_count : Z.
Variable send_queue_size : Z.
Variable receive_queue_size : Z.

(** Modelled from the spec: [atomic_queue::AtomicQueue2] is an external
    library.  Section 4.5 gives per-connection queues for send and receive,
    each sized independently, where a send on a full queue is dropped; used
    from one thread such a queue is a bounded first-in first-out list:
    [push] appends, [pop] takes the oldest element, [was_full] and
    [was_empty] compare the length with the capacity and with 0. *)
Definition queue : Type := list ChannelMessage.
Definition was_full (capacity : Z) (q : queue) : bool := capacity <=? Z.of_nat (length q).
Definition was_empty (q : queue) : bool := Z.of_nat (length q) =? 0.
Definition push (q : queue) (m : ChannelMessage) : queue := q ++ [m].
Definition pop (q : queue) : ChannelMessage * queue :=
  match q with
  | [] => (ChannelMessage_default, [])
  | m :: q' => (m, q')
  end.

Record state := mkState {
  m_error_level : list ErrorLevel;
  m_message_send_queue : list queue;
  m_message_receive_queue : list queue;
  m_counters_array : list Z;
  (** the pointers handed to [Global::GMemory->Release], oldest first *)
  released : list Z
}.

#[local] Instance queue_inhabited : Inhabited queue := populate [].

Definition connection_ok (connection_index : Z) : bool :=
  (0 <=? connection_index) && (connection_index <? max_connection_count).

Definition GetErrorLevel (connection_index : Z) (st : state) : outcome ErrorLevel :=
  crash_unless connection_ok connection_index in
  Done (aget (m_error_level st) connection_index).

Definition SetErrorLevel (connection_index : Z) (error_level : ErrorLevel) (st : state)
  : outcome state :=
  crash_unless connection_ok connection_index in
  Done (mkState (aset (m_error_level st) connection_index error_level)
          (m_message_send_queue st) (m_message_receive_queue st)
          (m_counters_array st) (released st)).

Definition CanSendMessage (connection_index : Z) (st : state) : outcome bool :=
  crash_unless connection_ok connection_index in
  Done (negb (was_full send_queue_size (aget (m_message_send_queue st) connection_index))).

Definition HasMessagesToSend (connection_index : Z) (st : state) : outcome bool :=
  crash_unless connection_ok connection_index in
  Done (negb (was_empty (aget (m_message_send_queue st) connection_index))).

Definition Release (p : Z) (st : state) : state :=
  mkState (m_error_level st) (m_message_send_queue st) (m_message_receive_queue st)
    (m_counters_array st) (released st ++ [p]).

(** [++m_counters_array[i]] on 64-bit counters. *)
Definition increment (counters : list Z) (i : Z) : list Z :=
  aset counters i (wrap64 (aget counters i + 1)).

Definition SendMessage (connection_index : Z) (message : ChannelMessage) (st : state)
  : outcome state :=
  crash_unless connection_ok connection_index in
  let* error_level := GetErrorLevel connection_index st in
  if negb (ErrorLevel_eqb error_level ERROR_NONE) then
    Done (Release (message_data message) st)
  else
    let* can_send := CanSendMessage connection_index st in
    if negb can_send then
      let* st := SetErrorLevel connection_index CHANNEL_ERROR_SEND_QUEUE_FULL st in
      Done (Release (message_data message) st)
    else
      Done (mkState (m_error_level st)
              (aset (m_message_send_queue st) connection_index
                    (push (aget (m_message_send_queue st) connection_index) message))
              (m_message_receive_queue st)
              (increment (m_counters_array st)
                 (connection_index * CHANNEL_COUNTER_NUMBER_OF_COUNTERS
                  + CHANNEL_COUNTER_MESSAGES_SENT))
              (released st)).

(** [ReceiveMessage]: the returned flag, the message written through the
    reference (when the flag is true) and the state. *)
Definition ReceiveMessage (connection_index : Z) (st : state)
  : outcome (bool * option ChannelMessage * state) :=
  crash_unless connection_ok connection_index in
  let* error_level := GetErrorLevel connection_index st in
  if negb (ErrorLevel_eqb error_level ERROR_NONE) then Done (false, None, st)
  else if was_empty (aget (m_message_receive_queue st) connection_index)
  then Done (false, None, st)
  else
    let '(message, q) := pop (aget (m_message_receive_queue st) connection_index) in
    Done (true, Some message,
          mkState (m_error_level st) (m_message_send_queue st)
            (aset (m_message_receive_queue st) connection_index q)
            (increment (m_counters_array st)
               (connection_index * CHANNEL_COUNTER_NUMBER_OF_COUNTERS
                + CHANNEL_COUNTER_MESSAGES_RECEIVED))
            (released st)).

(** [GetCounter(connection_index, index)] reads [m_counters_array[index]]. *)
Definition GetCounter (connection_index index : Z) (st : state) : outcome Z :=
  crash_unless (0 <=? index) in
  crash_unless (index <? CHANNEL_COUNTER_NUMBER_OF_COUNTERS) in
  crash_unless connection_ok connection_index in
  Done (aget (m_counters_array st) index).

(** The loops of [Reset]: [for (i = 0; i < q.was_size(); ++i) pop and
    release]; the bound is read again at every iteration while the queue
    shrinks. *)
Fixpoint drain (fuel : nat) (i : Z) (q : queue) (log : list Z) : queue * list Z :=
  match fuel with
  | O => (q, log)
  | S fuel' =>
      if i <? Z.of_nat (length q) then
        let '(message, q') := pop q in
        drain fuel' (i + 1) q'
          (if message_data message =? nullptr then log
           else log ++ [message_data message])
      else (q, log)
  end.

Definition Reset (connection_index : Z) (st : state) : outcome state :=
  crash_unless connection_ok connection_index in
  let* st := SetErrorLevel connection_index ERROR_NONE st in
  let sq := aget (m_message_send_queue st) connection_index in
  let '(sq', log1) := drain (length sq) 0 sq (released st) in
  let rq := aget (m_message_receive_queue st) connection_index in
  let '(rq', log2) := drain (length rq) 0 rq log1 in
  Done (mkState (m_error_level st)
          (aset (m_message_send_queue st) connection_index sq')
          (aset (m_message_receive_queue st) connection_index rq')
          (afill (m_counters_array st)
             (connection_index * CHANNEL_COUNTER_NUMBER_OF_COUNTERS)
             ((connection_index + 1) * CHANNEL_COUNTER_NUMBER_OF_COUNTERS) 0)
          log2).

(** The arrays have the sizes of their declarations. *)
Definition wf (st : state) : Prop :=
  Z.of_nat (length (m_error_level st)) = max_connection_count /\
  Z.of_nat (length (m_message_send_queue st)) = max_connection_count /\
  Z.of_nat (length (m_message_receive_queue st)) = max_connection_count /\
  Z.of_nat (length (m_counters_array st))
  = CHANNEL_COUNTER_NUMBER_OF_COUNTERS * max_connection_count.

Lemma connection_ok_true c : connection_ok c = true <-> 0 <= c < max_connection_count.
Proof. unfold connection_ok. rewrite andb_true_iff, Z.leb_le, Z.ltb_lt. tauto. Qed.

Lemma aget_increment_eq counters i :
  0 <= i < Z.of_nat (length counters) ->
  aget (increment counters i) i = wrap64 (aget counters i + 1).
Proof. intros Hi. unfold increment. now apply aget_aset_eq. Qed.

Lemma aget_increment_ne counters i j :
  i <> j -> aget (increment counters i) j = aget counters j.
Proof. intros Hij. unfold increment. now apply aget_aset_ne. Qed.

(** C10: [GetCounter(c, k)] is the value at flat index [k] of the counter
    array, whatever [c] is, while a message sent (or received) on connection
    [c] is counted at flat index [c * CHANNEL_COUNTER_NUMBER_OF_COUNTERS + k].
    So on a connection [c > 0] a successful [SendMessage] raises the stored
    counter of [c] and leaves [GetCounter(c, CHANNEL_COUNTER_MESSAGES_SENT)]
    as it was; the same holds for [ReceiveMessage] and the received
    counter. *)
Theorem GetCounter_flat_index c k message st :
  wf st -> 0 <= c < max_connection_count ->
  0 <= k < CHANNEL_COUNTER_NUMBER_OF_COUNTERS ->
  GetCounter c k st = Done (aget (m_counters_array st) k) /\
  (forall c', 0 <= c' < max_connection_count -> GetCounter c' k st = GetCounter c k st) /\
  (GetErrorLevel c st = Done ERROR_NONE -> CanSendMessage c st = Done true ->
   exists st',
     SendMessage c message st = Done st' /\
     aget (m_counters_array st')
          (c * CHANNEL_COUNTER_NUMBER_OF_COUNTERS + CHANNEL_COUNTER_MESSAGES_SENT)
     = wrap64 (aget (m_counters_array st)
                 (c * CHANNEL_COUNTER_NUMBER_OF_COUNTERS + CHANNEL_COUNTER_MESSAGES_SENT) + 1) /\
     (0 < c -> GetCounter c CHANNEL_COUNTER_MESSAGES_SENT st'
               = GetCounter c CHANNEL_COUNTER_MESSAGES_SENT st)) /\
  (GetErrorLevel c st = Done ERROR_NONE ->
   was_empty (aget (m_message_receive_queue st) c) = false ->
   exists message' st',
     ReceiveMessage c st = Done (true, Some message', st') /\
     aget (m_counters_array st')
          (c * CHANNEL_COUNTER_NUMBER_OF_COUNTERS + CHANNEL_COUNTER_MESSAGES_RECEIVED)
     = wrap64 (aget (m_counters_array st)
                 (c * CHANNEL_COUNTER_NUMBER_OF_COUNTERS + CHANNEL_COUNTER_MESSAGES_RECEIVED) + 1) /\
     (0 < c -> GetCounter c CHANNEL_COUNTER_MESSAGES_RECEIVED st'
               = GetCounter c CHANNEL_COUNTER_MESSAGES_RECEIVED st)).
Proof.
  intros (_ & _ & _ & Hlen) Hc Hk.
  assert (Hok : connection_ok c = true) by now apply connection_ok_true.
  assert (Hget : forall c' s, 0 <= c' < max_connection_count ->
            GetCounter c' k s = Done (aget (m_counters_array s) k)).
  { intros c' s Hc'. unfold GetCounter.
    destruct (Z.leb_spec 0 k); [|lia].
    destruct (Z.ltb_spec k CHANNEL_COUNTER_NUMBER_OF_COUNTERS); [|lia].
    apply connection_ok_true in Hc'. rewrite Hc'. reflexivity. }
  assert (Hget' : forall j s, 0 <= j < CHANNEL_COUNTER_NUMBER_OF_COUNTERS ->
            GetCounter c j s = Done (aget (m_counters_array s) j)).
  { intros j s Hj. unfold GetCounter.
    destruct (Z.leb_spec 0 j); [|lia].
    destruct (Z.ltb_spec j CHANNEL_COUNTER_NUMBER_OF_COUNTERS); [|lia].
    rewrite Hok. reflexivity. }
  unfold CHANNEL_COUNTER_NUMBER_OF_COUNTERS, CHANNEL_COUNTER_MESSAGES_SENT,
    CHANNEL_COUNTER_MESSAGES_RECEIVED in *.
  split; [now apply Hget|]. split.
  { intros c' Hc'. now rewrite !Hget. }
  split.
  - intros Herr Hcan. unfold SendMessage. rewrite Hok, Herr, Hcan. simpl.
    eexists. split; [reflexivity|]. simpl. split.
    + apply aget_increment_eq.
      unfold CHANNEL_COUNTER_NUMBER_OF_COUNTERS, CHANNEL_COUNTER_MESSAGES_SENT,
        CHANNEL_COUNTER_MESSAGES_RECEIVED. lia.
    + intros Hpos. rewrite !Hget' by lia. simpl.
      f_equal. apply aget_increment_ne.
      unfold CHANNEL_COUNTER_NUMBER_OF_COUNTERS, CHANNEL_COUNTER_MESSAGES_SENT. lia.
  - intros Herr Hne. unfold ReceiveMessage. rewrite Hok, Herr, Hne. simpl.
    destruct (pop (aget (m_message_receive_queue st) c)) as [message' q].
    eexists _, _. split; [reflexivity|]. simpl. split.
    + apply aget_increment_eq.
      unfold CHANNEL_COUNTER_NUMBER_OF_COUNTERS, CHANNEL_COUNTER_MESSAGES_SENT,
        CHANNEL_COUNTER_MESSAGES_RECEIVED. lia.
    + intros Hpos. rewrite !Hget' by lia. simpl.
      f_equal. apply aget_increment_ne.
      unfold CHANNEL_COUNTER_NUMBER_OF_COUNTERS, CHANNEL_COUNTER_MESSAGES_RECEIVED. lia.
Qed.

(** *** The queue when it is full *)

(** A message sent on an operational connection whose send queue is full
    is not queued: the connection goes to [CHANNEL_ERROR_SEND_QUEUE_FULL],
    the data of the message is released, and queues and counters stay as
    they are.  From then on every [SendMessage] on the connection only
    releases the data of its message. *)
Theorem SendMessage_queue_full c message st :
  wf st -> 0 <= c < max_connection_count ->
  aget (m_error_level st) c = ERROR_NONE ->
  was_full send_queue_size (aget (m_message_send_queue st) c) = true ->
  exists st',
    SendMessage c message st = Done st' /\
    aget (m_error_level st') c = CHANNEL_ERROR_SEND_QUEUE_FULL /\
    m_message_send_queue st' = m_message_send_queue st /\
    m_message_receive_queue st' = m_message_receive_queue st /\
    m_counters_array st' = m_counters_array st /\
    released st' = released st ++ [message_data message] /\
    forall later, SendMessage c later st' = Done (Release (message_data later) st').
Proof.
  intros (Hlen & _) Hc Herr Hfull.
  assert (Hok : connection_ok c = true) by now apply connection_ok_true.
  unfold SendMessage, GetErrorLevel, CanSendMessage, SetErrorLevel.
  rewrite Hok, Herr, Hfull. cbn [bind ASSERT_CRASH ErrorLevel_eqb negb].
  eexists. split; [reflexivity|].
  cbn [Release m_error_level m_message_send_queue m_message_receive_queue
         m_counters_array released].
  rewrite aget_aset_eq by lia.
  split; [reflexivity|]. split; [reflexivity|]. split; [reflexivity|].
  split; [reflexivity|]. split; [reflexivity|].
  intros later. reflexivity.
Qed.

(** A send queue within its capacity stays within it, whatever
    [SendMessage] does, and the arrays keep their sizes. *)
Theorem SendMessage_queue_bounded c message st st' :
  wf st -> 0 <= c < max_connection_count ->
  Z.of_nat (length (aget (m_message_send_queue st) c)) <= send_queue_size ->
  SendMessage c message st = Done st' ->
  wf st' /\
  Z.of_nat (length (aget (m_message_send_queue st') c)) <= send_queue_size.
Proof.
  intros (H1 & H2 & H3 & H4) Hc Hbound.
  assert (Hok : connection_ok c = true) by now apply connection_ok_true.
  unfold SendMessage, GetErrorLevel, CanSendMessage, SetErrorLevel.
  rewrite Hok. cbn [bind ASSERT_CRASH].
  destruct (negb (ErrorLevel_eqb (aget (m_error_level st) c) ERROR_NONE)).
  { intros [= <-]. unfold wf, Release. cbn. now repeat split. }
  unfold was_full.
  destruct (Z.leb_spec send_queue_size
              (Z.of_nat (length (aget (m_message_send_queue st) c)))) as [Hfull|Hroom];
    cbn [negb bind]; intros [= <-].
  - unfold wf, Release. cbn. rewrite length_aset. now repeat split.
  - unfold wf, increment.
    cbn [m_error_level m_message_send_queue m_message_receive_queue m_counters_array].
    rewrite !length_aset. split; [now repeat split|].
    rewrite aget_aset_eq by lia. unfold push. rewrite length_app. cbn [length]. lia.
Qed.

(** *** What [Reset] leaves in a queue *)

(** The data pointers [Reset] releases for a run of messages. *)
Definition released_data (q : queue) : list Z :=
  flat_map (fun m => if message_data m =? nullptr then [] else [message_data m]) q.

(** The number of iterations of [for (i = i0; i < q.was_size(); ++i) pop]:
    the bound falls by one while [i] rises by one. *)
Definition drained (i0 : Z) (q : queue) : nat :=
  Z.to_nat ((Z.max 0 (Z.of_nat (length q) - i0) + 1) / 2).

Lemma drain_spec fuel : forall i q log,
  0 <= i -> Z.of_nat (length q) - i <= 2 * Z.of_nat fuel ->
  drain fuel i q log
  = (drop (drained i q) q, log ++ released_data (take (drained i q) q)).
Proof.
  induction fuel as [|fuel IH]; intros i q log Hi Hfuel.
  - cbn [drain]. unfold drained.
    replace (Z.max 0 (Z.of_nat (length q) - i)) with 0 by lia.
    cbn. now rewrite app_nil_r.
  - cbn [drain]. destruct (Z.ltb_spec i (Z.of_nat (length q))) as [Hlt|Hge].
    + destruct q as [|m q']; [cbn in Hlt; lia|].
      cbn [pop]. cbn [length] in Hlt, Hfuel.
      rewrite IH by lia.
      assert (Hk : drained i (m :: q') = S (drained (i + 1) q')).
      { unfold drained. cbn [length].
        assert (Hstep :
          (Z.max 0 (Z.of_nat (S (length q')) - i) + 1) / 2
          = (Z.max 0 (Z.of_nat (length q') - (i + 1)) + 1) / 2 + 1).
        { Z.div_mod_to_equations. lia. }
        rewrite Hstep.
        rewrite Z2Nat.inj_add by (try apply Z.div_pos; lia).
        change (Z.to_nat 1) with 1%nat. lia. }
      rewrite Hk. cbn [drop take]. f_equal.
      unfold released_data. cbn [flat_map].
      destruct (message_data m =? nullptr); cbn [app].
      * reflexivity.
      * now rewrite <- app_assoc.
    + unfold drained.
      replace (Z.max 0 (Z.of_nat (length q) - i)) with 0 by lia.
      cbn. now rewrite app_nil_r.
Qed.

(** [Reset(c)] does not empty the queues of the connection.  Its loops
    compare [i] with the size of the queue they are shrinking, so each stops
    half way: of [n] queued messages the first [(n + 1) / 2] are popped and
    their data released, and the last [n / 2] stay queued.  The error level
    is back at [ERROR_NONE]. *)
Theorem Reset_leaves_half c st :
  wf st -> 0 <= c < max_connection_count ->
  let sq := aget (m_message_send_queue st) c in
  let rq := aget (m_message_receive_queue st) c in
  let ns := Z.to_nat ((Z.of_nat (length sq) + 1) / 2) in
  let nr := Z.to_nat ((Z.of_nat (length rq) + 1) / 2) in
  exists st',
    Reset c st = Done st' /\
    aget (m_error_level st') c = ERROR_NONE /\
    aget (m_message_send_queue st') c = drop ns sq /\
    aget (m_message_receive_queue st') c = drop nr rq /\
    Z.of_nat (length (aget (m_message_send_queue st') c)) = Z.of_nat (length sq) / 2 /\
    released st'
    = released st ++ released_data (take ns sq) ++ released_data (take nr rq).
Proof.
  intros (H1 & H2 & H3 & H4) Hc. cbv zeta.
  assert (Hok : connection_ok c = true) by now apply connection_ok_true.
  assert (Hdrained : forall q, drained 0 q = Z.to_nat ((Z.of_nat (length q) + 1) / 2)).
  { intros q. unfold drained. do 2 f_equal. lia. }
  unfold Reset, SetErrorLevel. rewrite Hok. cbn [bind ASSERT_CRASH].
  cbn [m_error_level m_message_send_queue m_message_receive_queue m_counters_array released].
  rewrite !drain_spec by lia. rewrite !Hdrained.
  eexists. split; [reflexivity|].
  cbn [m_error_level m_message_send_queue m_message_receive_queue m_counters_array released].
  rewrite !aget_aset_eq by lia.
  split; [reflexivity|]. split; [reflexivity|]. split; [reflexivity|].
  split; [|now rewrite <- app_assoc].
  rewrite length_drop.
  set (n := Z.of_nat (length (aget (m_message_send_queue st) c))).
  assert (Hn : 0 <= n) by lia.
  assert (Hhalf : 0 <= (n + 1) / 2 <= n) by (Z.div_mod_to_equations; lia).
  rewrite Nat2Z.inj_sub by lia. fold n. rewrite Z2Nat.id by lia.
  Z.div_mod_to_equations. lia.
Qed.

End Channel.

(** Two connections, queues of four messages, nothing sent yet. *)
Definition two_connections : state :=
  mkState [ERROR_NONE; ERROR_NONE] [[]; []] [[]; [mkMessage 7 0 false 0 0 1000]]
    [0; 0; 0; 0] [].

Example send_on_connection_1 :
  let message := mkMessage 7 0 false 0 0 1000 in
  match SendMessage 2 4 1 message two_connections with
  | Done st' =>
      m_counters_array st' = [0; 0; 1; 0] /\
      GetCounter 2 1 CHANNEL_COUNTER_MESSAGES_SENT st' = Done 0
  | Crash => False
  end.
Proof. vm_compute. split; reflexivity. Qed.

Lemma GetCounter_flat_index_witness :
  GetCounter 2 1 CHANNEL_COUNTER_MESSAGES_SENT two_connections
  = Done (aget (m_counters_array two_connections) CHANNEL_COUNTER_MESSAGES_SENT).
Proof.
  refine (proj1 (GetCounter_flat_index 2 4 1 CHANNEL_COUNTER_MESSAGES_SENT
                   (mkMessage 7 0 false 0 0 1000) two_connections _ _ _)).
  - vm_compute. repeat split; reflexivity.
  - lia.
  - unfold CHANNEL_COUNTER_MESSAGES_SENT, CHANNEL_COUNTER_NUMBER_OF_COUNTERS. lia.
Defined.

(** One connection with a send queue of two messages, both queued, and
    three messages waiting in the receive queue. *)
Definition full_queue : state :=
  mkState [ERROR_NONE]
    [[mkMessage 1 0 false 0 0 1000; mkMessage 2 0 false 0 0 2000]]
    [[mkMessage 3 0 false 0 0 3000; mkMessage 4 0 false 0 0 0;
      mkMessage 5 0 false 0 0 5000]]
    [2; 0] [].

Lemma full_queue_wf : wf 1 full_queue.
Proof. vm_compute. repeat split; reflexivity. Qed.

Lemma SendMessage_queue_full_witness :
  exists st',
    SendMessage 1 2 0 (mkMessage 9 0 false 0 0 9000) full_queue = Done st' /\
    aget (m_error_level st') 0 = CHANNEL_ERROR_SEND_QUEUE_FULL /\
    released st' = [9000].
Proof.
  destruct (SendMessage_queue_full 1 2 0 (mkMessage 9 0 false 0 0 9000) full_queue
              full_queue_wf ltac:(lia) eq_refl eq_refl)
    as (st' & Hsend & Herr & _ & _ & _ & Hrel & _).
  exists st'. repeat split; assumption.
Defined.

Lemma SendMessage_queue_bounded_witness :
  Z.of_nat (length (aget (m_message_send_queue
                            (Release 9000
                               (mkState [CHANNEL_ERROR_SEND_QUEUE_FULL]
                                  (m_message_send_queue full_queue)
                                  (m_message_receive_queue full_queue) [2; 0] []))) 0))
  <= 2.
Proof.
  refine (proj2 (SendMessage_queue_bounded 1 2 0 (mkMessage 9 0 false 0 0 9000)
                   full_queue _ full_queue_wf _ _ _)).
  - lia.
  - vm_compute. discriminate.
  - reflexivity.
Defined.

Lemma Reset_leaves_half_witness :
  exists st',
    Reset 1 0 full_queue = Done st' /\
    aget (m_message_send_queue st') 0 = [mkMessage 2 0 false 0 0 2000] /\
    aget (m_message_receive_queue st') 0 = [mkMessage 5 0 false 0 0 5000] /\
    released st' = [1000; 3000].
Proof.
  destruct (Reset_leaves_half 1 0 full_queue full_queue_wf ltac:(lia))
    as (st' & Hreset & _ & Hsend & Hreceive & _ & Hreleased).
  exists st'. repeat split; assumption.
Defined.

End UnreliableUnordered.

(** ** Streams (WriteStream.hpp, WriteStream.cpp, ReadStream.hpp, ReadStream.cpp)

    The stream classes of the sources take the bounds of an integer as
    template arguments ([SerialiseInteger<T, TMin, TMax>(value)]); the
    channels pass them as arguments ([SerialiseInteger(value, min, max)]).
    The computation is the same and is written here once, with the bounds as
    arguments.  A read returns its value, [None] when the call returns
    [false], and the stream after the call. *)

Module Stream.
Import SerialiseBit Bits.

Definition WriteStream : Type := BitWriter.
Definition ReadStream : Type := BitReader.

Definition newWriteStream (buffer : list Z) (bytes : Z) : WriteStream :=
  newBitWriter buffer bytes.

Definition newReadStream (buffer : list Z) (bytes : Z) : ReadStream :=
  newBitReader buffer bytes.

(** [SerialiseInteger]: [value - TMin] in [BitsRequired(TMin, TMax)] bits. *)
Definition SerialiseInteger (value min max : Z) (s : WriteStream) : WriteStream :=
  WriteBits (wrap32 (value - min)) (BitsRequired min max) s.

Definition SerialiseBits (value bits : Z) (s : WriteStream) : WriteStream :=
  WriteBits value bits s.

Definition SerialiseAlign (s : WriteStream) : WriteStream :=
  WriteZeroPaddingToAlignByteBoundary s.

Definition SerialiseBytes (data : list Z) (bytes : Z) (s : WriteStream) : WriteStream :=
  WriteBytes data bytes (SerialiseAlign s).

Definition Flush (s : WriteStream) : WriteStream := FlushBits s.

Definition WriteStream_GetBytesProcessed (s : WriteStream) : Z := GetBytesWritten s.
Definition WriteStream_GetBitsProcessed (s : WriteStream) : Z := GetBitsWritten s.

(** [DeserialiseInteger<T, TMin, TMax>]: [unsigned_of] is the conversion to
    [std::make_unsigned_t<T>] and [cast] the one to [T]. *)
Definition DeserialiseInteger (unsigned_of cast : Z -> Z) (min max : Z) (s : ReadStream)
  : option Z * ReadStream :=
  let bits := BitsRequired min max in
  if WouldReadPastEnd bits s then (None, s)
  else
    let '(raw, s') := ReadBits bits s in
    (Some (cast (unsigned_of raw + min)), s').

(** [DeserialiseBits<T>(value, bits)] *)
Definition DeserialiseBits (cast : Z -> Z) (bits : Z) (s : ReadStream)
  : option Z * ReadStream :=
  if WouldReadPastEnd bits s then (None, s)
  else
    let '(raw, s') := ReadBits bits s in
    (Some (cast raw), s').

Definition DeserialiseBool (s : ReadStream) : option bool * ReadStream :=
  match DeserialiseBits wrap32 1 s with
  | (None, s') => (None, s')
  | (Some v, s') => (Some (negb (v =? 0)), s')
  end.

(** [DeserialiseAlign]: the flag and the stream. *)
Definition DeserialiseAlign (s : ReadStream) : bool * ReadStream :=
  if WouldReadPastEnd (ReaderGetAlignBits s) s then (false, s)
  else SkipToByteBoundaryAndVerifyZeroPadding s.

(** [DeserialiseBytes(data, bytes)]; [data] is the destination. *)
Definition DeserialiseBytes (data : list Z) (bytes : Z) (s : ReadStream)
  : option (list Z) * ReadStream :=
  match DeserialiseAlign s with
  | (false, s') => (None, s')
  | (true, s') =>
      if WouldReadPastEnd (bytes * bits_per_byte) s' then (None, s')
      else let '(data', s'') := ReadBytes data bytes s' in (Some data', s'')
  end.

(** One tier of [DeserialiseUnsignedIntegerRelative]: read the flag; when it
    is set read the difference in [[min, max]] and return
    [previous + difference] in [T]; when it is clear go on with [next]. *)
Definition relative_tier (cast : Z -> Z) (previous min max : Z)
    (next : ReadStream -> option Z * ReadStream) (s : ReadStream)
  : option Z * ReadStream :=
  match DeserialiseBool s with
  | (None, s') => (None, s')
  | (Some true, s') =>
      match DeserialiseInteger cast cast min max s' with
      | (None, s'') => (None, s'')
      | (Some difference, s'') => (Some (cast (previous + difference)), s'')
      end
  | (Some false, s') => next s'
  end.

(** [DeserialiseUnsignedIntegerRelative<T>] for [T = std::uint16_t]
    ([wide = false]) and [T = std::uint32_t] ([wide = true]). *)
Definition DeserialiseUnsignedIntegerRelative (wide : bool) (previous : Z) (s : ReadStream)
  : option Z * ReadStream :=
  let cast := if wide then wrap32 else wrap16 in
  match DeserialiseBool s with
  | (None, s') => (None, s')
  | (Some true, s') => (Some (cast (previous + 1)), s')
  | (Some false, s') =>
      relative_tier cast previous 2 5
        (relative_tier cast previous 6 21
           (relative_tier cast previous 22 277
              (relative_tier cast previous 278 4373
                 (if wide then
                    relative_tier cast previous 4374 69909
                      (DeserialiseInteger cast cast 0 4294967295)
                  else DeserialiseInteger cast cast 0 65535)))) s'
  end.

(** [DeserialiseSequenceRelative]: decoded as a 32-bit value, then cut to
    16 bits. *)
Definition DeserialiseSequenceRelative (sequence1 : Z) (s : ReadStream)
  : option Z * ReadStream :=
  match DeserialiseUnsignedIntegerRelative true sequence1 s with
  | (None, s') => (None, s')
  | (Some b, s') => (Some (wrap16 b), s')
  end.

Definition ReadStream_GetAlignBits (s : ReadStream) : Z := ReaderGetAlignBits s.
Definition ReadStream_GetBitsProcessed (s : ReadStream) : Z := r_bits_read s.
Definition ReadStream_GetBytesProcessed (s : ReadStream) : Z := (r_bits_read s + 7) / bits_per_byte.

(** The stream test "roundtrip bools and bytes". *)
Example stream_bools_and_bytes :
  let w := newWriteStream (replicate 32 0) 32 in
  let w := SerialiseBits 1 1 w in
  let w := SerialiseBits 0 1 w in
  let w := SerialiseBytes [1; 171; 255; 17; 34] 5 w in
  let w := Flush w in
  let r := newReadStream (w_data w) 32 in
  let '(a, r) := DeserialiseBool r in
  let '(b, r) := DeserialiseBool r in
  let '(bytes, _) := DeserialiseBytes (replicate 5 0) 5 r in
  (a, b, bytes) = (Some true, Some false, Some [1; 171; 255; 17; 34]).
Proof. vm_compute. reflexivity. Qed.

(** *** Round trip of bounded integers

    A run of integers, each with its range, written with
    [SerialiseInteger] and flushed, and read back with
    [DeserialiseInteger<std::uint32_t, min, max>]. *)

Definition serialise_integers (fields : list (Z * Z * Z)) (s : WriteStream) : WriteStream :=
  fold_left (fun s f => SerialiseInteger (fst (fst f)) (snd (fst f)) (snd f) s) fields s.

Fixpoint deserialise_integers (ranges : list (Z * Z)) (s : ReadStream)
  : option (list Z) * ReadStream :=
  match ranges with
  | [] => (Some [], s)
  | range :: rest =>
      match DeserialiseInteger wrap32 wrap32 (fst range) (snd range) s with
      | (None, s') => (None, s')
      | (Some value, s') =>
          match deserialise_integers rest s' with
          | (None, s'') => (None, s'')
          | (Some values, s'') => (Some (value :: values), s'')
          end
      end
  end.

(** A value within its range, the range not empty (the [static_assert] of
    the streams) and within 32 bits. *)
Definition integer_ok (f : Z * Z * Z) : Prop :=
  0 <= snd (fst f) <= fst (fst f) /\ fst (fst f) <= snd f /\
  snd (fst f) < snd f /\ snd f < 4294967296.

(** The field [WriteBits] gets for an integer. *)
Definition integer_field (f : Z * Z * Z) : Z * Z :=
  (wrap32 (fst (fst f) - snd (fst f)), BitsRequired (snd (fst f)) (snd f)).

Lemma integer_field_ok f : integer_ok f -> field_ok (integer_field f).
Proof.
  destruct f as [[value min] max]. unfold integer_ok, integer_field, field_ok.
  cbn [fst snd]. intros (Hmin & Hmax & Hlt & H32).
  rewrite wrap32_small by lia. rewrite BitsRequired_log2 by lia.
  pose proof (Z.log2_spec (max - min) ltac:(lia)) as Hspec.
  pose proof (Z.log2_nonneg (max - min)) as Hnonneg.
  assert (Hlog : Z.log2 (max - min) < 32) by (apply Z.log2_lt_pow2; lia).
  replace (Z.log2 (max - min) + 1) with (Z.succ (Z.log2 (max - min))) by lia.
  lia.
Qed.

Lemma serialise_integers_fields fields s :
  serialise_integers fields s = write_fields (map integer_field fields) s.
Proof.
  revert s. induction fields as [|f rest IH]; intros s; [reflexivity|].
  cbn [serialise_integers write_fields fold_left map]. apply IH.
Qed.

Lemma deserialise_integers_pack data bytes T N fields : forall r t,
  reader_holds data r N t ->
  (forall j, 0 <= j -> 32 * j < T ->
     load_word data j = (N / 2 ^ (32 * j)) mod 2 ^ 32) ->
  Forall integer_ok fields ->
  N / 2 ^ t = pack (map integer_field fields) ->
  r_bits_read r = t -> r_number_of_bytes r = bytes ->
  t + total_bits (map integer_field fields) <= T ->
  T <= bytes * 8 -> bytes * 8 < 4294967296 ->
  fst (deserialise_integers (map (fun f => (snd (fst f), snd f)) fields) r)
  = Some (map (fun f => fst (fst f)) fields).
Proof.
  induction fields as [|f rest IH];
    intros r t Hr Hwords Hok Hq Hread Hbytes Hroom HT H32; [reflexivity|].
  inversion Hok as [|? ? Hf Hrest]; subst.
  pose proof (integer_field_ok f Hf) as Hfield.
  assert (Hrest' : Forall field_ok (map integer_field rest)).
  { clear -Hrest. induction Hrest; constructor; [now apply integer_field_ok | assumption]. }
  pose proof (total_bits_nonneg _ Hrest') as Hnonneg.
  destruct f as [[value min] max].
  destruct Hf as (Hmin & Hmax & Hlt & Hmax32). cbn [fst snd] in Hmin, Hmax, Hlt, Hmax32.
  destruct Hfield as [Hbits Hvalue]. unfold integer_field in Hbits, Hvalue.
  cbn [fst snd] in Hbits, Hvalue. rewrite wrap32_small in Hvalue by lia.
  cbn [map total_bits integer_field fst snd] in Hroom.
  cbn [map pack integer_field fst snd] in Hq. rewrite wrap32_small in Hq by lia.
  set (bits := BitsRequired min max) in *.
  assert (Ht : 0 <= r_bits_read r) by (destruct Hr as (_ & ? & _); assumption).
  destruct (ReadBits_holds data r N (r_bits_read r) T bits Hr Hwords Hbits ltac:(lia))
    as [Hout Hr'].
  pose proof (pow2_pos bits ltac:(lia)) as Hpbits.
  cbn [map deserialise_integers fst snd].
  unfold DeserialiseInteger, WouldReadPastEnd, bits_per_byte. fold bits.
  destruct (Z.ltb_spec (r_number_of_bytes r * 8) (r_bits_read r + bits)); [lia|].
  destruct (ReadBits bits r) as [raw r'] eqn:Eread. cbn [fst snd] in Hout, Hr'.
  assert (Hraw : raw = value - min).
  { rewrite Hout, Hq. rewrite (Z.mul_comm (2 ^ bits)), Z.mod_add by lia.
    apply Z.mod_small. lia. }
  assert (Hread' : r_bits_read r' = r_bits_read r + bits).
  { apply (f_equal snd) in Eread. cbn [snd] in Eread. subst r'.
    unfold ReadBits. cbn [r_bits_read]. apply wrap32_small. lia. }
  assert (Hbytes' : r_number_of_bytes r' = r_number_of_bytes r).
  { apply (f_equal snd) in Eread. cbn [snd] in Eread. subst r'. reflexivity. }
  specialize (IH r' (r_bits_read r + bits) Hr' Hwords Hrest).
  destruct (deserialise_integers (map (fun f => (snd (fst f), snd f)) rest) r')
    as [[values|] r''].
  - cbn [fst] in *. f_equal. f_equal.
    + rewrite Hraw. rewrite (wrap32_small (value - min)) by lia.
      replace (value - min + min) with value by lia.
      apply wrap32_small. lia.
    + assert (Some values = Some (map (fun f => fst (fst f)) rest)) as [= ->];
        [|reflexivity].
      apply IH; try lia.
      rewrite <- div_pow2_add by lia. rewrite Hq.
      rewrite (Z.mul_comm (2 ^ bits)), Z.div_add by lia.
      rewrite Z.div_small by lia. lia.
  - cbn [fst] in *. exfalso.
    assert (None = Some (map (fun f => fst (fst f)) rest)) as [=].
    apply IH; try lia.
    rewrite <- div_pow2_add by lia. rewrite Hq.
    rewrite (Z.mul_comm (2 ^ bits)), Z.div_add by lia.
    rewrite Z.div_small by lia. lia.
Qed.



End Stream.

(** ** Reliable ordered channel (ReliableOrderedChannel.h) *)

Module ReliableOrdered.
Import Sequence SerialiseBit Bits Stream Channel.

(** The template parameters of the class, and those of its member templates
    [GetPacketData<number_of_channels, channel_index>]. *)
Record Config := mkConfig {
  max_connection_count : Z;
  message_resend_time : Z;
  message_send_queue_size : Z;
  message_receive_queue_size : Z;
  message_sent_queue_size : Z;
  max_messages_per_packet : Z;
  packet_budget : Z;
  max_message_type_number : Z;
  max_number_of_fragments : Z;
  max_fragment_size : Z;
  fragment_resend_time : Z;
  number_of_channels : Z;
  channel_index : Z
}.

(** The packet handler of the connection manager (user code). *)
Record PacketHandler := mkHandler {
  GetMessageSizeInBits : Z -> Z;
  SerialiseMessage : ChannelMessage -> WriteStream -> WriteStream;
  (** the returned flag, the message and the stream after the call *)
  DeserialiseMessage : ChannelMessage -> ReadStream -> bool * ChannelMessage * ReadStream
}.

Record MessageSendQueueEntry := mkSendEntry {
  m_channel_message : ChannelMessage;
  measuredBits : Z;
  block : bool;
  time_last_sent : Z
}.

Record MessageReceiveQueueEntry := mkReceiveEntry {
  r_channel_message : ChannelMessage
}.

(** [message_ids] points into [m_sent_packet_message_ids_array]; it is kept
    as the offset of its target there ([None] for [nullptr]). *)
Record SentPacketEntry := mkSentEntry {
  message_ids : option Z;
  numMessageIds : Z;
  acked : bool;
  sent_block : bool;
  block_message_id : Z;
  block_fragment_id : Z;
  time_sent : Z
}.

Record SendBlockData := mkSendBlock {
  sb_active : bool;
  sb_block_size : Z;
  sb_number_of_fragments : Z;
  sb_number_of_acked_fragments : Z;
  sb_block_message_id : Z;
  sb_acked_fragment : list bool;
  sb_fragment_send_time : list Z
}.

Record ReceiveBlockData := mkReceiveBlock {
  rb_active : bool;
  rb_number_of_fragments : Z;
  rb_number_of_received_fragments : Z;
  rb_message_id : Z;
  rb_block_size : Z;
  rb_received_fragment : list bool;
  rb_block_data : list Z;
  rb_message : ChannelMessage
}.

Definition MessageSendQueueEntry_default : MessageSendQueueEntry :=
  mkSendEntry ChannelMessage_default 0 false 0.
Definition MessageReceiveQueueEntry_default : MessageReceiveQueueEntry :=
  mkReceiveEntry ChannelMessage_default.
Definition SentPacketEntry_default : SentPacketEntry :=
  mkSentEntry None 0 false false 0 0 0.

#[global] Instance MessageSendQueueEntry_inhabited : Inhabited MessageSendQueueEntry :=
  populate MessageSendQueueEntry_default.
#[global] Instance MessageReceiveQueueEntry_inhabited : Inhabited MessageReceiveQueueEntry :=
  populate MessageReceiveQueueEntry_default.
#[global] Instance SentPacketEntry_inhabited : Inhabited SentPacketEntry :=
  populate SentPacketEntry_default.

Record state := mkState {
  m_error_level_array : list ErrorLevel;
  m_send_message_ids : list Z;
  m_receive_message_ids : list Z;
  m_oldest_unacked_message_ids : list Z;
  m_sent_packets : ReliableBuffer.t (T := SentPacketEntry);
  m_message_send_queues : ReliableBuffer.t (T := MessageSendQueueEntry);
  m_message_receive_queues : ReliableBuffer.t (T := MessageReceiveQueueEntry);
  m_sent_packet_message_ids_array : list Z;
  m_send_blocks : list SendBlockData;
  m_receive_blocks : list ReceiveBlockData;
  m_counters_array : list Z;
  (** the pointers handed to [Global::GMemory->Release], oldest first *)
  released : list Z
}.

Section Channel.

Variable cfg : Config.
Variable handler : PacketHandler.

(** [SendBlockData::Reset] and [ReceiveBlockData::Reset] *)
Definition SendBlockData_Reset (b : SendBlockData) : SendBlockData :=
  mkSendBlock false 0 0 0 0
    (replicate (Z.to_nat (max_number_of_fragments cfg)) false)
    (replicate (Z.to_nat (max_number_of_fragments cfg)) 0).

Definition ReceiveBlockData_Reset (b : ReceiveBlockData) : ReceiveBlockData :=
  mkReceiveBlock false 0 0 0 0
    (replicate (Z.to_nat (max_number_of_fragments cfg)) false)
    (rb_block_data b) (rb_message b).

#[local] Instance SendBlockData_inhabited : Inhabited SendBlockData :=
  populate (mkSendBlock false 0 0 0 0 [] []).
#[local] Instance ReceiveBlockData_inhabited : Inhabited ReceiveBlockData :=
  populate (mkReceiveBlock false 0 0 0 0 [] [] ChannelMessage_default).

(** The two assertions that open every member function, and those of the
    buffers' member functions. *)
Definition connection_ok (connection_index : Z) : bool :=
  (0 <=? connection_index) && (connection_index <? max_connection_count cfg).

(** Field updates. *)
Definition set_error_levels v st :=
  mkState v (m_send_message_ids st) (m_receive_message_ids st)
    (m_oldest_unacked_message_ids st) (m_sent_packets st) (m_message_send_queues st)
    (m_message_receive_queues st) (m_sent_packet_message_ids_array st)
    (m_send_blocks st) (m_receive_blocks st) (m_counters_array st) (released st).
Definition set_send_message_ids v st :=
  mkState (m_error_level_array st) v (m_receive_message_ids st)
    (m_oldest_unacked_message_ids st) (m_sent_packets st) (m_message_send_queues st)
    (m_message_receive_queues st) (m_sent_packet_message_ids_array st)
    (m_send_blocks st) (m_receive_blocks st) (m_counters_array st) (released st).
Definition set_receive_message_ids v st :=
  mkState (m_error_level_array st) (m_send_message_ids st) v
    (m_oldest_unacked_message_ids st) (m_sent_packets st) (m_message_send_queues st)
    (m_message_receive_queues st) (m_sent_packet_message_ids_array st)
    (m_send_blocks st) (m_receive_blocks st) (m_counters_array st) (released st).
Definition set_oldest_unacked_message_ids v st :=
  mkState (m_error_level_array st) (m_send_message_ids st) (m_receive_message_ids st)
    v (m_sent_packets st) (m_message_send_queues st)
    (m_message_receive_queues st) (m_sent_packet_message_ids_array st)
    (m_send_blocks st) (m_receive_blocks st) (m_counters_array st) (released st).
Definition set_sent_packets v st :=
  mkState (m_error_level_array st) (m_send_message_ids st) (m_receive_message_ids st)
    (m_oldest_unacked_message_ids st) v (m_message_send_queues st)
    (m_message_receive_queues st) (m_sent_packet_message_ids_array st)
    (m_send_blocks st) (m_receive_blocks st) (m_counters_array st) (released st).
Definition set_message_send_queues v st :=
  mkState (m_error_level_array st) (m_send_message_ids st) (m_receive_message_ids st)
    (m_oldest_unacked_message_ids st) (m_sent_packets st) v
    (m_message_receive_queues st) (m_sent_packet_message_ids_array st)
    (m_send_blocks st) (m_receive_blocks st) (m_counters_array st) (released st).
Definition set_message_receive_queues v st :=
  mkState (m_error_level_array st) (m_send_message_ids st) (m_receive_message_ids st)
    (m_oldest_unacked_message_ids st) (m_sent_packets st) (m_message_send_queues st)
    v (m_sent_packet_message_ids_array st)
    (m_send_blocks st) (m_receive_blocks st) (m_counters_array st) (released st).
Definition set_sent_packet_message_ids_array v st :=
  mkState (m_error_level_array st) (m_send_message_ids st) (m_receive_message_ids st)
    (m_oldest_unacked_message_ids st) (m_sent_packets st) (m_message_send_queues st)
    (m_message_receive_queues st) v
    (m_send_blocks st) (m_receive_blocks st) (m_counters_array st) (released st).
Definition set_send_blocks v st :=
  mkState (m_error_level_array st) (m_send_message_ids st) (m_receive_message_ids st)
    (m_oldest_unacked_message_ids st) (m_sent_packets st) (m_message_send_queues st)
    (m_message_receive_queues st) (m_sent_packet_message_ids_array st)
    v (m_receive_blocks st) (m_counters_array st) (released st).
Definition set_receive_blocks v st :=
  mkState (m_error_level_array st) (m_send_message_ids st) (m_receive_message_ids st)
    (m_oldest_unacked_message_ids st) (m_sent_packets st) (m_message_send_queues st)
    (m_message_receive_queues st) (m_sent_packet_message_ids_array st)
    (m_send_blocks st) v (m_counters_array st) (released st).
Definition set_counters_array v st :=
  mkState (m_error_level_array st) (m_send_message_ids st) (m_receive_message_ids st)
    (m_oldest_unacked_message_ids st) (m_sent_packets st) (m_message_send_queues st)
    (m_message_receive_queues st) (m_sent_packet_message_ids_array st)
    (m_send_blocks st) (m_receive_blocks st) v (released st).

(** [Global::GMemory->Release(p)] *)
Definition Release (p : Z) (st : state) : state :=
  mkState (m_error_level_array st) (m_send_message_ids st) (m_receive_message_ids st)
    (m_oldest_unacked_message_ids st) (m_sent_packets st) (m_message_send_queues st)
    (m_message_receive_queues st) (m_sent_packet_message_ids_array st)
    (m_send_blocks st) (m_receive_blocks st) (m_counters_array st) (released st ++ [p]).

(** The entry behind a pointer returned by a buffer. *)
Definition with_data {T} (b : ReliableBuffer.t (T := T)) (data : list T) : ReliableBuffer.t :=
  ReliableBuffer.mk (ReliableBuffer.m_sequence b) (ReliableBuffer.m_entry_sequence b) data.

Definition GetErrorLevel (connection_index : Z) (st : state) : outcome ErrorLevel :=
  crash_unless connection_ok connection_index in
  Done (aget (m_error_level_array st) connection_index).

Definition SetErrorLevel (connection_index : Z) (error_level : ErrorLevel) (st : state)
  : outcome state :=
  crash_unless connection_ok connection_index in
  Done (set_error_levels (aset (m_error_level_array st) connection_index error_level) st).

Definition HasMessagesToSend (connection_index : Z) (st : state) : outcome bool :=
  crash_unless connection_ok connection_index in
  Done (negb (aget (m_oldest_unacked_message_ids st) connection_index
              =? aget (m_send_message_ids st) connection_index)).

Definition CanSendMessage (connection_index : Z) (st : state) : outcome bool :=
  crash_unless connection_ok connection_index in
  (* ReliableBuffer::Available *)
  crash_unless connection_ok connection_index in
  Done (ReliableBuffer.Available (message_send_queue_size cfg) connection_index
          (aget (m_send_message_ids st) connection_index) (m_message_send_queues st)).

Definition outcome_map {A B} (f : A -> B) (m : outcome A) : outcome B :=
  match m with
  | Done a => Done (f a)
  | Crash => Crash
  end.

(** [++m_counters_array[i]] on 64-bit counters. *)
Definition increment (counters : list Z) (i : Z) : list Z :=
  aset counters i (wrap64 (aget counters i + 1)).

Definition with_message_id (m : ChannelMessage) (id : Z) : ChannelMessage :=
  mkMessage (message_protocol m) id (is_block m) (block_offset m) (block_size m)
    (message_data m).

Definition with_message_data (m : ChannelMessage) (p : Z) : ChannelMessage :=
  mkMessage (message_protocol m) (message_id m) (is_block m) (block_offset m)
    (block_size m) p.

(** [SendMessage].  The line [message->m_packet_sequence = ...] names a
    member the message does not have; it is read as the assignment of
    [message_id], which [ProcessAcknowledgement] and [ReceiveMessage] assert
    on.  The call [m_message_send_queues.Insert(m_send_message_ids[c], c)]
    is kept as written: the send id is passed for [connection_index] and the
    connection index for [sequence]. *)
Definition SendMessage (connection_index : Z) (message : ChannelMessage) (st : state)
  : outcome state :=
  crash_unless connection_ok connection_index in
  let* error_level := GetErrorLevel connection_index st in
  if negb (ErrorLevel_eqb error_level ERROR_NONE) then
    Done (Release (message_data message) st)
  else
    let* can_send := CanSendMessage connection_index st in
    if negb can_send then
      let* st := SetErrorLevel connection_index CHANNEL_ERROR_SEND_QUEUE_FULL st in
      Done (Release (message_data message) st)
    else
      let send_id := aget (m_send_message_ids st) connection_index in
      let message := with_message_id message send_id in
      crash_unless connection_ok send_id in
      let '(queue, entry) :=
        ReliableBuffer.Insert (message_send_queue_size cfg) send_id
          (wrap16 connection_index) (m_message_send_queues st) in
      match entry with
      | None => Crash
      | Some p =>
          crash_unless (negb (is_block message)
                        || ((0 <? block_size message)
                            && (block_size message
                                <=? max_number_of_fragments cfg * max_fragment_size cfg))) in
          let e :=
            mkSendEntry message
              (GetMessageSizeInBits handler (message_protocol message) mod 2147483648)
              (is_block message) (-1) in
          let queue := with_data queue (aset (ReliableBuffer.m_entry_data queue) p e) in
          let st := set_message_send_queues queue st in
          let st :=
            set_counters_array
              (increment (m_counters_array st)
                 (connection_index * CHANNEL_COUNTER_NUMBER_OF_COUNTERS
                  + CHANNEL_COUNTER_MESSAGES_SENT)) st in
          Done (set_send_message_ids
                  (aset (m_send_message_ids st) connection_index (wrap16 (send_id + 1))) st)
      end.

(** [ReceiveMessage]: the returned flag, the message written through the
    reference (when the flag is true) and the state. *)
Definition ReceiveMessage (connection_index : Z) (st : state)
  : outcome (bool * option ChannelMessage * state) :=
  crash_unless connection_ok connection_index in
  let* error_level := GetErrorLevel connection_index st in
  if negb (ErrorLevel_eqb error_level ERROR_NONE) then Done (false, None, st)
  else
    let receive_id := aget (m_receive_message_ids st) connection_index in
    match ReliableBuffer.Find (message_receive_queue_size cfg) connection_index receive_id
            (m_message_receive_queues st) with
    | None => Done (false, None, st)
    | Some p =>
        let message :=
          r_channel_message
            (aget (ReliableBuffer.m_entry_data (m_message_receive_queues st)) p) in
        crash_unless (message_id message =? receive_id) in
        let st :=
          set_message_receive_queues
            (ReliableBuffer.Remove (message_receive_queue_size cfg) connection_index
               receive_id (m_message_receive_queues st)) st in
        let st :=
          set_counters_array
            (increment (m_counters_array st)
               (connection_index * CHANNEL_COUNTER_NUMBER_OF_COUNTERS
                + CHANNEL_COUNTER_MESSAGES_RECEIVED)) st in
        Done (true, Some message,
              set_receive_message_ids
                (aset (m_receive_message_ids st) connection_index (wrap16 (receive_id + 1)))
                st)
    end.

Definition SendingBlockMessage (connection_index : Z) (st : state) : outcome bool :=
  crash_unless connection_ok connection_index in
  let* has := HasMessagesToSend connection_index st in
  crash_unless has in
  match ReliableBuffer.Find (message_send_queue_size cfg) connection_index
          (aget (m_oldest_unacked_message_ids st) connection_index)
          (m_message_send_queues st) with
  | Some p => Done (block (aget (ReliableBuffer.m_entry_data (m_message_send_queues st)) p))
  | None => Done false
  end.

(** The local variables of [GetMessagesToSend] that its loop changes, with
    the entries of the send queue (for [time_last_sent]). *)
Record scan := mkScan {
  s_messageIds : list Z;
  s_numMessageIds : Z;
  s_previousMessageId : Z;
  s_usedBits : Z;
  s_giveUpCounter : Z;
  s_entries : list MessageSendQueueEntry
}.

(** The loop of [GetMessagesToSend] over the remaining values of [i]. *)
Fixpoint GetMessagesToSend_loop (connection_index available_bits now : Z) (st : state)
    (indices : list Z) (a : scan) : scan :=
  match indices with
  | [] => a
  | i :: rest =>
      let message_type_bits := BitsRequired 0 (max_message_type_number cfg) in
      let giveUpBits := message_type_bits + 4 * 8 in
      if available_bits - s_usedBits a <? giveUpBits then a
      else if message_send_queue_size cfg <? s_giveUpCounter a then a
      else
        let messageId :=
          wrap16 (aget (m_oldest_unacked_message_ids st) connection_index + i) in
        match ReliableBuffer.Find (message_send_queue_size cfg) connection_index messageId
                (m_message_send_queues st) with
        | None => GetMessagesToSend_loop connection_index available_bits now st rest a
        | Some p =>
            let entry := aget (s_entries a) p in
            if block entry then a
            else if (time_last_sent entry + message_resend_time cfg <=? now)
                    && (measuredBits entry <=? available_bits) then
              let messageBits :=
                measuredBits entry + message_type_bits
                + (if s_numMessageIds a =? 0 then 16
                   else GetRelativeSequenceEncodingBits (s_previousMessageId a) messageId) in
              if available_bits <? s_usedBits a + messageBits then
                GetMessagesToSend_loop connection_index available_bits now st rest
                  (mkScan (s_messageIds a) (s_numMessageIds a) (s_previousMessageId a)
                     (s_usedBits a) (s_giveUpCounter a + 1) (s_entries a))
              else
                let a' :=
                  mkScan (aset (s_messageIds a) (s_numMessageIds a) messageId)
                    (s_numMessageIds a + 1) messageId
                    (s_usedBits a + messageBits) (s_giveUpCounter a)
                    (aset (s_entries a) p
                       (mkSendEntry (m_channel_message entry) (measuredBits entry)
                          (block entry) now)) in
                if s_numMessageIds a' =? max_messages_per_packet cfg then a'
                else GetMessagesToSend_loop connection_index available_bits now st rest a'
            else if s_numMessageIds a =? max_messages_per_packet cfg then a
            else GetMessagesToSend_loop connection_index available_bits now st rest a
        end
  end.

(** [GetMessagesToSend]: [messageIds] is the caller's array, [now] the value
    of [GetTime()]; the result is the returned bit count, the array, the
    number of ids and the state. *)
Definition GetMessagesToSend (connection_index : Z) (messageIds : list Z)
    (available_bits now : Z) (st : state) : outcome (Z * list Z * Z * state) :=
  crash_unless connection_ok connection_index in
  let* has := HasMessagesToSend connection_index st in
  crash_unless has in
  let message_limit :=
    Z.min (message_send_queue_size cfg) (message_receive_queue_size cfg) in
  let available_bits :=
    if 0 <? packet_budget cfg then Z.min (packet_budget cfg * 8) available_bits
    else available_bits in
  let a :=
    GetMessagesToSend_loop connection_index available_bits now st (seqZ 0 message_limit)
      (mkScan messageIds 0 0 0 0 (ReliableBuffer.m_entry_data (m_message_send_queues st))) in
  Done (s_usedBits a, s_messageIds a, s_numMessageIds a,
        set_message_send_queues (with_data (m_message_send_queues st) (s_entries a)) st).

(** The loop of [GetMessagePacketData]: it runs over the whole array
    [message_ids], not over its first [number_of_message_ids] elements. *)
Fixpoint GetMessagePacketData_loop (connection_index : Z) (st : state)
    (ids : list Z) (stream : WriteStream) : outcome WriteStream :=
  match ids with
  | [] => Done stream
  | message_id :: rest =>
      match ReliableBuffer.Find (message_send_queue_size cfg) connection_index message_id
              (m_message_send_queues st) with
      | None => Crash
      | Some p =>
          let entry := aget (ReliableBuffer.m_entry_data (m_message_send_queues st)) p in
          crash_unless negb (message_data (m_channel_message entry) =? nullptr) in
          GetMessagePacketData_loop connection_index st rest
            (SerialiseMessage handler (m_channel_message entry) stream)
      end
  end.

Definition GetMessagePacketData (connection_index : Z) (stream : WriteStream)
    (message_ids : list Z) (number_of_message_ids : Z) (st : state) : outcome WriteStream :=
  crash_unless connection_ok connection_index in
  crash_unless negb (number_of_message_ids =? 0) in
  let stream := SerialiseInteger (channel_index cfg) 0 (number_of_channels cfg - 1) stream in
  let stream := SerialiseBits 0 1 stream in
  let stream := SerialiseBits 1 1 stream in
  let stream :=
    SerialiseInteger number_of_message_ids 1 (max_messages_per_packet cfg) stream in
  GetMessagePacketData_loop connection_index st message_ids stream.

(** [AddMessagePacketEntry]: the ids are copied to the part of
    [m_sent_packet_message_ids_array] that the entry points to. *)
Definition AddMessagePacketEntry (connection_index : Z) (message_ids : list Z)
    (numMessageIds sequence now : Z) (st : state) : outcome state :=
  crash_unless connection_ok connection_index in
  let '(sent, entry) :=
    ReliableBuffer.Insert (message_sent_queue_size cfg) connection_index sequence
      (m_sent_packets st) in
  match entry with
  | None => Crash
  | Some p =>
      let old := aget (ReliableBuffer.m_entry_data sent) p in
      let offset :=
        connection_index * max_messages_per_packet cfg
        + (sequence mod message_sent_queue_size cfg) * max_messages_per_packet cfg in
      let e :=
        mkSentEntry (Some offset) (wrap16 numMessageIds) false false
          (block_message_id old) (block_fragment_id old) now in
      let ids :=
        fold_left (fun arr i => aset arr (offset + i) (aget message_ids i))
          (seqZ 0 numMessageIds) (m_sent_packet_message_ids_array st) in
      Done (set_sent_packet_message_ids_array ids
              (set_sent_packets
                 (with_data sent (aset (ReliableBuffer.m_entry_data sent) p e)) st))
  end.

(** The fragment branch of [GetPacketData] ([GetFragmentToSend],
    [GetFragmentPacketData], [AddFragmentPacketEntry]) copies message bytes
    through raw pointers and is not embedded: it is an argument of
    [GetPacketData], applied where the source enters it, after the two
    budget tests of that branch. *)
Variable fragment_branch :
  Z -> WriteStream -> Z -> Z -> Z -> state -> outcome (Z * WriteStream * state).

(** [GetPacketData<number_of_channels, channel_index>]: [available_bits] is
    a 32-bit unsigned integer, [uninitialised] the indeterminate contents of
    the local array [message_ids]; the result is the returned bit count, the
    stream and the state. *)
Definition GetPacketData (connection_index : Z) (stream : WriteStream)
    (packet_sequence available_bits now : Z) (uninitialised : list Z) (st : state)
  : outcome (Z * WriteStream * state) :=
  crash_unless connection_ok connection_index in
  let channel_index_bits := BitsRequired 0 (number_of_channels cfg) in
  let number_of_messages_bits := BitsRequired 0 (max_messages_per_packet cfg) in
  let* has := HasMessagesToSend connection_index st in
  if negb has then Done (0, stream, st)
  else if channel_index_bits <? available_bits then Done (0, stream, st)
  else
    let available_bits := wrap32 (available_bits - channel_index_bits) in
    let* sending_block := SendingBlockMessage connection_index st in
    if sending_block then
      if available_bits <? max_fragment_size cfg * 8 + 1 then Done (0, stream, st)
      else
        let available_bits := wrap32 (available_bits - (max_fragment_size cfg * 8 + 1)) in
        fragment_branch connection_index stream packet_sequence available_bits now st
    else
      if available_bits <? number_of_messages_bits + 1 + 1 then Done (0, stream, st)
      else
        let available_bits :=
          wrap32 (available_bits - (channel_index_bits + number_of_messages_bits + 1 + 1)) in
        let* r :=
          GetMessagesToSend connection_index uninitialised (to_int32 available_bits) now st in
        let '(messageBits, message_ids, number_of_message_ids, st) := r in
        if 0 <? number_of_message_ids then
          let* stream :=
            GetMessagePacketData connection_index stream message_ids
              number_of_message_ids st in
          let* st :=
            AddMessagePacketEntry connection_index message_ids number_of_message_ids
              packet_sequence now st in
          Done (messageBits, stream, st)
        else Done (0, stream, st).

(** The loop of [UpdateOldestUnackedMessageID]: walk forward while the
    current id is neither [stop_message_id] nor in the send queue.  The id
    is 16 bits wide, so the walk meets [stop_message_id] within 65536 steps;
    [None] stands for a walk that has not ended when the fuel is spent. *)
Fixpoint UpdateOldestUnackedMessageID_loop (fuel : nat) (connection_index stop_message_id : Z)
    (queue : ReliableBuffer.t (T := MessageSendQueueEntry)) (oldest : Z) : option Z :=
  match fuel with
  | O => None
  | S fuel' =>
      if (oldest =? stop_message_id)
         || match ReliableBuffer.Find (message_send_queue_size cfg) connection_index oldest
                    queue with
            | Some _ => true
            | None => false
            end
      then Some oldest
      else UpdateOldestUnackedMessageID_loop fuel' connection_index stop_message_id queue
             (wrap16 (oldest + 1))
  end.

Definition UpdateOldestUnackedMessageID (connection_index : Z) (st : state) : outcome state :=
  crash_unless connection_ok connection_index in
  let stop_message_id :=
    ReliableBuffer.GetSequence connection_index (m_message_send_queues st) in
  match UpdateOldestUnackedMessageID_loop (Z.to_nat 65537) connection_index stop_message_id
          (m_message_send_queues st)
          (aget (m_oldest_unacked_message_ids st) connection_index) with
  | None => Crash
  | Some oldest =>
      crash_unless negb (SequenceGreaterThan oldest stop_message_id) in
      Done (set_oldest_unacked_message_ids
              (aset (m_oldest_unacked_message_ids st) connection_index oldest) st)
  end.

(** The loop of [ProcessAcknowledgement] over the message ids of the
    acknowledged packet, read from the shared id array at [offset]. *)
Fixpoint ProcessAcknowledgement_loop (connection_index offset : Z) (indices : list Z)
    (st : state) : outcome state :=
  match indices with
  | [] => Done st
  | i :: rest =>
      let message_id := aget (m_sent_packet_message_ids_array st) (offset + i) in
      match ReliableBuffer.Find (message_send_queue_size cfg) connection_index message_id
              (m_message_send_queues st) with
      | None => ProcessAcknowledgement_loop connection_index offset rest st
      | Some p =>
          let entry := aget (ReliableBuffer.m_entry_data (m_message_send_queues st)) p in
          crash_unless negb (message_data (m_channel_message entry) =? nullptr) in
          crash_unless (Channel.message_id (m_channel_message entry) =? message_id) in
          let st := Release (message_data (m_channel_message entry)) st in
          let st :=
            set_message_send_queues
              (ReliableBuffer.Remove (message_send_queue_size cfg) connection_index
                 message_id (m_message_send_queues st)) st in
          let* st := UpdateOldestUnackedMessageID connection_index st in
          ProcessAcknowledgement_loop connection_index offset rest st
      end
  end.

(** [std::bitset] access; a position outside the set is undefined in C++. *)
Definition bit_get (bits : list bool) (i : Z) : bool := aget bits i.
Definition bit_set (bits : list bool) (i : Z) : list bool := aset bits i true.

(** [ProcessAcknowledgement].  There is no test of the error level in it. *)
Definition ProcessAcknowledgement (connection_index sequence : Z) (st : state)
  : outcome state :=
  crash_unless connection_ok connection_index in
  match ReliableBuffer.Find (message_sent_queue_size cfg) connection_index sequence
          (m_sent_packets st) with
  | None => Done st
  | Some p =>
      let sent_packet_entry := aget (ReliableBuffer.m_entry_data (m_sent_packets st)) p in
      crash_unless negb (acked sent_packet_entry) in
      let offset := match message_ids sent_packet_entry with Some o => o | None => 0 end in
      let* st :=
        ProcessAcknowledgement_loop connection_index offset
          (seqZ 0 (numMessageIds sent_packet_entry)) st in
      let send_block := aget (m_send_blocks st) connection_index in
      if sent_block sent_packet_entry && sb_active send_block
         && (sb_block_message_id send_block =? block_message_id sent_packet_entry) then
        let messageId := block_message_id sent_packet_entry in
        let fragmentId := block_fragment_id sent_packet_entry in
        if bit_get (sb_acked_fragment send_block) fragmentId then Done st
        else
          let acked_count := sb_number_of_acked_fragments send_block + 1 in
          let finished := acked_count =? sb_number_of_fragments send_block in
          let send_block' :=
            mkSendBlock (if finished then false else sb_active send_block)
              (sb_block_size send_block) (sb_number_of_fragments send_block)
              acked_count (sb_block_message_id send_block)
              (bit_set (sb_acked_fragment send_block) fragmentId)
              (sb_fragment_send_time send_block) in
          let st := set_send_blocks (aset (m_send_blocks st) connection_index send_block') st in
          if finished then
            match ReliableBuffer.Find (message_send_queue_size cfg) connection_index messageId
                    (m_message_send_queues st) with
            | None => Crash
            | Some q =>
                let entry := aget (ReliableBuffer.m_entry_data (m_message_send_queues st)) q in
                let st := Release (message_data (m_channel_message entry)) st in
                let st :=
                  set_message_send_queues
                    (ReliableBuffer.Remove (message_send_queue_size cfg) connection_index
                       messageId (m_message_send_queues st)) st in
                UpdateOldestUnackedMessageID connection_index st
            end
          else Done st
      else Done st
  end.

(** The ids after the first one: [number_of_messages - 1] relative
    decodings, each against the id before it; [None] when a read fails. *)
Fixpoint decode_relative_ids (n : nat) (previous : Z) (packet_data : ReadStream)
  : option (list Z) * ReadStream :=
  match n with
  | O => (Some [], packet_data)
  | S n' =>
      match DeserialiseSequenceRelative previous packet_data with
      | (None, packet_data) => (None, packet_data)
      | (Some id, packet_data) =>
          match decode_relative_ids n' id packet_data with
          | (None, packet_data) => (None, packet_data)
          | (Some ids, packet_data) => (Some (id :: ids), packet_data)
          end
      end
  end.

(** The second loop of [ProcessPacketData], over the decoded ids. *)
Fixpoint ProcessPacketData_loop (connection_index min_message_id max_message_id : Z)
    (ids : list Z) (packet_data : ReadStream) (st : state) : outcome (state * ReadStream) :=
  match ids with
  | [] => Done (st, packet_data)
  | message_id :: rest =>
      match DeserialiseInteger wrap16 wrap16 0 (max_message_type_number cfg) packet_data with
      | (None, packet_data) =>
          let* st := SetErrorLevel connection_index CHANNEL_ERROR_FAILED_TO_SERIALISE st in
          Done (st, packet_data)
      | (Some _, packet_data) =>
          if SequenceLessThan message_id min_message_id then
            ProcessPacketData_loop connection_index min_message_id max_message_id rest
              packet_data st
          else if SequenceGreaterThan message_id max_message_id then
            let* st := SetErrorLevel connection_index CHANNEL_ERROR_DESYNC st in
            Done (st, packet_data)
          else
            match ReliableBuffer.Find (message_receive_queue_size cfg) connection_index
                    message_id (m_message_receive_queues st) with
            | Some _ =>
                ProcessPacketData_loop connection_index min_message_id max_message_id rest
                  packet_data st
            | None =>
                crash_unless
                  (match ReliableBuffer.GetAtIndex (message_receive_queue_size cfg)
                           connection_index
                           (ReliableBuffer.GetIndex (message_receive_queue_size cfg) message_id)
                           (m_message_receive_queues st) with
                   | None => true
                   | Some _ => false
                   end) in
                let '(queue, entry) :=
                  ReliableBuffer.Insert (message_receive_queue_size cfg) connection_index
                    message_id (m_message_receive_queues st) in
                match entry with
                | None =>
                    let* st := SetErrorLevel connection_index CHANNEL_ERROR_DESYNC st in
                    Done (st, packet_data)
                | Some p =>
                    let old := aget (ReliableBuffer.m_entry_data queue) p in
                    let '(ok, message, packet_data) :=
                      DeserialiseMessage handler (r_channel_message old) packet_data in
                    let queue :=
                      with_data queue
                        (aset (ReliableBuffer.m_entry_data queue) p (mkReceiveEntry message)) in
                    let st := set_message_receive_queues queue st in
                    if ok then
                      ProcessPacketData_loop connection_index min_message_id max_message_id
                        rest packet_data st
                    else
                      let* st :=
                        SetErrorLevel connection_index CHANNEL_ERROR_FAILED_TO_SERIALISE st in
                      Done (st, packet_data)
                end
            end
      end
  end.

(** The first part of [ProcessPacketData]: the number of messages and the
    ids, [None] when a read fails. *)
Definition decode_message_ids (packet_data : ReadStream)
  : option (Z * list Z) * ReadStream :=
  match DeserialiseInteger wrap32 to_int32 0 (max_messages_per_packet cfg) packet_data with
  | (None, packet_data) => (None, packet_data)
  | (Some number_of_messages, packet_data) =>
      match DeserialiseBits wrap16 16 packet_data with
      | (None, packet_data) => (None, packet_data)
      | (Some first, packet_data) =>
          match decode_relative_ids (Z.to_nat (number_of_messages - 1)) first packet_data with
          | (None, packet_data) => (None, packet_data)
          | (Some ids, packet_data) =>
              (Some (number_of_messages,
                     take (Z.to_nat number_of_messages) (first :: ids)), packet_data)
          end
      end
  end.

(** [ProcessPacketData]: the state and the stream after the call.  The
    temporary array of ids, allocated and released inside the call, is the
    list [ids]. *)
Definition ProcessPacketData (connection_index : Z) (packet_data : ReadStream)
    (packet_sequence : Z) (st : state) : outcome (state * ReadStream) :=
  crash_unless connection_ok connection_index in
  if negb (ErrorLevel_eqb (aget (m_error_level_array st) connection_index) ERROR_NONE)
  then Done (st, packet_data)
  else
    let min_message_id := aget (m_receive_message_ids st) connection_index in
    let max_message_id :=
      wrap16 (aget (m_receive_message_ids st) connection_index
              + message_receive_queue_size cfg - 1) in
    match decode_message_ids packet_data with
    | (None, packet_data) =>
        let* st := SetErrorLevel connection_index CHANNEL_ERROR_FAILED_TO_SERIALISE st in
        Done (st, packet_data)
    | (Some (_, ids), packet_data) =>
        ProcessPacketData_loop connection_index min_message_id max_message_id ids
          packet_data st
    end.

Definition GetCounter (connection_index counter : Z) (st : state) : outcome Z :=
  crash_unless (0 <=? counter) in
  crash_unless (counter <? CHANNEL_COUNTER_NUMBER_OF_COUNTERS) in
  crash_unless connection_ok connection_index in
  Done (aget (m_counters_array st)
          (connection_index * CHANNEL_COUNTER_NUMBER_OF_COUNTERS + counter)).

(** The release loops of [Reset]: every entry present whose message has
    data is released and its pointer cleared. *)
Definition release_send_entries (connection_index : Z) (st : state) : state :=
  fold_left
    (fun st index =>
       match ReliableBuffer.GetAtIndex (message_send_queue_size cfg) connection_index index
               (m_message_send_queues st) with
       | None => st
       | Some p =>
           let entry := aget (ReliableBuffer.m_entry_data (m_message_send_queues st)) p in
           if message_data (m_channel_message entry) =? nullptr then st
           else
             let st := Release (message_data (m_channel_message entry)) st in
             set_message_send_queues
               (with_data (m_message_send_queues st)
                  (aset (ReliableBuffer.m_entry_data (m_message_send_queues st)) p
                     (mkSendEntry (with_message_data (m_channel_message entry) nullptr)
                        (measuredBits entry) (block entry) (time_last_sent entry)))) st
       end)
    (seqZ 0 (message_send_queue_size cfg)) st.

Definition release_receive_entries (connection_index : Z) (st : state) : state :=
  fold_left
    (fun st index =>
       match ReliableBuffer.GetAtIndex (message_receive_queue_size cfg) connection_index index
               (m_message_receive_queues st) with
       | None => st
       | Some p =>
           let entry := aget (ReliableBuffer.m_entry_data (m_message_receive_queues st)) p in
           if message_data (r_channel_message entry) =? nullptr then st
           else
             let st := Release (message_data (r_channel_message entry)) st in
             set_message_receive_queues
               (with_data (m_message_receive_queues st)
                  (aset (ReliableBuffer.m_entry_data (m_message_receive_queues st)) p
                     (mkReceiveEntry (with_message_data (r_channel_message entry) nullptr))))
               st
       end)
    (seqZ 0 (message_receive_queue_size cfg)) st.

Definition Reset (connection_index : Z) (st : state) : outcome state :=
  crash_unless connection_ok connection_index in
  let* st := SetErrorLevel connection_index ERROR_NONE st in
  let st := set_send_message_ids (aset (m_send_message_ids st) connection_index 0) st in
  let st := set_receive_message_ids (aset (m_receive_message_ids st) connection_index 0) st in
  let st :=
    set_oldest_unacked_message_ids
      (aset (m_oldest_unacked_message_ids st) connection_index 0) st in
  let st :=
    set_sent_packets
      (ReliableBuffer.Reset SentPacketEntry_default (message_sent_queue_size cfg)
         connection_index (m_sent_packets st)) st in
  let st := release_send_entries connection_index st in
  let st :=
    set_message_send_queues
      (ReliableBuffer.Reset MessageSendQueueEntry_default (message_send_queue_size cfg)
         connection_index (m_message_send_queues st)) st in
  let st := release_receive_entries connection_index st in
  let st :=
    set_message_receive_queues
      (ReliableBuffer.Reset MessageReceiveQueueEntry_default (message_receive_queue_size cfg)
         connection_index (m_message_receive_queues st)) st in
  let st :=
    set_send_blocks
      (aset (m_send_blocks st) connection_index
         (SendBlockData_Reset (aget (m_send_blocks st) connection_index))) st in
  let receive_block := aget (m_receive_blocks st) connection_index in
  let st :=
    if message_data (rb_message receive_block) =? nullptr then st
    else Release (message_data (rb_message receive_block)) st in
  let receive_block :=
    mkReceiveBlock (rb_active receive_block) (rb_number_of_fragments receive_block)
      (rb_number_of_received_fragments receive_block) (rb_message_id receive_block)
      (rb_block_size receive_block) (rb_received_fragment receive_block)
      (rb_block_data receive_block)
      (if message_data (rb_message receive_block) =? nullptr then rb_message receive_block
       else with_message_data (rb_message receive_block) nullptr) in
  let st :=
    set_receive_blocks
      (aset (m_receive_blocks st) connection_index (ReceiveBlockData_Reset receive_block)) st in
  Done (set_counters_array
          (afill (m_counters_array st)
             (connection_index * CHANNEL_COUNTER_NUMBER_OF_COUNTERS)
             ((connection_index + 1) * CHANNEL_COUNTER_NUMBER_OF_COUNTERS) 0) st).

(** [ResetAll]: every connection is reset; the shared id array is not
    touched. *)
Definition ResetAll (st : state) : state :=
  let connections := seqZ 0 (max_connection_count cfg) in
  let st := set_error_levels (map (fun _ => ERROR_NONE) (m_error_level_array st)) st in
  let st := set_send_message_ids (map (fun _ => 0) (m_send_message_ids st)) st in
  let st := set_receive_message_ids (map (fun _ => 0) (m_receive_message_ids st)) st in
  let st :=
    set_oldest_unacked_message_ids (map (fun _ => 0) (m_oldest_unacked_message_ids st)) st in
  let st :=
    set_sent_packets
      (ReliableBuffer.ResetAll SentPacketEntry_default (message_sent_queue_size cfg)
         (max_connection_count cfg)) st in
  let st := fold_left (fun st c => release_send_entries c st) connections st in
  let st :=
    set_message_send_queues
      (ReliableBuffer.ResetAll MessageSendQueueEntry_default (message_send_queue_size cfg)
         (max_connection_count cfg)) st in
  let st := fold_left (fun st c => release_receive_entries c st) connections st in
  let st :=
    set_message_receive_queues
      (ReliableBuffer.ResetAll MessageReceiveQueueEntry_default
         (message_receive_queue_size cfg) (max_connection_count cfg)) st in
  let st := set_send_blocks (map SendBlockData_Reset (m_send_blocks st)) st in
  let st :=
    fold_left
      (fun st receive_block =>
         if message_data (rb_message receive_block) =? nullptr then st
         else Release (message_data (rb_message receive_block)) st)
      (m_receive_blocks st) st in
  let st :=
    set_receive_blocks
      (map (fun receive_block =>
              ReceiveBlockData_Reset
                (mkReceiveBlock (rb_active receive_block)
                   (rb_number_of_fragments receive_block)
                   (rb_number_of_received_fragments receive_block)
                   (rb_message_id receive_block) (rb_block_size receive_block)
                   (rb_received_fragment receive_block) (rb_block_data receive_block)
                   (if message_data (rb_message receive_block) =? nullptr
                    then rb_message receive_block
                    else with_message_data (rb_message receive_block) nullptr)))
         (m_receive_blocks st)) st in
  set_counters_array (map (fun _ => 0) (m_counters_array st)) st.

(** The object as its constructor leaves it: arrays of the declared sizes,
    the receive blocks zero-filled with no message, then [ResetAll]. *)
Definition constructed : state :=
  let n := Z.to_nat (max_connection_count cfg) in
  ResetAll
    (mkState (replicate n ERROR_NONE) (replicate n 0) (replicate n 0) (replicate n 0)
       (ReliableBuffer.ResetAll SentPacketEntry_default (message_sent_queue_size cfg)
          (max_connection_count cfg))
       (ReliableBuffer.ResetAll MessageSendQueueEntry_default (message_send_queue_size cfg)
          (max_connection_count cfg))
       (ReliableBuffer.ResetAll MessageReceiveQueueEntry_default
          (message_receive_queue_size cfg) (max_connection_count cfg))
       (replicate (Z.to_nat (max_messages_per_packet cfg * message_sent_queue_size cfg
                             * max_connection_count cfg)) 0)
       (replicate n (mkSendBlock false 0 0 0 0 [] []))
       (replicate n
          (mkReceiveBlock false 0 0 0 0 []
             (replicate (Z.to_nat (max_number_of_fragments cfg * max_fragment_size cfg)) 0)
             ChannelMessage_default))
       (replicate (Z.to_nat (CHANNEL_COUNTER_NUMBER_OF_COUNTERS * max_connection_count cfg)) 0)
       []).

(** *** The error state *)

Lemma connection_ok_in_range c : connection_ok c = true <-> 0 <= c < max_connection_count cfg.
Proof. unfold connection_ok. rewrite andb_true_iff, Z.leb_le, Z.ltb_lt. reflexivity. Qed.

Lemma UpdateOldestUnackedMessageID_error_levels levels c st :
  UpdateOldestUnackedMessageID c (set_error_levels levels st)
  = outcome_map (set_error_levels levels) (UpdateOldestUnackedMessageID c st).
Proof.
  unfold UpdateOldestUnackedMessageID.
  destruct (connection_ok c); [|reflexivity]. cbn [bind ASSERT_CRASH].
  change (m_message_send_queues (set_error_levels levels st))
    with (m_message_send_queues st).
  change (m_oldest_unacked_message_ids (set_error_levels levels st))
    with (m_oldest_unacked_message_ids st).
  destruct (UpdateOldestUnackedMessageID_loop _ _ _ _ _) as [oldest|]; [|reflexivity].
  destruct (negb _); reflexivity.
Qed.

Lemma ProcessAcknowledgement_loop_error_levels levels c offset indices st :
  ProcessAcknowledgement_loop c offset indices (set_error_levels levels st)
  = outcome_map (set_error_levels levels) (ProcessAcknowledgement_loop c offset indices st).
Proof.
  revert st. induction indices as [|i rest IH]; intros st; [reflexivity|].
  cbn [ProcessAcknowledgement_loop].
  change (m_message_send_queues (set_error_levels levels st))
    with (m_message_send_queues st).
  change (m_sent_packet_message_ids_array (set_error_levels levels st))
    with (m_sent_packet_message_ids_array st).
  destruct (ReliableBuffer.Find _ _ _ _) as [p|]; [|apply IH].
  destruct (negb _); [|reflexivity]. cbn [bind ASSERT_CRASH].
  destruct (_ =? _); [|reflexivity]. cbn [bind ASSERT_CRASH].
  match goal with
  | |- bind (UpdateOldestUnackedMessageID c ?s1) _ = _ =>
      match goal with
      | |- _ = outcome_map _ (bind (UpdateOldestUnackedMessageID c ?s2) _) =>
          change s1 with (set_error_levels levels s2);
          rewrite UpdateOldestUnackedMessageID_error_levels;
          destruct (UpdateOldestUnackedMessageID c s2) as [st'|]; [|reflexivity]
      end
  end.
  cbn [outcome_map bind]. apply IH.
Qed.

(** [ProcessAcknowledgement] neither reads nor writes the error levels. *)
Lemma ProcessAcknowledgement_error_levels levels c sequence st :
  ProcessAcknowledgement c sequence (set_error_levels levels st)
  = outcome_map (set_error_levels levels) (ProcessAcknowledgement c sequence st).
Proof.
  unfold ProcessAcknowledgement.
  destruct (connection_ok c); [|reflexivity]. cbn [bind ASSERT_CRASH].
  change (m_sent_packets (set_error_levels levels st)) with (m_sent_packets st).
  destruct (ReliableBuffer.Find _ _ _ _) as [p|]; [|reflexivity].
  destruct (negb _); [|reflexivity]. cbn [bind ASSERT_CRASH].
  rewrite ProcessAcknowledgement_loop_error_levels.
  destruct (ProcessAcknowledgement_loop _ _ _ st) as [st'|]; [|reflexivity].
  cbn [outcome_map bind].
  change (m_send_blocks (set_error_levels levels st')) with (m_send_blocks st').
  destruct (_ && _); [|reflexivity].
  destruct (bit_get _ _); [reflexivity|].
  destruct (_ =? _); [|reflexivity].
  cbn [m_message_send_queues set_send_blocks set_error_levels].
  destruct (ReliableBuffer.Find _ _ _ _) as [q|]; [|reflexivity].
  match goal with
  | |- UpdateOldestUnackedMessageID c ?s1 = outcome_map _ (UpdateOldestUnackedMessageID c ?s2) =>
      change s1 with (set_error_levels levels s2)
  end.
  apply UpdateOldestUnackedMessageID_error_levels.
Qed.

Lemma release_send_entries_error_levels c st :
  m_error_level_array (release_send_entries c st) = m_error_level_array st.
Proof.
  unfold release_send_entries.
  generalize (seqZ 0 (message_send_queue_size cfg)). intros l.
  revert st. induction l as [|i l IH]; intros st; [reflexivity|].
  cbn [fold_left]. rewrite IH.
  destruct (ReliableBuffer.GetAtIndex _ _ _ _); [|reflexivity].
  destruct (_ =? _); reflexivity.
Qed.

Lemma release_receive_entries_error_levels c st :
  m_error_level_array (release_receive_entries c st) = m_error_level_array st.
Proof.
  unfold release_receive_entries.
  generalize (seqZ 0 (message_receive_queue_size cfg)). intros l.
  revert st. induction l as [|i l IH]; intros st; [reflexivity|].
  cbn [fold_left]. rewrite IH.
  destruct (ReliableBuffer.GetAtIndex _ _ _ _); [|reflexivity].
  destruct (_ =? _); reflexivity.
Qed.

(** [Reset] leaves the connection operational. *)
Lemma Reset_error_level c st st' :
  0 <= c < Z.of_nat (length (m_error_level_array st)) ->
  Reset c st = Done st' ->
  aget (m_error_level_array st') c = ERROR_NONE.
Proof.
  intros Hc. unfold Reset, SetErrorLevel.
  destruct (connection_ok c); [|discriminate]. cbn [bind ASSERT_CRASH].
  intros [= <-].
  cbn [m_error_level_array set_counters_array set_receive_blocks].
  destruct (_ =? nullptr);
    cbn [m_error_level_array Release set_send_blocks set_message_receive_queues];
    rewrite release_receive_entries_error_levels;
    cbn [m_error_level_array set_message_send_queues];
    rewrite release_send_entries_error_levels;
    cbn; now apply aget_aset_eq.
Qed.


(** *** The regular branch of [GetPacketData] never sends *)

Lemma BitsRequired_nonneg min max : 0 <= BitsRequired min max.
Proof.
  unfold BitsRequired, countl_zero64, bits_per_uint64_t.
  destruct (max <=? min); [lia|].
  destruct (max - min <=? 0); [lia|].
  pose proof (Z.log2_nonneg (max - min)). lia.
Qed.

Lemma BitsRequired_int n : n < 2147483648 -> 0 <= BitsRequired 0 n <= 31.
Proof.
  intros Hn. split; [apply BitsRequired_nonneg|].
  unfold BitsRequired, countl_zero64, bits_per_uint64_t.
  destruct (Z.leb_spec n 0); [lia|].
  rewrite Z.sub_0_r. destruct (Z.leb_spec n 0); [lia|].
  assert (Z.log2 n < 31) by (apply Z.log2_lt_pow2; lia). lia.
Qed.

(** With a budget below the give-up threshold the loop of
    [GetMessagesToSend] stops before it looks at a message. *)
Lemma GetMessagesToSend_loop_gives_up c available_bits now st indices a :
  available_bits - s_usedBits a < 0 ->
  GetMessagesToSend_loop c available_bits now st indices a = a.
Proof.
  intros Hneg. destruct indices as [|i rest]; [reflexivity|].
  cbn [GetMessagesToSend_loop].
  pose proof (BitsRequired_nonneg 0 (max_message_type_number cfg)).
  destruct (Z.ltb_spec (available_bits - s_usedBits a)
              (BitsRequired 0 (max_message_type_number cfg) + 4 * 8)); [reflexivity | lia].
Qed.

Lemma set_message_send_queues_same st :
  set_message_send_queues
    (with_data (m_message_send_queues st)
       (ReliableBuffer.m_entry_data (m_message_send_queues st))) st = st.
Proof. destruct st as [? ? ? ? ? [? ? ?] ? ? ? ? ? ?]. reflexivity. Qed.

(** While no block message is being sent, [GetPacketData] returns 0 for
    every budget and changes neither the stream nor the channel.  A budget
    above the width of the channel index is refused by the first test; a
    budget equal to it leaves 0 bits, fewer than the payload header; a
    smaller one wraps around in [available_bits -= channel_index_bits] and
    reaches [GetMessagesToSend] as a negative [int], below its give-up
    threshold. *)
Theorem GetPacketData_regular_never_sends c stream packet_sequence available_bits now
    uninitialised st :
  0 <= c < max_connection_count cfg ->
  0 <= available_bits < 4294967296 ->
  number_of_channels cfg < 2147483648 ->
  max_messages_per_packet cfg < 2147483648 ->
  SendingBlockMessage c st = Done false ->
  GetPacketData c stream packet_sequence available_bits now uninitialised st
  = Done (0, stream, st).
Proof.
  intros Hc Hbits Hchannels Hmessages Hblock.
  assert (Hok : connection_ok c = true) by now apply connection_ok_in_range.
  pose proof (BitsRequired_int _ Hchannels) as Hcib.
  pose proof (BitsRequired_int _ Hmessages) as Hnmb.
  assert (Hhas : HasMessagesToSend c st = Done true).
  { revert Hblock. unfold SendingBlockMessage. rewrite Hok. cbn [bind ASSERT_CRASH].
    destruct (HasMessagesToSend c st) as [[|]|]; cbn [bind ASSERT_CRASH];
      [reflexivity | discriminate | discriminate]. }
  unfold GetPacketData. rewrite Hok, Hhas. cbn [bind ASSERT_CRASH negb].
  set (cib := BitsRequired 0 (number_of_channels cfg)) in *.
  set (nmb := BitsRequired 0 (max_messages_per_packet cfg)) in *.
  destruct (Z.ltb_spec cib available_bits) as [Hlarge|Hsmall]; [reflexivity|].
  rewrite Hblock. cbn [bind].
  destruct (Z.eq_dec available_bits cib) as [Heq|Hne].
  - (* nothing is left for the payload header *)
    rewrite Heq, Z.sub_diag. change (wrap32 0) with 0.
    destruct (Z.ltb_spec 0 (nmb + 1 + 1)); [reflexivity | lia].
  - (* the subtraction wraps around *)
    assert (Hwrap : wrap32 (available_bits - cib) = available_bits - cib + 4294967296).
    { unfold wrap32. symmetry. apply (Z.mod_unique_pos _ _ (-1)); lia. }
    rewrite Hwrap.
    destruct (Z.ltb_spec (available_bits - cib + 4294967296) (nmb + 1 + 1)); [lia|].
    assert (Hint : to_int32 (wrap32 (available_bits - cib + 4294967296
                                     - (cib + nmb + 1 + 1)))
                   = available_bits - cib - (cib + nmb + 1 + 1)).
    { unfold to_int32. rewrite !wrap32_small.
      - destruct (Z.ltb_spec (available_bits - cib + 4294967296 - (cib + nmb + 1 + 1))
                    2147483648); lia.
      - lia.
      - rewrite wrap32_small by lia. lia. }
    rewrite Hint.
    unfold GetMessagesToSend. rewrite Hok, Hhas. cbn [bind ASSERT_CRASH].
    rewrite GetMessagesToSend_loop_gives_up.
    + cbn [s_usedBits s_messageIds s_numMessageIds s_entries].
      rewrite set_message_send_queues_same. reflexivity.
    + cbn [s_usedBits].
      destruct (0 <? packet_budget cfg); lia.
Qed.

(** *** [SendMessage] and the arguments of [Insert] *)

(** [SendMessage] passes the send id where [Insert] expects the connection
    index.  On an operational connection with room in its send queue the
    call crashes on the assertion of [Insert] as soon as the send id of the
    connection has reached [max_connection_count]. *)
Theorem SendMessage_crashes_on_send_id c message st :
  0 <= c < max_connection_count cfg ->
  aget (m_error_level_array st) c = ERROR_NONE ->
  CanSendMessage c st = Done true ->
  max_connection_count cfg <= aget (m_send_message_ids st) c ->
  SendMessage c message st = Crash.
Proof.
  intros Hc Herr Hcan Hid.
  assert (Hok : connection_ok c = true) by now apply connection_ok_in_range.
  unfold SendMessage, GetErrorLevel. rewrite Hok, Herr, Hcan.
  cbn [bind ASSERT_CRASH ErrorLevel_eqb negb].
  assert (Hbad : connection_ok (aget (m_send_message_ids st) c) = false).
  { unfold connection_ok.
    destruct (Z.ltb_spec (aget (m_send_message_ids st) c) (max_connection_count cfg));
      [lia | apply andb_false_r]. }
  now rewrite Hbad.
Qed.

(** *** The walk of [UpdateOldestUnackedMessageID] ends *)

Lemma UpdateOldestUnackedMessageID_loop_ends c stop queue n : forall fuel oldest,
  0 <= oldest < 65536 -> 0 <= stop < 65536 ->
  wrap16 (stop - oldest) = Z.of_nat n -> (n < fuel)%nat ->
  exists id,
    UpdateOldestUnackedMessageID_loop fuel c stop queue oldest = Some id /\
    0 <= id < 65536 /\
    (id = stop \/
     ReliableBuffer.Find (message_send_queue_size cfg) c id queue <> None).
Proof.
  induction n as [|n IH]; intros fuel oldest Holdest Hstop Hdist Hfuel.
  - destruct fuel as [|fuel]; [lia|].
    rewrite wrap16_sub in Hdist by lia.
    assert (oldest = stop) as -> by (destruct (Z.leb_spec oldest stop); lia).
    exists stop. cbn [UpdateOldestUnackedMessageID_loop].
    rewrite Z.eqb_refl. cbn [orb]. split; [reflexivity|]. split; [lia | now left].
  - destruct fuel as [|fuel]; [lia|].
    cbn [UpdateOldestUnackedMessageID_loop].
    rewrite wrap16_sub in Hdist by lia.
    destruct (Z.eqb_spec oldest stop) as [->|Hne].
    { destruct (Z.leb_spec stop stop); lia. }
    destruct (ReliableBuffer.Find (message_send_queue_size cfg) c oldest queue) eqn:Efind;
      cbn [orb].
    + exists oldest. split; [reflexivity|]. split; [lia|]. right. now rewrite Efind.
    + apply IH; try lia.
      * apply wrap16_range.
      * rewrite (wrap16_add oldest 1) by lia.
        destruct (Z.ltb_spec (oldest + 1) 65536), (Z.leb_spec oldest stop);
          rewrite wrap16_sub by lia;
          match goal with |- context [?a <=? ?b] => destruct (Z.leb_spec a b) end; lia.
Qed.

(** The loop [while (true)] of [UpdateOldestUnackedMessageID] ends for
    every state of the send queue: walking forward from a 16-bit id it
    meets [stop_message_id] after at most 65535 increments, if it has not
    met a queued message before.  It stops at the first such id. *)
Theorem UpdateOldestUnackedMessageID_terminates c stop queue oldest :
  0 <= oldest < 65536 -> 0 <= stop < 65536 ->
  exists id,
    UpdateOldestUnackedMessageID_loop (Z.to_nat 65537) c stop queue oldest = Some id /\
    0 <= id < 65536 /\
    (id = stop \/
     ReliableBuffer.Find (message_send_queue_size cfg) c id queue <> None).
Proof.
  intros Holdest Hstop.
  pose proof (wrap16_range (stop - oldest)) as Hrange.
  apply (UpdateOldestUnackedMessageID_loop_ends c stop queue
           (Z.to_nat (wrap16 (stop - oldest)))); try lia.
Qed.

(** *** A connection after [Reset] *)

(** What the release loops of [Reset] leave as it is: they write the data
    pointers of the queue entries and the log of released pointers, nothing
    else. *)
Definition same_but_entry_data (st st' : state) : Prop :=
  m_error_level_array st' = m_error_level_array st /\
  m_send_message_ids st' = m_send_message_ids st /\
  m_receive_message_ids st' = m_receive_message_ids st /\
  m_oldest_unacked_message_ids st' = m_oldest_unacked_message_ids st /\
  ReliableBuffer.m_entry_sequence (m_message_receive_queues st')
  = ReliableBuffer.m_entry_sequence (m_message_receive_queues st) /\
  m_receive_blocks st' = m_receive_blocks st /\
  m_counters_array st' = m_counters_array st.

Lemma release_send_entries_frame c st :
  same_but_entry_data st (release_send_entries c st).
Proof.
  unfold release_send_entries.
  generalize (seqZ 0 (message_send_queue_size cfg)). intros l.
  match goal with
  | |- same_but_entry_data st (fold_left ?f l st) =>
      assert (Hloop : forall st1, same_but_entry_data st st1 ->
                same_but_entry_data st (fold_left f l st1));
        [|apply Hloop; unfold same_but_entry_data; repeat split; reflexivity]
  end.
  induction l as [|i l IH]; intros st1 Hsame; [exact Hsame|].
  cbn [fold_left]. apply IH.
  destruct (ReliableBuffer.GetAtIndex _ _ _ _); [|exact Hsame].
  destruct (_ =? _); [exact Hsame|].
  unfold same_but_entry_data in *.
  cbn [m_error_level_array m_send_message_ids m_receive_message_ids
         m_oldest_unacked_message_ids m_message_receive_queues m_receive_blocks
         m_counters_array set_message_send_queues set_message_receive_queues Release
         with_data ReliableBuffer.m_entry_sequence].
  exact Hsame.
Qed.

Lemma release_receive_entries_frame c st :
  same_but_entry_data st (release_receive_entries c st).
Proof.
  unfold release_receive_entries.
  generalize (seqZ 0 (message_receive_queue_size cfg)). intros l.
  match goal with
  | |- same_but_entry_data st (fold_left ?f l st) =>
      assert (Hloop : forall st1, same_but_entry_data st st1 ->
                same_but_entry_data st (fold_left f l st1));
        [|apply Hloop; unfold same_but_entry_data; repeat split; reflexivity]
  end.
  induction l as [|i l IH]; intros st1 Hsame; [exact Hsame|].
  cbn [fold_left]. apply IH.
  destruct (ReliableBuffer.GetAtIndex _ _ _ _); [|exact Hsame].
  destruct (_ =? _); [exact Hsame|].
  unfold same_but_entry_data in *.
  cbn [m_error_level_array m_send_message_ids m_receive_message_ids
         m_oldest_unacked_message_ids m_message_receive_queues m_receive_blocks
         m_counters_array set_message_send_queues set_message_receive_queues Release
         with_data ReliableBuffer.m_entry_sequence].
  exact Hsame.
Qed.

(** [Reset(c)] leaves connection [c] as a new one: nothing to send, nothing
    to receive, both counters at 0 and the error level at [ERROR_NONE]. *)
Theorem Reset_connection_as_new c st st' :
  0 <= c < max_connection_count cfg ->
  0 < message_receive_queue_size cfg < 65536 ->
  Z.of_nat (length (m_error_level_array st)) = max_connection_count cfg ->
  Z.of_nat (length (m_send_message_ids st)) = max_connection_count cfg ->
  Z.of_nat (length (m_receive_message_ids st)) = max_connection_count cfg ->
  Z.of_nat (length (m_oldest_unacked_message_ids st)) = max_connection_count cfg ->
  Z.of_nat (length (m_counters_array st))
  = CHANNEL_COUNTER_NUMBER_OF_COUNTERS * max_connection_count cfg ->
  Z.of_nat (length (ReliableBuffer.m_entry_sequence (m_message_receive_queues st)))
  = message_receive_queue_size cfg * max_connection_count cfg ->
  Reset c st = Done st' ->
  GetErrorLevel c st' = Done ERROR_NONE /\
  HasMessagesToSend c st' = Done false /\
  ReceiveMessage c st' = Done (false, None, st') /\
  GetCounter c CHANNEL_COUNTER_MESSAGES_SENT st' = Done 0 /\
  GetCounter c CHANNEL_COUNTER_MESSAGES_RECEIVED st' = Done 0.
Proof.
  intros Hc Hsize Herrors Hsend Hreceive Holdest Hcounters Hqueue Hreset.
  assert (Hok : connection_ok c = true) by now apply connection_ok_in_range.
  pose proof (Reset_error_level c st st' ltac:(lia) Hreset) as Hlevel.
  assert (Hfields :
    m_send_message_ids st' = aset (m_send_message_ids st) c 0 /\
    m_receive_message_ids st' = aset (m_receive_message_ids st) c 0 /\
    m_oldest_unacked_message_ids st' = aset (m_oldest_unacked_message_ids st) c 0 /\
    m_counters_array st'
    = afill (m_counters_array st) (c * CHANNEL_COUNTER_NUMBER_OF_COUNTERS)
        ((c + 1) * CHANNEL_COUNTER_NUMBER_OF_COUNTERS) 0 /\
    ReliableBuffer.m_entry_sequence (m_message_receive_queues st')
    = ReliableBuffer.m_entry_sequence
        (ReliableBuffer.Reset MessageReceiveQueueEntry_default
           (message_receive_queue_size cfg) c (m_message_receive_queues st))).
  { revert Hreset. unfold Reset, SetErrorLevel. rewrite Hok. cbn [bind ASSERT_CRASH].
    intros [= <-].
    match goal with
    | |- context [release_receive_entries c ?s] =>
        destruct (release_receive_entries_frame c s) as (_ & R2 & R3 & R4 & R5 & R6 & R7);
        match s with
        | context [release_send_entries c ?s0] =>
            destruct (release_send_entries_frame c s0) as (_ & S2 & S3 & S4 & S5 & S6 & S7)
        end
    end.
    cbn [m_send_message_ids m_receive_message_ids m_oldest_unacked_message_ids
           m_counters_array m_message_receive_queues m_receive_blocks
           set_counters_array set_receive_blocks set_send_blocks
           set_message_receive_queues set_message_send_queues] in *.
    destruct (_ =? nullptr);
      cbn [m_send_message_ids m_receive_message_ids m_oldest_unacked_message_ids
             m_counters_array m_message_receive_queues m_receive_blocks Release
             set_counters_array set_receive_blocks set_send_blocks
             set_message_receive_queues set_message_send_queues
             ReliableBuffer.Reset ReliableBuffer.m_entry_sequence];
      rewrite ?R2, ?R3, ?R4, ?R5, ?R7, ?S2, ?S3, ?S4, ?S5, ?S7;
      repeat split; reflexivity. }
  destruct Hfields as (Fsend & Freceive & Foldest & Fcounters & Fqueue).
  split; [|split; [|split; [|split]]].
  - unfold GetErrorLevel. rewrite Hok. cbn [bind ASSERT_CRASH]. now rewrite Hlevel.
  - unfold HasMessagesToSend. rewrite Hok. cbn [bind ASSERT_CRASH].
    rewrite Fsend, Foldest, !aget_aset_eq by lia. reflexivity.
  - unfold ReceiveMessage, GetErrorLevel. rewrite Hok. cbn [bind ASSERT_CRASH].
    rewrite Hlevel. cbn [ErrorLevel_eqb negb].
    rewrite Freceive, aget_aset_eq by lia.
    unfold ReliableBuffer.Find. rewrite Fqueue.
    rewrite (ReliableBuffer.Reset_entry_sequence MessageReceiveQueueEntry_default
               (message_receive_queue_size cfg) (max_connection_count cfg)
               (proj1 Hsize) (proj2 Hsize))
      by assumption.
    reflexivity.
  - unfold GetCounter, CHANNEL_COUNTER_NUMBER_OF_COUNTERS, CHANNEL_COUNTER_MESSAGES_SENT in *.
    rewrite Hok. cbn [bind ASSERT_CRASH Z.leb Z.ltb Z.compare].
    rewrite Fcounters, ReliableBuffer.afill_hit by lia. reflexivity.
  - unfold GetCounter, CHANNEL_COUNTER_NUMBER_OF_COUNTERS,
      CHANNEL_COUNTER_MESSAGES_RECEIVED in *.
    rewrite Hok. cbn [bind ASSERT_CRASH Z.leb Z.ltb Z.compare].
    rewrite Fcounters, ReliableBuffer.afill_hit by lia. reflexivity.
Qed.

(** *** A second acknowledgement of the same packet

    [ProcessAcknowledgement] never sets [acked], so the acknowledgement of
    a packet that was acknowledged before runs through the same code again.
    It finds nothing left to do. *)

(** The part of [ProcessAcknowledgement] after the loop over the message
    ids: the fragment of a block. *)
Definition acknowledge_fragment (connection_index : Z) (sent_packet_entry : SentPacketEntry)
    (st : state) : outcome state :=
  let send_block := aget (m_send_blocks st) connection_index in
  if sent_block sent_packet_entry && sb_active send_block
     && (sb_block_message_id send_block =? block_message_id sent_packet_entry) then
    let messageId := block_message_id sent_packet_entry in
    let fragmentId := block_fragment_id sent_packet_entry in
    if bit_get (sb_acked_fragment send_block) fragmentId then Done st
    else
      let acked_count := sb_number_of_acked_fragments send_block + 1 in
      let finished := acked_count =? sb_number_of_fragments send_block in
      let send_block' :=
        mkSendBlock (if finished then false else sb_active send_block)
          (sb_block_size send_block) (sb_number_of_fragments send_block)
          acked_count (sb_block_message_id send_block)
          (bit_set (sb_acked_fragment send_block) fragmentId)
          (sb_fragment_send_time send_block) in
      let st := set_send_blocks (aset (m_send_blocks st) connection_index send_block') st in
      if finished then
        match ReliableBuffer.Find (message_send_queue_size cfg) connection_index messageId
                (m_message_send_queues st) with
        | None => Crash
        | Some q =>
            let entry := aget (ReliableBuffer.m_entry_data (m_message_send_queues st)) q in
            let st := Release (message_data (m_channel_message entry)) st in
            let st :=
              set_message_send_queues
                (ReliableBuffer.Remove (message_send_queue_size cfg) connection_index
                   messageId (m_message_send_queues st)) st in
            UpdateOldestUnackedMessageID connection_index st
        end
      else Done st
  else Done st.

Lemma ProcessAcknowledgement_parts c sequence st :
  ProcessAcknowledgement c sequence st
  = crash_unless connection_ok c in
    match ReliableBuffer.Find (message_sent_queue_size cfg) c sequence (m_sent_packets st) with
    | None => Done st
    | Some p =>
        let sent_packet_entry := aget (ReliableBuffer.m_entry_data (m_sent_packets st)) p in
        crash_unless negb (acked sent_packet_entry) in
        let offset := match message_ids sent_packet_entry with Some o => o | None => 0 end in
        let* st :=
          ProcessAcknowledgement_loop c offset (seqZ 0 (numMessageIds sent_packet_entry)) st in
        acknowledge_fragment c sent_packet_entry st
    end.
Proof. reflexivity. Qed.

Lemma UpdateOldestUnackedMessageID_frame c st st' :
  UpdateOldestUnackedMessageID c st = Done st' ->
  exists v, st' = set_oldest_unacked_message_ids v st.
Proof.
  unfold UpdateOldestUnackedMessageID, bind, ASSERT_CRASH.
  destruct (connection_ok c); [|discriminate].
  destruct (UpdateOldestUnackedMessageID_loop _ _ _ _ _) as [oldest|]; [|discriminate].
  destruct (negb _); [|discriminate].
  intros [= <-]. eexists. reflexivity.
Qed.

Lemma aget_16bit (a : list Z) i :
  Forall (fun id => 0 <= id < 65536) a -> 0 <= aget a i < 65536.
Proof.
  intros Ha. unfold aget. destruct (i <? 0).
  - cbv. split; [discriminate | reflexivity].
  - rewrite list_lookup_total_alt.
    destruct (a !! Z.to_nat i) as [x|] eqn:Hx; cbn.
    + exact (Forall_lookup_1 _ _ _ _ Ha Hx).
    + cbv. split; [discriminate | reflexivity].
Qed.

(** What the loop over the message ids leaves: the packet entries, the
    array of ids and the send blocks as they were, and none of the ids in
    the send queue. *)
Lemma ProcessAcknowledgement_loop_frame c offset :
  0 <= c < max_connection_count cfg ->
  0 < message_send_queue_size cfg < 65536 ->
  forall indices st st',
    ReliableBuffer.wf (message_send_queue_size cfg) (max_connection_count cfg)
      (m_message_send_queues st) ->
    Forall (fun id => 0 <= id < 65536) (m_sent_packet_message_ids_array st) ->
    ProcessAcknowledgement_loop c offset indices st = Done st' ->
    m_sent_packets st' = m_sent_packets st /\
    m_sent_packet_message_ids_array st' = m_sent_packet_message_ids_array st /\
    m_send_blocks st' = m_send_blocks st /\
    ReliableBuffer.wf (message_send_queue_size cfg) (max_connection_count cfg)
      (m_message_send_queues st') /\
    (forall s, 0 <= s < 65536 ->
       ReliableBuffer.Find (message_send_queue_size cfg) c s (m_message_send_queues st) = None ->
       ReliableBuffer.Find (message_send_queue_size cfg) c s (m_message_send_queues st') = None) /\
    (forall i, In i indices ->
       ReliableBuffer.Find (message_send_queue_size cfg) c
         (aget (m_sent_packet_message_ids_array st) (offset + i))
         (m_message_send_queues st') = None).
Proof.
  intros Hc Hsize. induction indices as [|i rest IH]; intros st st' Hwf Hids Hloop.
  - injection Hloop as <-.
    split; [reflexivity|]. split; [reflexivity|]. split; [reflexivity|].
    split; [exact Hwf|]. split.
    + intros s _ H. exact H.
    + intros i [].
  - cbn [ProcessAcknowledgement_loop] in Hloop.
    pose proof (aget_16bit (m_sent_packet_message_ids_array st) (offset + i) Hids) as Hid.
    set (id := aget (m_sent_packet_message_ids_array st) (offset + i)) in *.
    destruct (ReliableBuffer.Find (message_send_queue_size cfg) c id
                (m_message_send_queues st)) as [p|] eqn:Efind.
    + unfold bind at 1 2, ASSERT_CRASH in Hloop.
      destruct (negb _); [|discriminate Hloop].
      destruct (_ =? id); [|discriminate Hloop].
      cbn [Release m_message_send_queues] in Hloop.
      unfold bind in Hloop.
      destruct (UpdateOldestUnackedMessageID c _) as [st2|] eqn:Eupdate;
        [|discriminate Hloop].
      apply UpdateOldestUnackedMessageID_frame in Eupdate. destruct Eupdate as [v ->].
      apply IH in Hloop.
      * cbn [set_oldest_unacked_message_ids set_message_send_queues m_sent_packets
             m_sent_packet_message_ids_array m_send_blocks m_message_send_queues] in Hloop.
        destruct Hloop as (Hsent & Harray & Hblocks & Hwf' & Hkeep & Hnone).
        split; [exact Hsent|]. split; [exact Harray|]. split; [exact Hblocks|].
        split; [exact Hwf'|]. split.
        -- intros s Hs Hs_none. apply Hkeep; [exact Hs|].
           apply ReliableBuffer.Remove_keeps_unfound with (connection_count := max_connection_count cfg);
             try assumption; lia.
        -- intros j [<-|Hin].
           ++ apply Hkeep; [exact Hid|].
              apply ReliableBuffer.Remove_unfound with (connection_count := max_connection_count cfg);
                try assumption; lia.
           ++ apply Hnone. exact Hin.
      * cbn [set_oldest_unacked_message_ids set_message_send_queues m_message_send_queues].
        now apply ReliableBuffer.Remove_wf.
      * exact Hids.
    + apply IH in Hloop; [|assumption|assumption].
      destruct Hloop as (Hsent & Harray & Hblocks & Hwf' & Hkeep & Hnone).
      split; [exact Hsent|]. split; [exact Harray|]. split; [exact Hblocks|].
      split; [exact Hwf'|]. split; [exact Hkeep|].
      intros j [<-|Hin]; [|now apply Hnone].
      apply Hkeep; assumption.
Qed.

(** With none of the ids in the send queue the loop changes nothing. *)
Lemma ProcessAcknowledgement_loop_unfound c offset : forall indices st,
  (forall i, In i indices ->
     ReliableBuffer.Find (message_send_queue_size cfg) c
       (aget (m_sent_packet_message_ids_array st) (offset + i))
       (m_message_send_queues st) = None) ->
  ProcessAcknowledgement_loop c offset indices st = Done st.
Proof.
  induction indices as [|i rest IH]; intros st Hnone; [reflexivity|].
  cbn [ProcessAcknowledgement_loop].
  rewrite (Hnone i (or_introl eq_refl)).
  apply IH. intros j Hj. apply Hnone. now right.
Qed.

Lemma acknowledge_fragment_twice c e st st' :
  0 <= c < max_connection_count cfg ->
  0 < message_send_queue_size cfg < 65536 ->
  Z.of_nat (length (m_send_blocks st)) = max_connection_count cfg ->
  (sent_block e = true ->
   0 <= block_fragment_id e
   < Z.of_nat (length (sb_acked_fragment (aget (m_send_blocks st) c)))) ->
  ReliableBuffer.wf (message_send_queue_size cfg) (max_connection_count cfg)
    (m_message_send_queues st) ->
  acknowledge_fragment c e st = Done st' ->
  acknowledge_fragment c e st' = Done st' /\
  m_sent_packets st' = m_sent_packets st /\
  m_sent_packet_message_ids_array st' = m_sent_packet_message_ids_array st /\
  (forall s, 0 <= s < 65536 ->
     ReliableBuffer.Find (message_send_queue_size cfg) c s (m_message_send_queues st) = None ->
     ReliableBuffer.Find (message_send_queue_size cfg) c s (m_message_send_queues st') = None).
Proof.
  intros Hc Hsize Hblocks Hfragment Hwf Hrun.
  assert (Hsame : forall st0, acknowledge_fragment c e st0 = Done st0 ->
            acknowledge_fragment c e st0 = Done st0 /\
            m_sent_packets st0 = m_sent_packets st0 /\
            m_sent_packet_message_ids_array st0 = m_sent_packet_message_ids_array st0 /\
            (forall s, 0 <= s < 65536 ->
               ReliableBuffer.Find (message_send_queue_size cfg) c s
                 (m_message_send_queues st0) = None ->
               ReliableBuffer.Find (message_send_queue_size cfg) c s
                 (m_message_send_queues st0) = None)).
  { intros st0 H0. split; [exact H0|]. split; [reflexivity|]. split; [reflexivity|].
    intros s _ H. exact H. }
  pose proof Hrun as Hrun0.
  unfold acknowledge_fragment in Hrun. cbv zeta in Hrun.
  set (send_block := aget (m_send_blocks st) c) in *.
  destruct (sent_block e && sb_active send_block
            && (sb_block_message_id send_block =? block_message_id e)) eqn:Econd.
  2: { injection Hrun as <-. now apply Hsame. }
  destruct (bit_get (sb_acked_fragment send_block) (block_fragment_id e)) eqn:Ebit.
  { injection Hrun as <-. now apply Hsame. }
  apply andb_prop in Econd. destruct Econd as [Econd Eid].
  apply andb_prop in Econd. destruct Econd as [Eblock Eactive].
  specialize (Hfragment Eblock).
  destruct (sb_number_of_acked_fragments send_block + 1 =? sb_number_of_fragments send_block)
    eqn:Efinished.
  - (* the last fragment: the block is done and its message leaves the queue *)
    cbn [set_send_blocks m_message_send_queues Release] in Hrun.
    destruct (ReliableBuffer.Find (message_send_queue_size cfg) c (block_message_id e)
                (m_message_send_queues st)) as [q|]; [|discriminate Hrun].
    apply UpdateOldestUnackedMessageID_frame in Hrun. destruct Hrun as [v ->].
    cbn [set_oldest_unacked_message_ids set_message_send_queues set_send_blocks Release
         m_sent_packets m_sent_packet_message_ids_array m_message_send_queues].
    split.
    + unfold acknowledge_fragment.
      cbn [set_oldest_unacked_message_ids set_message_send_queues set_send_blocks Release
           m_send_blocks].
      rewrite aget_aset_eq by lia. cbn [sb_active].
      now rewrite andb_false_r.
    + split; [reflexivity|]. split; [reflexivity|].
      intros s Hs Hnone.
      apply ReliableBuffer.Remove_keeps_unfound with (connection_count := max_connection_count cfg);
        try assumption; lia.
  - (* another fragment: its bit is set *)
    injection Hrun as <-.
    cbn [set_send_blocks m_sent_packets m_sent_packet_message_ids_array
         m_message_send_queues].
    split.
    + unfold acknowledge_fragment. cbn [set_send_blocks m_send_blocks].
      rewrite aget_aset_eq by lia.
      cbn [sb_active sb_block_message_id sb_acked_fragment].
      fold send_block. rewrite Eblock, Eactive, Eid. cbn [andb].
      unfold bit_get, bit_set. rewrite aget_aset_eq by exact Hfragment. reflexivity.
    + split; [reflexivity|]. split; [reflexivity|]. intros s _ H. exact H.
Qed.

(** The acknowledgement of a packet that has been acknowledged before
    changes nothing: its messages are no longer in the send queue, and the
    fragment it carried is marked, or its block is no longer active.  The
    hypotheses are the sizes of the arrays, the 16-bit type of the message
    ids, and a fragment id inside the fragment bit set. *)
Theorem ProcessAcknowledgement_twice c sequence st st' :
  0 < message_send_queue_size cfg < 65536 ->
  ReliableBuffer.wf (message_send_queue_size cfg) (max_connection_count cfg)
    (m_message_send_queues st) ->
  Forall (fun id => 0 <= id < 65536) (m_sent_packet_message_ids_array st) ->
  Z.of_nat (length (m_send_blocks st)) = max_connection_count cfg ->
  (forall p,
     ReliableBuffer.Find (message_sent_queue_size cfg) c sequence (m_sent_packets st) = Some p ->
     sent_block (aget (ReliableBuffer.m_entry_data (m_sent_packets st)) p) = true ->
     0 <= block_fragment_id (aget (ReliableBuffer.m_entry_data (m_sent_packets st)) p)
     < Z.of_nat (length (sb_acked_fragment (aget (m_send_blocks st) c)))) ->
  ProcessAcknowledgement c sequence st = Done st' ->
  ProcessAcknowledgement c sequence st' = Done st'.
Proof.
  intros Hsize Hwf Hids Hblocks Hfragment Hrun.
  rewrite ProcessAcknowledgement_parts in Hrun. rewrite ProcessAcknowledgement_parts.
  unfold bind, ASSERT_CRASH in Hrun |- *.
  destruct (connection_ok c) eqn:Hok; [|discriminate Hrun].
  apply connection_ok_in_range in Hok.
  destruct (ReliableBuffer.Find (message_sent_queue_size cfg) c sequence (m_sent_packets st))
    as [p|] eqn:Efind.
  2: { injection Hrun as <-. rewrite Efind. reflexivity. }
  specialize (Hfragment p eq_refl).
  cbv zeta in Hrun.
  set (e := aget (ReliableBuffer.m_entry_data (m_sent_packets st)) p) in *.
  destruct (negb (acked e)) eqn:Hacked; [|discriminate Hrun].
  set (offset := match message_ids e with Some o => o | None => 0 end) in *.
  destruct (ProcessAcknowledgement_loop c offset (seqZ 0 (numMessageIds e)) st)
    as [st1|] eqn:Eloop; [|discriminate Hrun].
  destruct (ProcessAcknowledgement_loop_frame c offset Hok Hsize _ st st1 Hwf Hids Eloop)
    as (Hsent & Harray & Hsame_blocks & Hwf1 & Hkeep & Hnone).
  destruct (acknowledge_fragment_twice c e st1 st' Hok Hsize
              ltac:(rewrite Hsame_blocks; exact Hblocks)
              ltac:(rewrite Hsame_blocks; exact Hfragment) Hwf1 Hrun)
    as (Hagain & Hsent' & Harray' & Hkeep').
  rewrite Hsent', Hsent, Efind. cbv zeta. fold e. rewrite Hacked. fold offset.
  rewrite ProcessAcknowledgement_loop_unfound; [exact Hagain|].
  intros i Hi. rewrite Harray', Harray.
  apply Hkeep'; [now apply aget_16bit|]. now apply Hnone.
Qed.

End Channel.

Arguments UpdateOldestUnackedMessageID_loop : simpl never.

(** *** A small channel

    One connection, queues of four entries, at most two messages in a
    packet, message types 0..255, two channels of which this is channel 0.
    The handler measures every message at 8 bits and writes the low byte of
    its type. *)
Definition small : Config := mkConfig 1 100 4 4 4 2 (-1) 255 4 16 250 2 0.

Definition byte_handler : PacketHandler :=
  mkHandler (fun _ => 8)
    (fun m s => SerialiseBits (message_protocol m mod 256) 8 s)
    (fun m s =>
       match DeserialiseBits wrap32 8 s with
       | (Some v, s') =>
           (true, mkMessage v (message_id m) false 0 0 (message_data m), s')
       | (None, s') => (false, m, s')
       end).

(** One message sent on connection 0 of a new channel. *)
Definition one_pending : state :=
  match SendMessage small byte_handler 0 (mkMessage 17 0 false 0 0 1000)
          (constructed small) with
  | Done st => st
  | Crash => constructed small
  end.

Example one_pending_contents :
  m_send_message_ids one_pending = [1] /\
  m_oldest_unacked_message_ids one_pending = [0] /\
  ReliableBuffer.Find 4 0 0 (m_message_send_queues one_pending) = Some 0 /\
  aget (ReliableBuffer.m_entry_data (m_message_send_queues one_pending)) 0
  = mkSendEntry (mkMessage 17 0 false 0 0 1000) 8 false (-1) /\
  HasMessagesToSend small 0 one_pending = Done true.
Proof. vm_compute. repeat split; reflexivity. Qed.

(** C1: with a message waiting, a budget of 1000 bits (the channel index
    takes [BitsRequired(0, 2) = 2] bits and the payload header 4 more) makes
    [GetPacketData] return 0: the test [available_bits > channel_index_bits]
    returns where the budget is large enough, so nothing is written and the
    budget is never reduced.  The same holds for every budget above 2 bits;
    budgets 0, 1 and 2 return 0 as well. *)
Theorem GetPacketData_large_budget_returns_0 fragment_branch stream packet_sequence now
    uninitialised :
  HasMessagesToSend small 0 one_pending = Done true /\
  BitsRequired 0 (number_of_channels small)
  + (BitsRequired 0 (max_messages_per_packet small) + 1 + 1) <= 1000 /\
  GetPacketData small byte_handler fragment_branch 0 stream packet_sequence 1000 now
    uninitialised one_pending
  = Done (0, stream, one_pending).
Proof.
  split; [vm_compute; reflexivity|].
  split; [vm_compute; discriminate|].
  vm_compute. reflexivity.
Qed.

(** The same channel once the packet with sequence 0 has carried message 0
    and the channel has gone to [CHANNEL_ERROR_DESYNC]. *)
Definition desynced_after_send : state :=
  match AddMessagePacketEntry small 0 [0; 0] 1 0 1000 one_pending with
  | Done st =>
      match SetErrorLevel small 0 CHANNEL_ERROR_DESYNC st with
      | Done st => st
      | Crash => st
      end
  | Crash => one_pending
  end.



(** A channel whose send queue holds the messages 0 and 1, neither of them
    sent yet. *)
Definition two_pending : state :=
  let st := constructed small in
  let queue := m_message_send_queues st in
  let queue := fst (ReliableBuffer.Insert 4 0 0 queue) in
  let queue := fst (ReliableBuffer.Insert 4 0 1 queue) in
  let queue :=
    with_data queue
      [mkSendEntry (mkMessage 17 0 false 0 0 1000) 8 false (-1);
       mkSendEntry (mkMessage 34 1 false 0 0 2000) 8 false (-1);
       MessageSendQueueEntry_default; MessageSendQueueEntry_default] in
  set_send_message_ids [2] (set_message_send_queues queue st).

(** The payload [GetMessagePacketData] writes for the ids chosen by
    [GetMessagesToSend], flushed. *)
Definition two_pending_payload : WriteStream :=
  match GetMessagePacketData small byte_handler 0 (newWriteStream (replicate 32 0) 32)
          [0; 1] 2 two_pending with
  | Done stream => Flush stream
  | Crash => newWriteStream [] 0
  end.

(** The reader of the receiving side, once the channel index, the block
    flag and the has-messages flag have been read; [ProcessPacketData] starts
    here. *)
Definition two_pending_reader : ReadStream :=
  let r := newReadStream (w_data two_pending_payload) 32 in
  let r := snd (DeserialiseInteger wrap32 to_int32 0 (number_of_channels small - 1) r) in
  let r := snd (DeserialiseBool r) in
  snd (DeserialiseBool r).


(** A budget of 0 bits on the channel with one message waiting: the
    subtraction of the two channel-index bits wraps around. *)
Lemma GetPacketData_regular_never_sends_witness :
  GetPacketData small byte_handler (fun _ _ _ _ _ _ => Crash) 0
    (newWriteStream (replicate 32 0) 32) 0 0 1000 [0; 0] one_pending
  = Done (0, newWriteStream (replicate 32 0) 32, one_pending).
Proof.
  apply (GetPacketData_regular_never_sends small byte_handler).
  - vm_compute. split; [discriminate | reflexivity].
  - lia.
  - reflexivity.
  - reflexivity.
  - vm_compute. reflexivity.
Defined.

(** The second message on the single connection of the small channel. *)
Lemma SendMessage_crashes_on_send_id_witness :
  SendMessage small byte_handler 0 (mkMessage 34 0 false 0 0 2000) one_pending = Crash.
Proof.
  apply (SendMessage_crashes_on_send_id small byte_handler).
  - vm_compute. split; [discriminate | reflexivity].
  - reflexivity.
  - vm_compute. reflexivity.
  - vm_compute. discriminate.
Defined.

Lemma UpdateOldestUnackedMessageID_terminates_witness :
  exists id,
    UpdateOldestUnackedMessageID_loop small (Z.to_nat 65537) 0 1
      (m_message_send_queues one_pending) 5 = Some id /\
    0 <= id < 65536 /\
    (id = 1 \/
     ReliableBuffer.Find (message_send_queue_size small) 0 id
       (m_message_send_queues one_pending) <> None).
Proof.
  apply (UpdateOldestUnackedMessageID_terminates small 0 1
           (m_message_send_queues one_pending) 5); lia.
Defined.

(** The small channel after [Reset(0)]. *)
Definition one_pending_reset : state :=
  match Reset small 0 one_pending with
  | Done st => st
  | Crash => one_pending
  end.

Lemma Reset_connection_as_new_witness :
  HasMessagesToSend small 0 one_pending_reset = Done false /\
  released one_pending_reset = [1000].
Proof.
  split; [|vm_compute; reflexivity].
  refine (proj1 (proj2 (Reset_connection_as_new small 0 one_pending one_pending_reset
                          _ _ _ _ _ _ _ _ _))).
  - vm_compute. split; [discriminate | reflexivity].
  - vm_compute. split; reflexivity.
  - reflexivity.
  - reflexivity.
  - reflexivity.
  - reflexivity.
  - reflexivity.
  - reflexivity.
  - vm_compute. reflexivity.
Defined.

Lemma ProcessAcknowledgement_twice_witness :
  let st' :=
    match ProcessAcknowledgement small 0 0 desynced_after_send with
    | Done st' => st'
    | Crash => desynced_after_send
    end in
  ProcessAcknowledgement small 0 0 desynced_after_send = Done st' /\
  ProcessAcknowledgement small 0 0 st' = Done st'.
Proof.
  cbv zeta. split; [vm_compute; reflexivity|].
  apply (ProcessAcknowledgement_twice small 0 0 desynced_after_send).
  - vm_compute. split; reflexivity.
  - unfold ReliableBuffer.wf.
    split; [vm_compute; reflexivity|]. split; [vm_compute; reflexivity|].
    split; [vm_compute; reflexivity|].
    vm_compute. repeat constructor; discriminate.
  - vm_compute. repeat constructor; discriminate.
  - vm_compute. reflexivity.
  - intros p Hp Hblock. vm_compute in Hp. injection Hp as <-.
    vm_compute in Hblock. discriminate Hblock.
  - vm_compute. reflexivity.
Defined.

End ReliableOrdered.

(** ** Unreliable unordered channel: packets received
    (UnreliableUnorderedChannel.h, ProcessPacketData) *)

Module UnreliableUnorderedReceive.
Import Channel Stream UnreliableUnordered.

Section Channel.

Variable max_connection_count : Z.
Variable receive_queue_size : Z.
Variable max_message_type_number : Z.
Variable handler : ReliableOrdered.PacketHandler.

(** The loop of [ProcessPacketData]; [message] is declared before the loop
    and written by every iteration. *)
Fixpoint ProcessPacketData_loop (connection_index : Z) (n : nat) (packet_sequence : Z)
    (message : ChannelMessage) (packet_data : ReadStream) (st : state)
  : outcome (state * ReadStream) :=
  match n with
  | O => Done (st, packet_data)
  | S n' =>
      match DeserialiseInteger wrap16 wrap16 0 max_message_type_number packet_data with
      | (None, packet_data) =>
          let* st :=
            SetErrorLevel max_connection_count connection_index
              CHANNEL_ERROR_FAILED_TO_SERIALISE st in
          Done (st, packet_data)
      | (Some protocol, packet_data) =>
          let message :=
            mkMessage protocol packet_sequence (is_block message) (block_offset message)
              (block_size message) (message_data message) in
          let '(ok, message, packet_data) :=
            ReliableOrdered.DeserialiseMessage handler message packet_data in
          if negb ok then
            let* st :=
              SetErrorLevel max_connection_count connection_index
                CHANNEL_ERROR_FAILED_TO_SERIALISE st in
            Done (st, packet_data)
          else
            let q := aget (m_message_receive_queue st) connection_index in
            let st :=
              if negb (was_full receive_queue_size q) then
                mkState (m_error_level st) (m_message_send_queue st)
                  (aset (m_message_receive_queue st) connection_index (push q message))
                  (m_counters_array st) (released st)
              else Release (message_data message) st in
            ProcessPacketData_loop connection_index n' packet_sequence message packet_data st
      end
  end.

(** [ProcessPacketData]: the state and the stream after the call. *)
Definition ProcessPacketData (connection_index : Z) (packet_data : ReadStream)
    (number_of_messages packet_sequence : Z) (st : state) : outcome (state * ReadStream) :=
  crash_unless connection_ok max_connection_count connection_index in
  let* error_level := GetErrorLevel max_connection_count connection_index st in
  if negb (ErrorLevel_eqb error_level ERROR_NONE) then Done (st, packet_data)
  else
    ProcessPacketData_loop connection_index (Z.to_nat number_of_messages) packet_sequence
      ChannelMessage_default packet_data st.

(** What a call may do to the queues: append messages of the packet to the
    receive queue of the connection, within its capacity, and nothing
    else. *)
Definition received_into (c packet_sequence : Z) (st st' : state) : Prop :=
  length (m_message_receive_queue st') = length (m_message_receive_queue st) /\
  m_message_send_queue st' = m_message_send_queue st /\
  m_counters_array st' = m_counters_array st /\
  (forall c', c' <> c ->
     aget (m_message_receive_queue st') c' = aget (m_message_receive_queue st) c') /\
  exists new,
    aget (m_message_receive_queue st') c = aget (m_message_receive_queue st) c ++ new /\
    Forall (fun m => message_id m = packet_sequence) new /\
    (Z.of_nat (length (aget (m_message_receive_queue st) c)) <= receive_queue_size ->
     Z.of_nat (length (aget (m_message_receive_queue st') c)) <= receive_queue_size).

Lemma received_into_refl c packet_sequence st : received_into c packet_sequence st st.
Proof.
  unfold received_into. split; [reflexivity|]. split; [reflexivity|].
  split; [reflexivity|]. split; [reflexivity|].
  exists []. split; [now rewrite app_nil_r|]. split; [constructor|]. intros H. exact H.
Qed.

Lemma received_into_trans c packet_sequence st1 st2 st3 :
  received_into c packet_sequence st1 st2 -> received_into c packet_sequence st2 st3 ->
  received_into c packet_sequence st1 st3.
Proof.
  intros (Hlen1 & Hsend1 & Hcount1 & Hother1 & new1 & Hnew1 & Hid1 & Hcap1)
         (Hlen2 & Hsend2 & Hcount2 & Hother2 & new2 & Hnew2 & Hid2 & Hcap2).
  unfold received_into.
  split; [congruence|]. split; [congruence|]. split; [congruence|].
  split; [intros c' Hc'; rewrite Hother2, Hother1 by exact Hc'; reflexivity|].
  exists (new1 ++ new2).
  split; [rewrite Hnew2, Hnew1; symmetry; apply app_assoc|].
  split; [apply Forall_app; split; assumption|].
  intros H. apply Hcap2, Hcap1, H.
Qed.

Lemma SetErrorLevel_received_into c packet_sequence level st st' :
  SetErrorLevel max_connection_count c level st = Done st' ->
  received_into c packet_sequence st st'.
Proof.
  unfold SetErrorLevel, bind, ASSERT_CRASH.
  destruct (connection_ok max_connection_count c); [|discriminate].
  intros [= <-]. unfold received_into.
  cbn [m_message_receive_queue m_message_send_queue m_counters_array].
  split; [reflexivity|]. split; [reflexivity|]. split; [reflexivity|].
  split; [reflexivity|].
  exists []. split; [now rewrite app_nil_r|]. split; [constructor|]. intros H. exact H.
Qed.

(** The handler fills in the message it is given and leaves its id. *)
Definition keeps_message_id : Prop :=
  forall m s,
    message_id (snd (fst (ReliableOrdered.DeserialiseMessage handler m s))) = message_id m.

Lemma ProcessPacketData_loop_received_into c packet_sequence :
  keeps_message_id -> 0 <= c ->
  forall n message packet_data st st' packet_data',
    c < Z.of_nat (length (m_message_receive_queue st)) ->
    ProcessPacketData_loop c n packet_sequence message packet_data st
    = Done (st', packet_data') ->
    received_into c packet_sequence st st'.
Proof.
  intros Hkeep Hc. induction n as [|n IH];
    intros message packet_data st st' packet_data' Hlen Hloop.
  - injection Hloop as <- <-. apply received_into_refl.
  - cbn [ProcessPacketData_loop] in Hloop.
    destruct (DeserialiseInteger wrap16 wrap16 0 max_message_type_number packet_data)
      as [[protocol|] packet_data1].
    2: { unfold bind in Hloop.
         destruct (SetErrorLevel _ _ _ _) as [st1|] eqn:Eset; [|discriminate Hloop].
         injection Hloop as <- <-. exact (SetErrorLevel_received_into _ _ _ _ _ Eset). }
    pose proof (Hkeep (mkMessage protocol packet_sequence (is_block message)
                         (block_offset message) (block_size message)
                         (message_data message)) packet_data1) as Hid.
    destruct (ReliableOrdered.DeserialiseMessage handler _ packet_data1)
      as [[ok message1] packet_data2].
    cbn [fst snd message_id] in Hid.
    destruct ok; cbn [negb] in Hloop.
    2: { unfold bind in Hloop.
         destruct (SetErrorLevel _ _ _ _) as [st1|] eqn:Eset; [|discriminate Hloop].
         injection Hloop as <- <-. exact (SetErrorLevel_received_into _ _ _ _ _ Eset). }
    set (q := aget (m_message_receive_queue st) c) in *.
    destruct (was_full receive_queue_size q) eqn:Efull; cbn [negb] in Hloop.
    + apply IH in Hloop; [|exact Hlen].
      refine (received_into_trans _ _ _ _ _ _ Hloop).
      unfold received_into, Release.
      cbn [m_message_receive_queue m_message_send_queue m_counters_array].
      split; [reflexivity|]. split; [reflexivity|]. split; [reflexivity|].
      split; [reflexivity|].
      exists []. split; [now rewrite app_nil_r|]. split; [constructor|].
      intros H. exact H.
    + apply IH in Hloop; [|cbn [m_message_receive_queue]; rewrite length_aset; exact Hlen].
      refine (received_into_trans _ _ _ _ _ _ Hloop).
      unfold received_into. cbn [m_message_receive_queue m_message_send_queue m_counters_array].
      split; [apply length_aset|]. split; [reflexivity|]. split; [reflexivity|].
      split; [intros c' Hc'; apply aget_aset_ne; congruence|].
      exists [message1]. split; [apply aget_aset_eq; lia|].
      split; [constructor; [exact Hid | constructor]|].
      intros _. rewrite aget_aset_eq by lia.
      unfold push. rewrite length_app. cbn [length].
      unfold was_full in Efull. fold q. lia.
Qed.

(** [ProcessPacketData] appends to the receive queue of its connection
    messages that carry the packet sequence as their id, never beyond the
    capacity of the queue; it leaves the receive queues of the other
    connections, the send queues and the counters as they are.  A message
    that finds the queue full is dropped. *)
Theorem ProcessPacketData_received_into c packet_data number_of_messages packet_sequence
    st st' packet_data' :
  keeps_message_id ->
  Z.of_nat (length (m_message_receive_queue st)) = max_connection_count ->
  ProcessPacketData c packet_data number_of_messages packet_sequence st
  = Done (st', packet_data') ->
  received_into c packet_sequence st st'.
Proof.
  intros Hkeep Hlen Hrun. unfold ProcessPacketData, GetErrorLevel, bind, ASSERT_CRASH in Hrun.
  destruct (connection_ok max_connection_count c) eqn:Hok; [|discriminate Hrun].
  apply connection_ok_true in Hok.
  destruct (negb _).
  - injection Hrun as <- <-. apply received_into_refl.
  - apply (ProcessPacketData_loop_received_into c packet_sequence Hkeep ltac:(lia)) in Hrun;
      [exact Hrun | lia].
Qed.

End Channel.

(** Two messages of type 17 and 34 with the payload bytes 1 and 2, for
    connection 1 of [two_connections], whose receive queue of four holds one
    message. *)
Definition two_messages : ReadStream :=
  newReadStream [17; 1; 34; 2; 0; 0; 0; 0] 8.

Example ProcessPacketData_two_messages :
  match ProcessPacketData 2 4 255 ReliableOrdered.byte_handler 1 two_messages 2 77
          two_connections with
  | Done (st', _) =>
      aget (m_message_receive_queue st') 1
      = [mkMessage 7 0 false 0 0 1000; mkMessage 1 77 false 0 0 0;
         mkMessage 2 77 false 0 0 0]
  | Crash => False
  end.
Proof. vm_compute. reflexivity. Qed.

Lemma byte_handler_keeps_message_id : keeps_message_id ReliableOrdered.byte_handler.
Proof.
  intros m s. unfold ReliableOrdered.byte_handler. cbn [ReliableOrdered.DeserialiseMessage].
  destruct (DeserialiseBits wrap32 8 s) as [[v|] s']; reflexivity.
Qed.

Lemma ProcessPacketData_received_into_witness :
  received_into 4 1 77 two_connections
    (match ProcessPacketData 2 4 255 ReliableOrdered.byte_handler 1 two_messages 2 77
             two_connections with
     | Done (st', _) => st'
     | Crash => two_connections
     end).
Proof.
  apply (ProcessPacketData_received_into 2 4 255 ReliableOrdered.byte_handler 1 two_messages
           2 77 two_connections _
           (match ProcessPacketData 2 4 255 ReliableOrdered.byte_handler 1 two_messages 2 77
                    two_connections with
            | Done (_, r) => r
            | Crash => two_messages
            end)).
  - exact byte_handler_keeps_message_id.
  - reflexivity.
  - vm_compute. reflexivity.
Defined.

End UnreliableUnorderedReceive.
